(** * terraform-provider-discord: the pure helpers of the provider

    A shallow embedding of the three pieces of logic of the provider that do
    not talk to the network:

    - the colour converter of [data_source_color.go]
      ([hexToDecimal], [rgbToDecimal] and the range check of [Read]);
    - the import-ID parsers of the message, emoji, role-member and
      channel-permission resources;
    - the channel-type codec of [resource_channel.go];

    and of the handlers around them: those of the channel-permission,
    role-member and channel resources, run against a Discord session that
    is a parameter of the model, and the checks that the message and
    invite resources make before they call Discord.

    Go strings are byte sequences and are modelled by [string] (a list of
    8-bit [ascii] values); Go's [int], [int64] and [uint64] are modelled by
    [Z] with the overflow checks of the library written out.  A Go function
    returning [(T, error)] returns a pair [T * option error], [None] being
    the nil error. *)

From Stdlib Require Import ZArith List Bool Ascii String Lia.
Import ListNotations.

Open Scope string_scope.
Open Scope Z_scope.

(* ================================================================= *)
(** * Part I: definitions *)
(* ================================================================= *)

(** ** Bytes and strings of Go *)

Definition code (c : ascii) : Z := Z.of_N (N_of_ascii c).

Definition byte_between (lo hi c : ascii) : bool :=
  (code lo <=? code c) && (code c <=? code hi).

(** [len(s)] *)
Definition len (s : string) : Z := Z.of_nat (String.length s).

(** [s[i]]; Go panics when [i] is out of range, the model returns the zero
    byte there (every use below is guarded by a length test). *)
Definition at_index (s : string) (i : nat) : ascii :=
  match String.get i s with Some c => c | None => Ascii.zero end.

(** [string(b)] for a byte [b] below 0x80 *)
Definition string_of_byte (c : ascii) : string := String c "".

(** [s[:i]] *)
Fixpoint slice_to (i : nat) (s : string) : string :=
  match i, s with
  | S j, String c s' => String c (slice_to j s')
  | _, _ => ""
  end.

(** [s[i:]] *)
Fixpoint slice_from (i : nat) (s : string) : string :=
  match i, s with
  | S j, String _ s' => slice_from j s'
  | _, _ => s
  end.

(** [strings.TrimPrefix(s, prefix)]: [s] without the leading [prefix], or
    [s] itself when it does not start with [prefix]. *)
Fixpoint strip_prefix (prefix s : string) : option string :=
  match prefix, s with
  | "", _ => Some s
  | String a p', String b s' => if (a =? b)%char then strip_prefix p' s' else None
  | String _ _, "" => None
  end.

Definition strings_TrimPrefix (s prefix : string) : string :=
  match strip_prefix prefix s with Some rest => rest | None => s end.

(** [strings.ToUpper] on the bytes [a]..[z].  On a string of bytes below
    0x80 this is Go's function.  (Go also maps letters outside ASCII to
    their upper case; none of them becomes one of [0-9A-F], so the format
    test of [hexToDecimal] is decided alike.) *)
Definition upper_byte (c : ascii) : ascii :=
  if byte_between "a" "z" c then ascii_of_N (N_of_ascii c - 32) else c.

Fixpoint strings_ToUpper (s : string) : string :=
  match s with
  | "" => ""
  | String c s' => String (upper_byte c) (strings_ToUpper s')
  end.

(** [strings.Split(s, sep)] for a one-byte separator: the pieces of [s]
    between the separators, [n+1] pieces for [n] separators (one empty piece
    for the empty string). *)
Fixpoint strings_Split (s : string) (sep : ascii) : list string :=
  match s with
  | "" => [""]
  | String c s' =>
      if (c =? sep)%char then "" :: strings_Split s' sep
      else match strings_Split s' sep with
           | piece :: rest => String c piece :: rest
           | [] => [String c ""]
           end
  end.

(** [fmt.Sprintf("%s:%s", a, b)] and [fmt.Sprintf("%s:%s:%s", a, b, c)] *)
Definition sprintf2 (a b : string) : string := a ++ ":" ++ b.
Definition sprintf3 (a b c : string) : string := a ++ ":" ++ b ++ ":" ++ c.

(** ** [strconv.ParseInt] of the Go library, for an explicit base in 2..36
    and bit size 64 *)

Inductive NumError : Type :=
| ErrSyntax   (* strconv.ErrSyntax: "invalid syntax" *)
| ErrRange.   (* strconv.ErrRange: "value out of range" *)

Definition maxUint64 : Z := 2 ^ 64 - 1.

(** [lower(c) = c | ('x' - 'A')] *)
Definition lower (c : ascii) : Z := Z.lor (code c) 32.

(** The digit a byte stands for, before the test against the base. *)
Definition digit_of (c : ascii) : option Z :=
  if byte_between "0" "9" c then Some (code c - 48)
  else if (97 <=? lower c) && (lower c <=? 122) then Some (lower c - 97 + 10)
  else None.

(** The loop of [ParseUint]: [n] is the value read so far. *)
Fixpoint ParseUint_loop (base : Z) (s : string) (n : Z) : Z * option NumError :=
  match s with
  | "" => (n, None)
  | String c s' =>
      match digit_of c with
      | None => (0, Some ErrSyntax)
      | Some d =>
          if d >=? base then (0, Some ErrSyntax)
          else if n >=? maxUint64 / base + 1 then (maxUint64, Some ErrRange)
          else
            let n := n * base in
            let n1 := (n + d) mod 2 ^ 64 in
            if (n1 <? n) || (n1 >? maxUint64) then (maxUint64, Some ErrRange)
            else ParseUint_loop base s' n1
      end
  end.

Definition strconv_ParseUint (s : string) (base : Z) : Z * option NumError :=
  match s with
  | "" => (0, Some ErrSyntax)
  | _ => ParseUint_loop base s 0
  end.

Definition strconv_ParseInt (s : string) (base : Z) : Z * option NumError :=
  match s with
  | "" => (0, Some ErrSyntax)
  | String c0 s' =>
      let '(neg, s1) :=
        if (c0 =? "+")%char then (false, s')
        else if (c0 =? "-")%char then (true, s')
        else (false, s) in
      let '(un, err) := strconv_ParseUint s1 base in
      match err with
      | Some ErrSyntax => (0, Some ErrSyntax)
      | _ =>
          let cutoff := 2 ^ 63 in
          if negb neg && (un >=? cutoff) then (cutoff - 1, Some ErrRange)
          else if neg && (un >? cutoff) then (- cutoff, Some ErrRange)
          else (if neg then - un else un, None)
      end
  end.

(** ** The fragment of Go's [regexp] syntax the provider uses

    Both patterns of the provider are anchored ([^] ... [$]) and are built
    from literal bytes, character classes, greedy repetition of a class and
    capturing groups that do not nest.  The matcher is the leftmost-first
    backtracking semantics of Go's [regexp] on that fragment; the anchors
    are the start at offset 0 and the final continuation [at_end].  A group
    records the text it consumed; groups are numbered from 1 in the order in
    which they close. *)

Inductive regex : Type :=
| Lit (c : ascii)
| Star (p : ascii -> bool)
| Plus (p : ascii -> bool)
| Cat (r1 r2 : regex)
| Group (r : regex).

Definition captures := list string.
Definition cont := string -> captures -> option captures.

Fixpoint star (p : ascii -> bool) (k : cont) (s : string) (caps : captures)
  : option captures :=
  match s with
  | String x s' =>
      if p x then
        match star p k s' caps with
        | Some m => Some m
        | None => k s caps
        end
      else k s caps
  | "" => k s caps
  end.

Fixpoint run (r : regex) (s : string) (caps : captures) (k : cont)
  : option captures :=
  match r with
  | Lit c =>
      match s with
      | String x s' => if (x =? c)%char then k s' caps else None
      | "" => None
      end
  | Star p => star p k s caps
  | Plus p =>
      match s with
      | String x s' => if p x then star p k s' caps else None
      | "" => None
      end
  | Cat r1 r2 => run r1 s caps (fun s' caps' => run r2 s' caps' k)
  | Group r0 =>
      run r0 s caps
        (fun s' caps' =>
           k s' (caps' ++ [slice_to (String.length s - String.length s') s])%list)
  end.

(** [$]: the match must end at the end of the text. *)
Definition at_end : cont :=
  fun s caps => match s with "" => Some caps | _ => None end.

(** [regexp.MatchString("^r$", s)]; the pattern is a valid one, so the
    error is nil. *)
Definition regexp_MatchString (r : regex) (s : string) : bool * option unit :=
  (match run r s [] at_end with Some _ => true | None => false end, None).

(** [regexp.MustCompile("^r$").FindStringSubmatch(s)]: nil ([None]) when
    there is no match, else the slice of the whole match and the groups. *)
Definition FindStringSubmatch (r : regex) (s : string) : option (list string) :=
  match run r s [] at_end with
  | Some caps => Some (s :: caps)
  | None => None
  end.

(** [[0-9A-F]] *)
Definition hex_upper (c : ascii) : bool :=
  byte_between "0" "9" c || byte_between "A" "F" c.

(** [\d] is [[0-9]] *)
Definition digit (c : ascii) : bool := byte_between "0" "9" c.

(** [\s] is [[\t\n\f\r ]] *)
Definition space (c : ascii) : bool :=
  let n := code c in
  (n =? 9) || (n =? 10) || (n =? 12) || (n =? 13) || (n =? 32).

(** The literal bytes of [s], followed by [r]. *)
Fixpoint lits (s : string) (r : regex) : regex :=
  match s with
  | "" => r
  | String c s' => Cat (Lit c) (lits s' r)
  end.

Infix ";;" := Cat (at level 61, right associativity).

(** [^[0-9A-F]+$] *)
Definition hexRegex : regex := Plus hex_upper.

(** [^rgb\s*\(\s*(\d+)\s*,\s*(\d+)\s*,\s*(\d+)\s*\)$] *)
Definition rgbRegex : regex :=
  lits "rgb"
    (Star space ;; Lit "(" ;;
     Star space ;; Group (Plus digit) ;; Star space ;; Lit "," ;;
     Star space ;; Group (Plus digit) ;; Star space ;; Lit "," ;;
     Star space ;; Group (Plus digit) ;; Star space ;; Lit ")").

(** ** The colour converter ([data_source_color.go]) *)

Inductive component : Type := red | green | blue.

(** The errors the two converters build with [fmt.Errorf], one constructor
    per call site.  In the vocabulary of the specification
    [ErrInvalidHexFormat] and [ErrInvalidRGBFormat] are InvalidFormat,
    [ErrInvalidHexLength] is InvalidLength and [ErrOutOfRange] is the
    component-specific OutOfRange. *)
Inductive error : Type :=
| ErrValidatingHex                               (* "error validating hex string: %w" *)
| ErrInvalidHexFormat                            (* "invalid hex color format: %s (must contain only 0-9 and A-F)" *)
| ErrInvalidHexLength                            (* "invalid hex color length: %s (must be 3 or 6 characters)" *)
| ErrParsingHex (e : NumError)                   (* "error parsing hex to decimal: %w" *)
| ErrInvalidRGBFormat                            (* "invalid RGB format: %s (expected format: rgb(R, G, B))" *)
| ErrParsingComponent (c : component) (e : NumError) (* "error parsing red value: %w" *)
| ErrOutOfRange (c : component) (v : Z).         (* "red value must be between 0 and 255, got: %d" *)

Definition hexToDecimal (hex : string) : Z * option error :=
  (* Remove leading # if present *)
  let hex := strings_TrimPrefix hex "#" in
  let hex := strings_ToUpper hex in
  (* Validate hex string contains only valid hex characters *)
  let '(matched, err) := regexp_MatchString hexRegex hex in
  match err with
  | Some _ => (0, Some ErrValidatingHex)
  | None =>
      if negb matched then (0, Some ErrInvalidHexFormat)
      else
        (* Handle short format (RGB -> RRGGBB) *)
        let hex :=
          if len hex =? 3 then
            string_of_byte (at_index hex 0) ++ string_of_byte (at_index hex 0) ++
            string_of_byte (at_index hex 1) ++ string_of_byte (at_index hex 1) ++
            string_of_byte (at_index hex 2) ++ string_of_byte (at_index hex 2)
          else hex in
        (* Validate length *)
        if negb (len hex =? 6) then (0, Some ErrInvalidHexLength)
        else
          (* Parse hex to decimal *)
          let '(decimal, err) := strconv_ParseInt hex 16 in
          match err with
          | Some e => (0, Some (ErrParsingHex e))
          | None => (decimal, None)
          end
  end.

(** One channel of [rgbToDecimal]: parse, then the range test. *)
Definition parse_channel (c : component) (text : string) : Z * option error :=
  let '(v, err) := strconv_ParseInt text 10 in
  match err with
  | Some e => (0, Some (ErrParsingComponent c e))
  | None =>
      if (v <? 0) || (v >? 255) then (0, Some (ErrOutOfRange c v))
      else (v, None)
  end.

Definition rgbToDecimal (rgb : string) : Z * option error :=
  (* Match RGB format: rgb(R, G, B) or rgb(R,G,B) *)
  match FindStringSubmatch rgbRegex rgb with
  | Some [_; m1; m2; m3] =>
      (* Parse R, G, B values *)
      match parse_channel red m1 with
      | (_, Some e) => (0, Some e)
      | (r, None) =>
          match parse_channel green m2 with
          | (_, Some e) => (0, Some e)
          | (g, None) =>
              match parse_channel blue m3 with
              | (_, Some e) => (0, Some e)
              | (b, None) =>
                  (* Convert RGB to decimal: R*65536 + G*256 + B *)
                  (r * 65536 + g * 256 + b, None)
              end
          end
      end
  | _ => (* matches == nil || len(matches) != 4 *)
      (0, Some ErrInvalidRGBFormat)
  end.

(** A [types.String] of the plugin framework. *)
Inductive tfString : Type :=
| StringNull
| StringUnknown
| StringValue (s : string).

Definition IsNull (v : tfString) : bool :=
  match v with StringNull => true | _ => false end.
Definition IsUnknown (v : tfString) : bool :=
  match v with StringUnknown => true | _ => false end.
Definition ValueString (v : tfString) : string :=
  match v with StringValue s => s | _ => "" end.

Record colorDataSourceModel : Type := {
  Hex : tfString;
  RGB : tfString;
  Dec : option Z
}.

(** A diagnostic is identified by its summary line. *)
Definition diagnostic := string.

(** What [colorDataSource.Read] leaves in the response: the error
    diagnostics and, when it reaches [resp.State.Set], the state. *)
Record ReadResponse : Type := {
  ReadDiagnostics : list diagnostic;
  ReadState : option colorDataSourceModel
}.

Definition read_error (summary : diagnostic) : ReadResponse :=
  {| ReadDiagnostics := [summary]; ReadState := None |}.

(** [colorDataSource.Read] from the decoded configuration [data] on. *)
Definition Read (data : colorDataSourceModel) : ReadResponse :=
  (* Validate that exactly one of hex or rgb is provided *)
  let hasHex := negb (IsNull (Hex data)) && negb (IsUnknown (Hex data))
                && negb (ValueString (Hex data) =? "")%string in
  let hasRGB := negb (IsNull (RGB data)) && negb (IsUnknown (RGB data))
                && negb (ValueString (RGB data) =? "")%string in
  if negb hasHex && negb hasRGB then read_error "Missing Color Input"
  else if hasHex && hasRGB then read_error "Conflicting Color Input"
  else
    let converted :=
      if hasHex then
        match hexToDecimal (ValueString (Hex data)) with
        | (_, Some _) => inl "Invalid Hex Color"
        | (v, None) => inr v
        end
      else
        match rgbToDecimal (ValueString (RGB data)) with
        | (_, Some _) => inl "Invalid RGB Color"
        | (v, None) => inr v
        end in
    match converted with
    | inl summary => read_error summary
    | inr decimalValue =>
        (* Validate color range (0-16777215) *)
        if (decimalValue <? 0) || (decimalValue >? 16777215)
        then read_error "Invalid Color Range"
        else
          {| ReadDiagnostics := [];
             ReadState := Some {| Hex := Hex data; RGB := RGB data;
                                  Dec := Some decimalValue |} |}
    end.

(** ** The import-ID parsers *)

(** The response of an [ImportState]: the error diagnostics and the
    attributes written with [resp.State.SetAttribute], in the order of the
    calls. *)
Record ImportStateResponse : Type := {
  Diagnostics : list diagnostic;
  State : list (string * string)
}.

Definition import_error (summary : diagnostic) : ImportStateResponse :=
  {| Diagnostics := [summary]; State := [] |}.

Definition import_state (attrs : list (string * string)) : ImportStateResponse :=
  {| Diagnostics := []; State := attrs |}.

(** The summaries the importers use for an ID of the wrong shape; the
    specification calls them InvalidImportID. *)
Definition InvalidImportID (r : ImportStateResponse) : bool :=
  match Diagnostics r with
  | [d] => (d =? "Invalid Import ID")%string || (d =? "Invalid Import ID Format")%string
  | _ => false
  end.

(** The loop [for i := 0; i < len(s); i++ { if s[i] == ':' { ...; break } }]:
    the first index, from [i] on, where [rest] holds a colon. *)
Fixpoint first_colon (rest : string) (i : nat) : option nat :=
  match rest with
  | "" => None
  | String c rest' => if (c =? ":")%char then Some i else first_colon rest' (S i)
  end.

(** The loop [for i := len(s) - 1; i >= 0; i-- { if s[i] == ':' { ...; break } }],
    started with [i] one above the index it looks at first. *)
Fixpoint last_colon (s : string) (i : nat) : option nat :=
  match i with
  | O => None
  | S j => if (at_index s j =? ":")%char then Some j else last_colon s j
  end.

(** [messageResource.ImportState] *)
Definition messageResource_ImportState (importID : string) : ImportStateResponse :=
  if (importID =? "")%string then import_error "Invalid Import ID"
  else
    (* Parse the import ID - split by colon *)
    let splitParts :=
      match first_colon importID 0 with
      | Some i => [slice_to i importID; slice_from (S i) importID]
      | None => []
      end in
    match splitParts with
    | [channelID; messageID] =>
        import_state [("channel_id", channelID); ("message_id", messageID);
                      ("id", messageID)]
    | _ => import_error "Invalid Import ID Format"
    end.

(** [emojiResource.ImportState] *)
Definition emojiResource_ImportState (importID : string) : ImportStateResponse :=
  if (importID =? "")%string then import_error "Invalid Import ID"
  else
    match strings_Split importID ":" with
    | [guildID; emojiID] => import_state [("guild_id", guildID); ("id", emojiID)]
    | _ => import_error "Invalid Import ID Format"
    end.

(** The composite key [roleMemberResource.Create] stores as the ID. *)
Definition roleMemberResource_Create_ID (guildID roleID userID : string) : string :=
  sprintf3 guildID roleID userID.

(** [roleMemberResource.ImportState] *)
Definition roleMemberResource_ImportState (importID : string) : ImportStateResponse :=
  if (importID =? "")%string then import_error "Invalid Import ID"
  else
    match strings_Split importID ":" with
    | [guildID; roleID; userID] =>
        import_state [("guild_id", guildID); ("role_id", roleID);
                      ("user_id", userID); ("id", importID)]
    | _ => import_error "Invalid Import ID Format"
    end.

(** [discordgo.PermissionOverwriteType] *)
Inductive PermissionOverwriteType : Type :=
| PermissionOverwriteTypeRole
| PermissionOverwriteTypeMember.

Record parsedPermissionID : Type := {
  channelID : string;
  overwriteID : string;
  typeStr : string;
  overwriteType : PermissionOverwriteType
}.

(** [channelPermissionResource.ImportState] up to the validation of the
    type tag: either the diagnostic it stops with, or the three parts it
    goes on with (the client is consulted only after that). *)
Definition channelPermissionResource_ImportState_parse (importID : string)
  : diagnostic + parsedPermissionID :=
  (* Find the last colon (separating overwrite_id and type) *)
  match last_colon importID (String.length importID) with
  | None => inl "Invalid Import ID"
  | Some lastColon =>
      let prefix := slice_to lastColon importID in
      let typeStr := slice_from (S lastColon) importID in
      (* Find the first colon (separating channel_id and overwrite_id) *)
      match first_colon prefix 0 with
      | None => inl "Invalid Import ID"
      | Some firstColon =>
          let channelID := slice_to firstColon prefix in
          let overwriteID := slice_from (S firstColon) prefix in
          (* Validate type *)
          if (typeStr =? "role")%string then
            inr {| channelID := channelID; overwriteID := overwriteID;
                   typeStr := typeStr;
                   overwriteType := PermissionOverwriteTypeRole |}
          else if (typeStr =? "member")%string then
            inr {| channelID := channelID; overwriteID := overwriteID;
                   typeStr := typeStr;
                   overwriteType := PermissionOverwriteTypeMember |}
          else inl "Invalid Type"
      end
  end.

(** The outcome of the parse when the ID is cut at its last colon and the
    part before it at its first colon. *)
Definition tagged (channel overwrite tag : string)
  : diagnostic + parsedPermissionID :=
  if (tag =? "role")%string then
    inr {| channelID := channel; overwriteID := overwrite; typeStr := tag;
           overwriteType := PermissionOverwriteTypeRole |}
  else if (tag =? "member")%string then
    inr {| channelID := channel; overwriteID := overwrite; typeStr := tag;
           overwriteType := PermissionOverwriteTypeMember |}
  else inl "Invalid Type".

(** ** The channel-type codec ([resource_channel.go]) *)

(** The [discordgo.ChannelType] constants the codec names.  They belong to
    the discordgo library; the codec depends only on their being distinct
    (they are the case labels of one [switch]). *)
Class ChannelTypes : Type := {
  ChannelTypeGuildText : Z;
  ChannelTypeGuildVoice : Z;
  ChannelTypeGuildCategory : Z;
  ChannelTypeGuildNews : Z;
  ChannelTypeGuildStageVoice : Z;
  ChannelTypeGuildForum : Z;
  ChannelTypeGuildMedia : Z;
  ChannelTypeGuildDirectory : Z
}.

Definition case_labels `{ChannelTypes} : list Z :=
  [ChannelTypeGuildText; ChannelTypeGuildVoice; ChannelTypeGuildCategory;
   ChannelTypeGuildNews; ChannelTypeGuildStageVoice; ChannelTypeGuildForum;
   ChannelTypeGuildMedia; ChannelTypeGuildDirectory].

(** The values of discordgo (and of the Discord API). *)
Definition discordgo : ChannelTypes := {|
  ChannelTypeGuildText := 0;
  ChannelTypeGuildVoice := 2;
  ChannelTypeGuildCategory := 4;
  ChannelTypeGuildNews := 5;
  ChannelTypeGuildStageVoice := 13;
  ChannelTypeGuildForum := 15;
  ChannelTypeGuildMedia := 16;
  ChannelTypeGuildDirectory := 14
|}.

(** The error of [channelTypeFromString]: "invalid channel type: %s. Valid
    values are: text, voice, category, media, directory. ..."; the
    specification calls it UnsupportedChannelType. *)
Inductive channelError : Type :=
| UnsupportedChannelType (typeStr : string).

Definition channelTypeFromString `{ChannelTypes} (typeStr : string)
  : Z * option channelError :=
  if (typeStr =? "text")%string || (typeStr =? "")%string
  then (ChannelTypeGuildText, None)
  else if (typeStr =? "voice")%string then (ChannelTypeGuildVoice, None)
  else if (typeStr =? "category")%string then (ChannelTypeGuildCategory, None)
  else if (typeStr =? "media")%string then (ChannelTypeGuildMedia, None)
  else if (typeStr =? "directory")%string then (ChannelTypeGuildDirectory, None)
  else (ChannelTypeGuildText, Some (UnsupportedChannelType typeStr)).

Definition channelTypeToString `{ChannelTypes} (channelType : Z) : string :=
  if channelType =? ChannelTypeGuildText then "text"
  else if channelType =? ChannelTypeGuildVoice then "voice"
  else if channelType =? ChannelTypeGuildCategory then "category"
  else if channelType =? ChannelTypeGuildNews then "news"
  else if channelType =? ChannelTypeGuildStageVoice then "stage"
  else if channelType =? ChannelTypeGuildForum then "forum"
  else if channelType =? ChannelTypeGuildMedia then "media"
  else if channelType =? ChannelTypeGuildDirectory then "directory"
  else "text".

(** ** Vocabulary of the statements *)

(** Every byte of [s] satisfies [p]. *)
Fixpoint all (p : ascii -> bool) (s : string) : bool :=
  match s with
  | "" => true
  | String c s' => p c && all p s'
  end.

(** The number of [':'] bytes of [s]. *)
Fixpoint count_colons (s : string) : nat :=
  match s with
  | "" => O
  | String c s' => if (c =? ":")%char then S (count_colons s') else count_colons s'
  end.

(** The value of a digit string read in base [base] with the digit values
    [dv], most significant digit first, continuing from [n]. *)
Fixpoint value_from (dv : ascii -> Z) (base n : Z) (s : string) : Z :=
  match s with
  | "" => n
  | String c s' => value_from dv base (n * base + dv c) s'
  end.

(** A hexadecimal digit, in either letter case, and its value. *)
Definition hex_digit (c : ascii) : bool :=
  byte_between "0" "9" c || byte_between "a" "f" c || byte_between "A" "F" c.

Definition hex_digit_value (c : ascii) : Z :=
  if byte_between "0" "9" c then code c - code "0"
  else if byte_between "a" "f" c then code c - code "a" + 10
  else code c - code "A" + 10.

(** The base-16 value of a string of hexadecimal digits. *)
Definition base16 (s : string) : Z := value_from hex_digit_value 16 0 s.

(** The base-10 value of a string of decimal digits. *)
Definition decimal_digit_value (c : ascii) : Z := code c - code "0".
Definition base10 (s : string) : Z := value_from decimal_digit_value 10 0 s.

(** [abc] becomes [aabbcc]. *)
Fixpoint duplicate (s : string) : string :=
  match s with
  | "" => ""
  | String c s' => String c (String c (duplicate s'))
  end.

(** The normalisation [hexToDecimal] starts with. *)
Definition normalize (hex : string) : string :=
  strings_ToUpper (strings_TrimPrefix hex "#").

(** The short form is brought to six digits, the long form is kept. *)
Definition expand (s : string) : string :=
  if (String.length s =? 3)%nat then duplicate s else s.

(** The strings [^[0-9A-F]+$] describes. *)
Definition hex_format (s : string) : bool :=
  negb (s =? "")%string && all hex_upper s.

(** A string of the form [rgb(R, G, B)]: the three components are
    non-empty runs of decimal digits, and white space may stand before and
    after each parenthesis, component and comma, except before [rgb] and
    after the closing parenthesis. *)
Definition number (s : string) : Prop := s <> "" /\ all digit s = true.

Definition rgb_form (s R G B : string) : Prop :=
  exists w1 w2 w3 w4 w5 w6 w7,
    all space w1 = true /\ all space w2 = true /\ all space w3 = true /\
    all space w4 = true /\ all space w5 = true /\ all space w6 = true /\
    all space w7 = true /\
    number R /\ number G /\ number B /\
    s = "rgb" ++ w1 ++ "(" ++ w2 ++ R ++ w3 ++ "," ++ w4 ++ G ++ w5 ++ ","
          ++ w6 ++ B ++ w7 ++ ")".

(** The set of strings a pattern of the fragment denotes. *)
Fixpoint lang (r : regex) (s : string) : Prop :=
  match r with
  | Lit c => s = String c ""
  | Star p => all p s = true
  | Plus p => s <> "" /\ all p s = true
  | Cat r1 r2 => exists s1 s2, s = s1 ++ s2 /\ lang r1 s1 /\ lang r2 s2
  | Group r0 => lang r0 s
  end.

(** The byte a string starts with is outside the class [p] (or the string
    is empty): a greedy run of [p] stops here. *)
Definition stops (p : ascii -> bool) (s : string) : bool :=
  match s with
  | "" => true
  | String c _ => negb (p c)
  end.

(** ** Values and responses of the plugin framework

    [types.Int64] beside [types.String]; the diagnostics of a response with
    their severity; and what a handler did to [resp.State]. *)

Inductive tfInt64 : Type :=
| Int64Null
| Int64Unknown
| Int64Value (v : Z).

Definition IsNullInt64 (v : tfInt64) : bool :=
  match v with Int64Null => true | _ => false end.
Definition IsUnknownInt64 (v : tfInt64) : bool :=
  match v with Int64Unknown => true | _ => false end.
Definition ValueInt64 (v : tfInt64) : Z :=
  match v with Int64Value z => z | _ => 0 end.

Inductive diag : Type :=
| AddError (summary : string)
| AddWarning (summary : string).

(** [resp.Diagnostics.HasError()] *)
Definition HasError (ds : list diag) : bool :=
  existsb (fun d => match d with AddError _ => true | AddWarning _ => false end) ds.

Inductive stateChange (M : Type) : Type :=
| StateUntouched             (* the handler returned before writing the state *)
| StateSet (m : M)           (* resp.State.Set(ctx, &data) *)
| StateRemoved.              (* resp.State.RemoveResource(ctx) *)

Arguments StateUntouched {M}.
Arguments StateSet {M} m.
Arguments StateRemoved {M}.

Record Response (M : Type) : Type := {
  RespDiagnostics : list diag;
  RespState : stateChange M
}.

Arguments RespDiagnostics {M} r.
Arguments RespState {M} r.

(** A handler that stops with one error. *)
Definition fail_with {M : Type} (summary : string) : Response M :=
  {| RespDiagnostics := [AddError summary]; RespState := StateUntouched |}.

(** ** The Discord session

    The handlers reach Discord through [*discordgo.Session].  The session
    is a parameter of the model: a record of the calls the handlers make,
    each a function of its arguments and of the state [S] of the world it
    talks to, returning its result and the next state.  A call of Go that
    returns a pointer and an error returns [inl t] for a value with a nil error and
    [inr msg] for an error with text [msg]; one that returns [error] alone
    returns [None] for nil. *)

Record PermissionOverwrite : Type := {
  ow_ID : string;
  ow_Type : PermissionOverwriteType;
  ow_Allow : Z;
  ow_Deny : Z
}.

(** The fields of [discordgo.Channel] the handlers read. *)
Record Channel : Type := {
  ch_ID : string;
  ch_Name : string;
  ch_Type : Z;
  ch_GuildID : string;
  ch_Position : Z;
  ch_ParentID : string;
  ch_PermissionOverwrites : list PermissionOverwrite
}.

(** The fields of [discordgo.ChannelEdit] the handlers set; [None] is a
    nil pointer or slice. *)
Record ChannelEdit : Type := {
  edit_Name : string;
  edit_ParentID : string;
  edit_Position : option Z;
  edit_PermissionOverwrites : option (list PermissionOverwrite)
}.

(** [discordgo.Member], of which only the roles are read. *)
Record Member : Type := {
  member_Roles : list string
}.

Record Session (S : Type) : Type := {
  Session_Channel : string -> S -> (Channel + string) * S;
  Session_ChannelEditComplex :
    string -> ChannelEdit -> S -> (Channel + string) * S;
  Session_GuildMember : string -> string -> S -> (Member + string) * S;
  Session_GuildMemberRoleAdd :
    string -> string -> string -> S -> option string * S;
  Session_GuildMemberRoleRemove :
    string -> string -> string -> S -> option string * S
}.

Arguments Session_Channel {S} s _ _.
Arguments Session_ChannelEditComplex {S} s _ _ _.
Arguments Session_GuildMember {S} s _ _ _.
Arguments Session_GuildMemberRoleAdd {S} s _ _ _ _.
Arguments Session_GuildMemberRoleRemove {S} s _ _ _ _.

(** ** The channel-permission resource *)

Record channelPermissionResourceModel : Type := {
  perm_ID : tfString;
  perm_ChannelID : tfString;
  perm_Type : tfString;
  perm_OverwriteID : tfString;
  perm_Allow : tfInt64;
  perm_Deny : tfInt64
}.

Definition PermissionOverwriteType_eqb (a b : PermissionOverwriteType) : bool :=
  match a, b with
  | PermissionOverwriteTypeRole, PermissionOverwriteTypeRole => true
  | PermissionOverwriteTypeMember, PermissionOverwriteTypeMember => true
  | _, _ => false
  end.

(** [ow.ID == overwriteID && ow.Type == overwriteType] *)
Definition same_overwrite (overwriteID : string)
           (overwriteType : PermissionOverwriteType) (ow : PermissionOverwrite)
  : bool :=
  (ow_ID ow =? overwriteID)%string
  && PermissionOverwriteType_eqb (ow_Type ow) overwriteType.

(** The loop that copies the existing overwrites, "excluding the one we're
    updating": [existing.ID != overwriteID || existing.Type != overwriteType]. *)
Definition other_overwrites (overwriteID : string)
           (overwriteType : PermissionOverwriteType)
           (existing : list PermissionOverwrite) : list PermissionOverwrite :=
  filter (fun ow => negb (ow_ID ow =? overwriteID)%string
                    || negb (PermissionOverwriteType_eqb (ow_Type ow) overwriteType))
         existing.

(** The loop that looks an overwrite up, stopping at the first match. *)
Definition find_overwrite (overwriteID : string)
           (overwriteType : PermissionOverwriteType)
           (l : list PermissionOverwrite) : option PermissionOverwrite :=
  find (same_overwrite overwriteID overwriteType) l.

(** The [switch typeStr] of Create, Read, Update and ImportState. *)
Definition overwriteType_of (typeStr : string) : option PermissionOverwriteType :=
  if (typeStr =? "role")%string then Some PermissionOverwriteTypeRole
  else if (typeStr =? "member")%string then Some PermissionOverwriteTypeMember
  else None.

Definition placeholderIDs : list string :=
  ["987654321098765432"; "123456789012345678"; "111111111111111111";
   "000000000000000000"].

(** [allow := int64(0); if !v.IsNull() && !v.IsUnknown() { allow = v.ValueInt64() }] *)
Definition int64_or_zero (v : tfInt64) : Z :=
  if negb (IsNullInt64 v) && negb (IsUnknownInt64 v) then ValueInt64 v else 0.

Definition permission_state (channelID typeStr overwriteID : string)
           (allow deny : Z) : channelPermissionResourceModel :=
  {| perm_ID := StringValue (sprintf2 channelID overwriteID);
     perm_ChannelID := StringValue channelID;
     perm_Type := StringValue typeStr;
     perm_OverwriteID := StringValue overwriteID;
     perm_Allow := Int64Value allow;
     perm_Deny := Int64Value deny |}.

(** "Find the overwrite we just created ...; if not found in immediate
    response, fetch channel again to verify": shared by Create and Update. *)
Definition final_overwrite {S : Type} (c : Session S) (channelID overwriteID : string)
           (overwriteType : PermissionOverwriteType) (updatedChannel : Channel)
           (s : S) : option PermissionOverwrite * S :=
  match find_overwrite overwriteID overwriteType
          (ch_PermissionOverwrites updatedChannel) with
  | Some ow => (Some ow, s)
  | None =>
      let '(r, s) := Session_Channel c channelID s in
      match r with
      | inl refreshedChannel =>
          (find_overwrite overwriteID overwriteType
             (ch_PermissionOverwrites refreshedChannel), s)
      | inr _ => (None, s)
      end
  end.

Definition permissions_edit (overwrites : list PermissionOverwrite) : ChannelEdit :=
  {| edit_Name := ""; edit_ParentID := ""; edit_Position := None;
     edit_PermissionOverwrites := Some overwrites |}.

(** [channelPermissionResource.Create], from the decoded plan [data] on. *)
Definition channelPermissionResource_Create {S : Type}
           (client : option (Session S)) (data : channelPermissionResourceModel)
           (s : S) : Response channelPermissionResourceModel * S :=
  match client with
  | None => (fail_with "Discord Client Not Configured", s)
  | Some c =>
      let channelID := ValueString (perm_ChannelID data) in
      if (channelID =? "")%string then (fail_with "Missing Channel ID", s)
      else
        let typeStr := ValueString (perm_Type data) in
        if (typeStr =? "")%string then (fail_with "Missing Type", s)
        else
          match overwriteType_of typeStr with
          | None => (fail_with "Invalid Type", s)
          | Some overwriteType =>
              let overwriteID := ValueString (perm_OverwriteID data) in
              if (overwriteID =? "")%string
              then (fail_with "Missing Overwrite ID", s)
              else if existsb (String.eqb overwriteID) placeholderIDs
              then (fail_with "Invalid Overwrite ID", s)
              else
                let allow := int64_or_zero (perm_Allow data) in
                let deny := int64_or_zero (perm_Deny data) in
                let overwrite :=
                  {| ow_ID := overwriteID; ow_Type := overwriteType;
                     ow_Allow := allow; ow_Deny := deny |} in
                (* Get current channel to preserve existing overwrites *)
                let '(r, s) := Session_Channel c channelID s in
                match r with
                | inr _ => (fail_with "Error Fetching Channel", s)
                | inl channel =>
                    let overwrites :=
                      (other_overwrites overwriteID overwriteType
                         (ch_PermissionOverwrites channel) ++ [overwrite])%list in
                    let '(r, s) :=
                      Session_ChannelEditComplex c channelID
                        (permissions_edit overwrites) s in
                    match r with
                    | inr _ => (fail_with "Error Setting Channel Permission", s)
                    | inl updatedChannel =>
                        let '(finalOverwrite, s) :=
                          final_overwrite c channelID overwriteID overwriteType
                            updatedChannel s in
                        match finalOverwrite with
                        | None =>
                            (fail_with "Permission Overwrite Not Created", s)
                        | Some fo =>
                            ({| RespDiagnostics := [];
                                RespState :=
                                  StateSet (permission_state channelID typeStr
                                              overwriteID (ow_Allow fo) (ow_Deny fo)) |},
                             s)
                        end
                    end
                end
          end
  end.

(** [channelPermissionResource.Read], from the decoded state [data] on. *)
Definition channelPermissionResource_Read {S : Type}
           (client : option (Session S)) (data : channelPermissionResourceModel)
           (s : S) : Response channelPermissionResourceModel * S :=
  match client with
  | None => (fail_with "Discord Client Not Configured", s)
  | Some c =>
      let channelID := ValueString (perm_ChannelID data) in
      if (channelID =? "")%string then (fail_with "Missing Channel ID", s)
      else
        let typeStr := ValueString (perm_Type data) in
        let overwriteID := ValueString (perm_OverwriteID data) in
        match overwriteType_of typeStr with
        | None => (fail_with "Invalid Type", s)
        | Some overwriteType =>
            let '(r, s) := Session_Channel c channelID s in
            match r with
            | inr _ => (fail_with "Error Fetching Channel", s)
            | inl channel =>
                match find_overwrite overwriteID overwriteType
                        (ch_PermissionOverwrites channel) with
                | None =>
                    (* mark resource for deletion *)
                    ({| RespDiagnostics := []; RespState := StateRemoved |}, s)
                | Some overwrite =>
                    ({| RespDiagnostics := [];
                        RespState :=
                          StateSet (permission_state channelID typeStr overwriteID
                                      (ow_Allow overwrite) (ow_Deny overwrite)) |},
                     s)
                end
            end
        end
  end.

(** [channelPermissionResource.Update]; only the plan is read. *)
Definition channelPermissionResource_Update {S : Type}
           (client : option (Session S)) (plan : channelPermissionResourceModel)
           (s : S) : Response channelPermissionResourceModel * S :=
  match client with
  | None => (fail_with "Discord Client Not Configured", s)
  | Some c =>
      let channelID := ValueString (perm_ChannelID plan) in
      let typeStr := ValueString (perm_Type plan) in
      let overwriteID := ValueString (perm_OverwriteID plan) in
      match overwriteType_of typeStr with
      | None => (fail_with "Invalid Type", s)
      | Some overwriteType =>
          let allow := int64_or_zero (perm_Allow plan) in
          let deny := int64_or_zero (perm_Deny plan) in
          let '(r, s) := Session_Channel c channelID s in
          match r with
          | inr _ => (fail_with "Error Fetching Channel", s)
          | inl channel =>
              let overwrite :=
                {| ow_ID := overwriteID; ow_Type := overwriteType;
                   ow_Allow := allow; ow_Deny := deny |} in
              let overwrites :=
                (other_overwrites overwriteID overwriteType
                   (ch_PermissionOverwrites channel) ++ [overwrite])%list in
              let '(r, s) :=
                Session_ChannelEditComplex c channelID
                  (permissions_edit overwrites) s in
              match r with
              | inr _ => (fail_with "Error Updating Channel Permission", s)
              | inl updatedChannel =>
                  let '(finalOverwrite, s) :=
                    final_overwrite c channelID overwriteID overwriteType
                      updatedChannel s in
                  match finalOverwrite with
                  | None =>
                      (* use the values we sent *)
                      ({| RespDiagnostics :=
                            [AddWarning "Permission Overwrite Not Found in Response"];
                          RespState :=
                            StateSet (permission_state channelID typeStr
                                        overwriteID allow deny) |}, s)
                  | Some fo =>
                      ({| RespDiagnostics := [];
                          RespState :=
                            StateSet (permission_state channelID typeStr
                                        overwriteID (ow_Allow fo) (ow_Deny fo)) |},
                       s)
                  end
              end
          end
      end
  end.

(** [channelPermissionResource.Delete] *)
Definition channelPermissionResource_Delete {S : Type}
           (client : option (Session S)) (data : channelPermissionResourceModel)
           (s : S) : Response channelPermissionResourceModel * S :=
  match client with
  | None => (fail_with "Discord Client Not Configured", s)
  | Some c =>
      let channelID := ValueString (perm_ChannelID data) in
      let typeStr := ValueString (perm_Type data) in
      let overwriteID := ValueString (perm_OverwriteID data) in
      let overwriteType :=
        match overwriteType_of typeStr with
        | Some t => t
        | None => (* Invalid type, but we'll try to delete anyway *)
            PermissionOverwriteTypeRole
        end in
      let '(r, s) := Session_Channel c channelID s in
      match r with
      | inr _ => (fail_with "Error Fetching Channel", s)
      | inl channel =>
          let overwrites :=
            other_overwrites overwriteID overwriteType
              (ch_PermissionOverwrites channel) in
          let '(r, s) :=
            Session_ChannelEditComplex c channelID (permissions_edit overwrites) s in
          match r with
          | inr _ => (fail_with "Error Deleting Channel Permission", s)
          | inl _ => ({| RespDiagnostics := []; RespState := StateUntouched |}, s)
          end
      end
  end.

(** [channelPermissionResource.ImportState], whole: the parse of the ID,
    then the lookup of the overwrite on the channel. *)
Definition channelPermissionResource_ImportState {S : Type}
           (client : option (Session S)) (importID : string)
           (s : S) : Response channelPermissionResourceModel * S :=
  match channelPermissionResource_ImportState_parse importID with
  | inl summary => (fail_with summary, s)
  | inr p =>
      match client with
      | None => (fail_with "Discord Client Not Configured", s)
      | Some c =>
          let '(r, s) := Session_Channel c (channelID p) s in
          match r with
          | inr _ => (fail_with "Error Fetching Channel", s)
          | inl channel =>
              match find_overwrite (overwriteID p) (overwriteType p)
                      (ch_PermissionOverwrites channel) with
              | None => (fail_with "Permission Overwrite Not Found", s)
              | Some overwrite =>
                  ({| RespDiagnostics := [];
                      RespState :=
                        StateSet (permission_state (channelID p) (typeStr p)
                                    (overwriteID p)
                                    (ow_Allow overwrite) (ow_Deny overwrite)) |},
                   s)
              end
          end
      end
  end.

(** ** The role-member resource ([resource_role_member.go]) *)

Record roleMemberResourceModel : Type := {
  rm_ID : tfString;
  rm_GuildID : tfString;
  rm_RoleID : tfString;
  rm_UserID : tfString
}.

(** [data.ID = types.StringValue(fmt.Sprintf("%s:%s:%s", guildID, roleID, userID))] *)
Definition with_composite_ID (data : roleMemberResourceModel)
           (guildID roleID userID : string) : roleMemberResourceModel :=
  {| rm_ID := StringValue (sprintf3 guildID roleID userID);
     rm_GuildID := rm_GuildID data;
     rm_RoleID := rm_RoleID data;
     rm_UserID := rm_UserID data |}.

(** [roleMemberResource.Create], from the decoded plan on. *)
Definition roleMemberResource_Create {S : Type}
           (client : option (Session S)) (data : roleMemberResourceModel)
           (s : S) : Response roleMemberResourceModel * S :=
  match client with
  | None => (fail_with "Discord Client Not Configured", s)
  | Some c =>
      let guildID := ValueString (rm_GuildID data) in
      if (guildID =? "")%string then (fail_with "Missing Guild ID", s)
      else
        let roleID := ValueString (rm_RoleID data) in
        if (roleID =? "")%string then (fail_with "Missing Role ID", s)
        else
          let userID := ValueString (rm_UserID data) in
          if (userID =? "")%string then (fail_with "Missing User ID", s)
          else
            (* Add the user to the role *)
            let '(err, s) := Session_GuildMemberRoleAdd c guildID userID roleID s in
            match err with
            | Some _ => (fail_with "Error Adding User to Role", s)
            | None =>
                ({| RespDiagnostics := [];
                    RespState :=
                      StateSet (with_composite_ID data guildID roleID userID) |}, s)
            end
  end.

(** [roleMemberResource.Read], from the decoded state on. *)
Definition roleMemberResource_Read {S : Type}
           (client : option (Session S)) (data : roleMemberResourceModel)
           (s : S) : Response roleMemberResourceModel * S :=
  match client with
  | None => (fail_with "Discord Client Not Configured", s)
  | Some c =>
      let guildID := ValueString (rm_GuildID data) in
      let roleID := ValueString (rm_RoleID data) in
      let userID := ValueString (rm_UserID data) in
      if (guildID =? "")%string || (roleID =? "")%string || (userID =? "")%string
      then (fail_with "Missing Required Fields", s)
      else
        (* Fetch the guild member to check if they have the role *)
        let '(r, s) := Session_GuildMember c guildID userID s in
        match r with
        | inr _ =>
            ({| RespDiagnostics := [AddWarning "Member Not Found"];
                RespState := StateRemoved |}, s)
        | inl member =>
            let hasRole := existsb (fun memberRoleID => (memberRoleID =? roleID)%string)
                                   (member_Roles member) in
            if negb hasRole then
              ({| RespDiagnostics := [AddWarning "Role Membership Not Found"];
                  RespState := StateRemoved |}, s)
            else
              ({| RespDiagnostics := [];
                  RespState :=
                    StateSet (with_composite_ID data guildID roleID userID) |}, s)
        end
  end.

(** [roleMemberResource.Update], from the decoded plan and state on. *)
Definition roleMemberResource_Update {S : Type}
           (client : option (Session S)) (plan state : roleMemberResourceModel)
           (s : S) : Response roleMemberResourceModel * S :=
  match client with
  | None => (fail_with "Discord Client Not Configured", s)
  | Some c =>
      let oldGuildID := ValueString (rm_GuildID state) in
      let oldRoleID := ValueString (rm_RoleID state) in
      let oldUserID := ValueString (rm_UserID state) in
      let newGuildID := ValueString (rm_GuildID plan) in
      let newRoleID := ValueString (rm_RoleID plan) in
      let newUserID := ValueString (rm_UserID plan) in
      let saved (warnings : list diag) (s : S) :=
        ({| RespDiagnostics := warnings;
            RespState :=
              StateSet (with_composite_ID plan newGuildID newRoleID newUserID) |}, s) in
      if negb (oldGuildID =? newGuildID)%string
         || negb (oldRoleID =? newRoleID)%string
         || negb (oldUserID =? newUserID)%string
      then
        (* Remove from old role *)
        let '(warnings, s) :=
          if negb (oldGuildID =? "")%string && negb (oldRoleID =? "")%string
             && negb (oldUserID =? "")%string
          then
            let '(err, s) :=
              Session_GuildMemberRoleRemove c oldGuildID oldUserID oldRoleID s in
            match err with
            | Some _ => ([AddWarning "Error Removing Old Role Membership"], s)
            | None => ([], s)
            end
          else ([], s) in
        (* Add to new role *)
        if negb (newGuildID =? "")%string && negb (newRoleID =? "")%string
           && negb (newUserID =? "")%string
        then
          let '(err, s) :=
            Session_GuildMemberRoleAdd c newGuildID newUserID newRoleID s in
          match err with
          | Some _ =>
              ({| RespDiagnostics :=
                    (warnings ++ [AddError "Error Adding User to New Role"])%list;
                  RespState := StateUntouched |}, s)
          | None => saved warnings s
          end
        else saved warnings s
      else saved [] s
  end.

(** [roleMemberResource.Delete] *)
Definition roleMemberResource_Delete {S : Type}
           (client : option (Session S)) (data : roleMemberResourceModel)
           (s : S) : Response roleMemberResourceModel * S :=
  match client with
  | None => (fail_with "Discord Client Not Configured", s)
  | Some c =>
      let guildID := ValueString (rm_GuildID data) in
      let roleID := ValueString (rm_RoleID data) in
      let userID := ValueString (rm_UserID data) in
      if (guildID =? "")%string || (roleID =? "")%string || (userID =? "")%string
      then (fail_with "Missing Required Fields", s)
      else
        let '(err, s) := Session_GuildMemberRoleRemove c guildID userID roleID s in
        match err with
        | Some _ => (fail_with "Error Removing User from Role", s)
        | None => ({| RespDiagnostics := []; RespState := StateUntouched |}, s)
        end
  end.

(** ** The role resource: the parse of its import ID

    [roleResource.ImportState] up to the fetch of the guild's roles: the
    diagnostic it stops with, or the guild and role IDs it goes on with.
    [clientConfigured] is [r.client != nil]. *)
Definition roleResource_ImportState_parse (clientConfigured : bool)
           (importID : string) : diagnostic + (string * string) :=
  if (importID =? "")%string then inl "Missing Import ID"
  else if negb clientConfigured then inl "Discord Client Not Configured"
  else
    (* Try to parse as guild_id:role_id format *)
    if (len importID >? 18) && (at_index importID 18 =? ":")%char then
      let guildID := slice_to 18 importID in
      let roleID := slice_from 19 importID in
      (* Prevent importing @everyone role *)
      if (roleID =? guildID)%string then inl "Cannot Import @everyone Role"
      else inr (guildID, roleID)
    else inl "Invalid Import ID Format".

(** ** Vocabulary of the further statements *)

(** An attribute counts as given when it is known and not empty. *)
Definition provided (v : tfString) : bool :=
  match v with
  | StringValue s => negb (s =? "")%string
  | _ => false
  end.

(** The response of a [Read] that saved the value [v]. *)
Definition saved_colour (data : colorDataSourceModel) (v : Z) : ReadResponse :=
  {| ReadDiagnostics := [];
     ReadState := Some {| Hex := Hex data; RGB := RGB data; Dec := Some v |} |}.

(** The list Create and Update send: the other overwrites, then the new one. *)
Definition replace_overwrite (ow : PermissionOverwrite)
           (existing : list PermissionOverwrite) : list PermissionOverwrite :=
  (other_overwrites (ow_ID ow) (ow_Type ow) existing ++ [ow])%list.

(** A small world for the examples: one channel with its overwrites and one
    member with their roles, whatever the IDs asked for. *)
Record world : Type := {
  world_overwrites : list PermissionOverwrite;
  world_roles : list string
}.

Definition world_channel (w : world) : Channel :=
  {| ch_ID := "100"; ch_Name := "general"; ch_Type := 0; ch_GuildID := "1";
     ch_Position := 0; ch_ParentID := "";
     ch_PermissionOverwrites := world_overwrites w |}.

Definition world_session : Session world :=
  {| Session_Channel := fun _ w => (inl (world_channel w), w);
     Session_ChannelEditComplex := fun _ edit w =>
       let w' :=
         match edit_PermissionOverwrites edit with
         | Some l => {| world_overwrites := l; world_roles := world_roles w |}
         | None => w
         end in
       (inl (world_channel w'), w');
     Session_GuildMember := fun _ _ w =>
       (inl {| member_Roles := world_roles w |}, w);
     Session_GuildMemberRoleAdd := fun _ _ roleID w =>
       (None, {| world_overwrites := world_overwrites w;
                 world_roles := roleID :: world_roles w |});
     Session_GuildMemberRoleRemove := fun _ _ roleID w =>
       (None, {| world_overwrites := world_overwrites w;
                 world_roles :=
                   filter (fun r => negb (r =? roleID)%string) (world_roles w) |}) |}.

(** A session that keeps a record of its edits: [c] itself, with every
    call of ChannelEditComplex (the channel ID and the edit passed) added,
    oldest first, to a list carried beside the state of [c]. *)
Definition recording {W : Type} (c : Session W)
  : Session (W * list (string * ChannelEdit)) :=
  {| Session_Channel := fun channelID s =>
       let '(r, w) := Session_Channel c channelID (fst s) in (r, (w, snd s));
     Session_ChannelEditComplex := fun channelID edit s =>
       let '(r, w) := Session_ChannelEditComplex c channelID edit (fst s) in
       (r, (w, (snd s ++ [(channelID, edit)])%list));
     Session_GuildMember := fun guildID userID s =>
       let '(r, w) := Session_GuildMember c guildID userID (fst s) in
       (r, (w, snd s));
     Session_GuildMemberRoleAdd := fun guildID userID roleID s =>
       let '(r, w) := Session_GuildMemberRoleAdd c guildID userID roleID (fst s) in
       (r, (w, snd s));
     Session_GuildMemberRoleRemove := fun guildID userID roleID s =>
       let '(r, w) := Session_GuildMemberRoleRemove c guildID userID roleID (fst s) in
       (r, (w, snd s)) |}.

(** The edits of a run that started with none recorded. *)
Definition edits_of {W M : Type}
           (run : Response M * (W * list (string * ChannelEdit)))
  : list (string * ChannelEdit) :=
  snd (snd run).

(** ** The channel resource *)

(** [types.String.Equal]: the same state (null, unknown, known) and, when
    known, the same value. *)
Definition tfString_Equal (a b : tfString) : bool :=
  match a, b with
  | StringNull, StringNull => true
  | StringUnknown, StringUnknown => true
  | StringValue x, StringValue y => (x =? y)%string
  | _, _ => false
  end.

(** [types.Int64.Equal] *)
Definition tfInt64_Equal (a b : tfInt64) : bool :=
  match a, b with
  | Int64Null, Int64Null => true
  | Int64Unknown, Int64Unknown => true
  | Int64Value x, Int64Value y => x =? y
  | _, _ => false
  end.

Record channelResourceModel : Type := {
  chan_ID : tfString;
  chan_Name : tfString;
  chan_Type : tfString;
  chan_GuildID : tfString;
  chan_CategoryID : tfString;
  chan_Position : tfInt64
}.

(** The fields of [discordgo.GuildChannelCreateData] that Create sets. *)
Record GuildChannelCreateData : Type := {
  create_Name : string;
  create_Type : Z;
  create_ParentID : string
}.

(** [channelResource.Create] up to the call of GuildChannelCreateComplex:
    the summary of the error it stops with, or the guild ID and the data
    it sends. *)
Definition channelResource_Create_request `{ChannelTypes}
           (clientConfigured : bool) (data : channelResourceModel)
  : diagnostic + (string * GuildChannelCreateData) :=
  if negb clientConfigured then inl "Discord Client Not Configured"
  else
    let guildID := ValueString (chan_GuildID data) in
    if (guildID =? "")%string then inl "Missing Guild ID"
    else
      let name := ValueString (chan_Name data) in
      if (name =? "")%string then inl "Missing Channel Name"
      else
        (* Determine channel type (default to text channel) *)
        let '(channelType, err) :=
          if negb (IsNull (chan_Type data)) && negb (IsUnknown (chan_Type data))
          then channelTypeFromString (ValueString (chan_Type data))
          else (ChannelTypeGuildText, None) in
        match err with
        | Some _ => inl "Invalid Channel Type"
        | None =>
            (* category channels cannot have a parent category *)
            if (channelType =? ChannelTypeGuildCategory)
               && (negb (IsNull (chan_CategoryID data))
                   && negb (IsUnknown (chan_CategoryID data)))
            then inl "Invalid Configuration"
            else if channelType =? ChannelTypeGuildNews
            then inl "Invalid Channel Type"
            else if channelType =? ChannelTypeGuildStageVoice
            then inl "Invalid Channel Type"
            else if channelType =? ChannelTypeGuildForum
            then inl "Invalid Channel Type"
            else
              let channelData :=
                {| create_Name := name; create_Type := channelType;
                   create_ParentID := "" |} in
              (* Set parent category if provided *)
              let channelData :=
                if negb (IsNull (chan_CategoryID data))
                   && negb (IsUnknown (chan_CategoryID data))
                then {| create_Name := create_Name channelData;
                        create_Type := create_Type channelData;
                        create_ParentID := ValueString (chan_CategoryID data) |}
                else channelData in
              inr (guildID, channelData)
        end.

(** [channelResource.Read], from the decoded state on.  [channel.Position]
    is a Go [int], 64 bits wide on the platforms the provider is built
    for, so that [int64(channel.Position)] is the number itself. *)
Definition channelResource_Read `{ChannelTypes} {S : Type}
           (client : option (Session S)) (data : channelResourceModel)
           (s : S) : Response channelResourceModel * S :=
  match client with
  | None => (fail_with "Discord Client Not Configured", s)
  | Some c =>
      let channelID := ValueString (chan_ID data) in
      if (channelID =? "")%string then (fail_with "Missing Channel ID", s)
      else
        (* Fetch the channel *)
        let '(r, s) := Session_Channel c channelID s in
        match r with
        | inr _ => (fail_with "Error Fetching Channel", s)
        | inl channel =>
            (* Store original state values to preserve nulls *)
            let originalPosition := chan_Position data in
            let originalCategoryID := chan_CategoryID data in
            ({| RespDiagnostics := [];
                RespState :=
                  StateSet
                    {| chan_ID := StringValue (ch_ID channel);
                       chan_Name := StringValue (ch_Name channel);
                       chan_Type := StringValue (channelTypeToString (ch_Type channel));
                       chan_GuildID := StringValue (ch_GuildID channel);
                       chan_CategoryID :=
                         if negb (IsNull originalCategoryID)
                            && negb (IsUnknown originalCategoryID)
                         then
                           if negb (ch_ParentID channel =? "")%string
                           then StringValue (ch_ParentID channel)
                           else StringNull
                         else StringNull;
                       chan_Position :=
                         if negb (IsNullInt64 originalPosition)
                            && negb (IsUnknownInt64 originalPosition)
                         then Int64Value (ch_Position channel)
                         else Int64Null |} |}, s)
        end
  end.

(** [channelResource.Update], from the decoded plan and state on.  The
    edit starts as the zero [discordgo.ChannelEdit]; [int(...)] of the
    planned position is the number itself on a 64-bit platform. *)
Definition channelResource_Update `{ChannelTypes} {S : Type}
           (client : option (Session S)) (plan state : channelResourceModel)
           (s : S) : Response channelResourceModel * S :=
  match client with
  | None => (fail_with "Discord Client Not Configured", s)
  | Some c =>
      let channelID := ValueString (chan_ID state) in
      if (channelID =? "")%string then (fail_with "Missing Channel ID", s)
      else
        (* Prepare channel edit data *)
        let edit := {| edit_Name := ""; edit_ParentID := ""; edit_Position := None;
                       edit_PermissionOverwrites := None |} in
        let hasChanges := false in
        (* Update name if changed *)
        let '(edit, hasChanges) :=
          if negb (tfString_Equal (chan_Name plan) (chan_Name state))
          then ({| edit_Name := ValueString (chan_Name plan);
                   edit_ParentID := edit_ParentID edit;
                   edit_Position := edit_Position edit;
                   edit_PermissionOverwrites := edit_PermissionOverwrites edit |},
                true)
          else (edit, hasChanges) in
        (* Update category if changed *)
        let '(edit, hasChanges) :=
          if negb (tfString_Equal (chan_CategoryID plan) (chan_CategoryID state))
          then ({| edit_Name := edit_Name edit;
                   edit_ParentID :=
                     if negb (IsNull (chan_CategoryID plan))
                        && negb (IsUnknown (chan_CategoryID plan))
                     then ValueString (chan_CategoryID plan)
                     else "";
                   edit_Position := edit_Position edit;
                   edit_PermissionOverwrites := edit_PermissionOverwrites edit |},
                true)
          else (edit, hasChanges) in
        (* Update position if changed *)
        let '(edit, hasChanges) :=
          if negb (tfInt64_Equal (chan_Position plan) (chan_Position state))
             && (negb (IsNullInt64 (chan_Position plan))
                 && negb (IsUnknownInt64 (chan_Position plan)))
          then ({| edit_Name := edit_Name edit;
                   edit_ParentID := edit_ParentID edit;
                   edit_Position := Some (ValueInt64 (chan_Position plan));
                   edit_PermissionOverwrites := edit_PermissionOverwrites edit |},
                true)
          else (edit, hasChanges) in
        (* Update type if changed *)
        let warnings :=
          if negb (tfString_Equal (chan_Type plan) (chan_Type state))
          then [AddWarning "Channel Type Change"]
          else [] in
        (* Apply updates if any *)
        if hasChanges then
          let '(r, s) := Session_ChannelEditComplex c channelID edit s in
          match r with
          | inr _ =>
              ({| RespDiagnostics :=
                    (warnings ++ [AddError "Error Updating Channel"])%list;
                  RespState := StateUntouched |}, s)
          | inl channel =>
              ({| RespDiagnostics := warnings;
                  RespState :=
                    StateSet
                      {| chan_ID := StringValue (ch_ID channel);
                         chan_Name := StringValue (ch_Name channel);
                         chan_Type :=
                           StringValue (channelTypeToString (ch_Type channel));
                         chan_GuildID := StringValue (ch_GuildID channel);
                         chan_CategoryID :=
                           if negb (ch_ParentID channel =? "")%string
                           then StringValue (ch_ParentID channel)
                           else StringNull;
                         chan_Position := Int64Value (ch_Position channel) |} |}, s)
          end
        else
          (* No changes, keep plan as is but ensure type is set correctly *)
          ({| RespDiagnostics := warnings;
              RespState :=
                StateSet
                  {| chan_ID := chan_ID state;
                     chan_Name := chan_Name plan;
                     chan_Type :=
                       if IsNull (chan_Type plan) || IsUnknown (chan_Type plan)
                       then chan_Type state
                       else chan_Type plan;
                     chan_GuildID := chan_GuildID state;
                     chan_CategoryID := chan_CategoryID plan;
                     chan_Position := chan_Position plan |} |}, s)
  end.

(** [channelResource.ImportState] *)
Definition channelResource_ImportState `{ChannelTypes} {S : Type}
           (client : option (Session S)) (importID : string)
           (s : S) : Response channelResourceModel * S :=
  (* The import ID is the channel ID *)
  let channelID := importID in
  match client with
  | None => (fail_with "Discord Client Not Configured", s)
  | Some c =>
      (* Fetch the channel to populate state *)
      let '(r, s) := Session_Channel c channelID s in
      match r with
      | inr _ => (fail_with "Error Fetching Channel", s)
      | inl channel =>
          ({| RespDiagnostics := [];
              RespState :=
                StateSet
                  {| chan_ID := StringValue (ch_ID channel);
                     chan_Name := StringValue (ch_Name channel);
                     chan_Type := StringValue (channelTypeToString (ch_Type channel));
                     chan_GuildID := StringValue (ch_GuildID channel);
                     chan_CategoryID :=
                       if negb (ch_ParentID channel =? "")%string
                       then StringValue (ch_ParentID channel)
                       else StringNull;
                     chan_Position := Int64Value (ch_Position channel) |} |}, s)
      end
  end.

(** ** The message resource *)

(** [types.Bool] *)
Inductive tfBool : Type :=
| BoolNull
| BoolUnknown
| BoolValue (b : bool).

Definition IsNullBool (v : tfBool) : bool :=
  match v with BoolNull => true | _ => false end.

Definition IsUnknownBool (v : tfBool) : bool :=
  match v with BoolUnknown => true | _ => false end.

(** [ValueBool]: false for a null or unknown value. *)
Definition ValueBool (v : tfBool) : bool :=
  match v with BoolValue b => b | _ => false end.

Record messageResourceModel : Type := {
  msg_ID : tfString;
  msg_ChannelID : tfString;
  msg_Content : tfString;
  msg_TTS : tfBool;
  msg_MessageID : tfString;
  msg_Timestamp : tfString;
  msg_EditedAt : tfString;
  msg_Author : tfString
}.

(** The fields of [discordgo.MessageSend] that Create sets. *)
Record MessageSend : Type := {
  send_Content : string;
  send_TTS : bool
}.

(** [messageResource.Create] up to the call of ChannelMessageSendComplex:
    the summary of the error it stops with, or the channel ID and the
    message it sends. *)
Definition messageResource_Create_request (clientConfigured : bool)
           (data : messageResourceModel) : diagnostic + (string * MessageSend) :=
  if negb clientConfigured then inl "Discord Client Not Configured"
  else
    let channelID := ValueString (msg_ChannelID data) in
    if (channelID =? "")%string then inl "Missing Channel ID"
    else
      (* Validate that at least content is provided *)
      let content :=
        if negb (IsNull (msg_Content data)) && negb (IsUnknown (msg_Content data))
        then ValueString (msg_Content data)
        else "" in
      if (content =? "")%string then inl "Missing Message Content"
      else
        (* Validate content length *)
        if (len content <? 1) || (len content >? 2000)
        then inl "Invalid Message Content"
        else
          (* Set TTS (default to false for API call) *)
          let tts :=
            if negb (IsNullBool (msg_TTS data)) && negb (IsUnknownBool (msg_TTS data))
            then ValueBool (msg_TTS data)
            else false in
          inr (channelID, {| send_Content := content; send_TTS := tts |}).

(** [messageResource.Read] up to the call of ChannelMessage: the summary
    of the error it stops with, or the channel and message IDs it asks
    for.  Update and Delete start with the same lines. *)
Definition messageResource_Read_request (clientConfigured : bool)
           (data : messageResourceModel) : diagnostic + (string * string) :=
  if negb clientConfigured then inl "Discord Client Not Configured"
  else
    let channelID := ValueString (msg_ChannelID data) in
    let messageID := ValueString (msg_MessageID data) in
    let messageID :=
      if (messageID =? "")%string then ValueString (msg_ID data) else messageID in
    if (channelID =? "")%string || (messageID =? "")%string
    then inl "Missing Channel or Message ID"
    else inr (channelID, messageID).

(** [messageResource.Update] up to the call of ChannelMessageEdit: the
    summary of the error it stops with, or the channel ID, the message ID
    and the content it sends. *)
Definition messageResource_Update_request (clientConfigured : bool)
           (plan state : messageResourceModel)
  : diagnostic + (string * string * string) :=
  if negb clientConfigured then inl "Discord Client Not Configured"
  else
    let channelID := ValueString (msg_ChannelID state) in
    let messageID := ValueString (msg_MessageID state) in
    let messageID :=
      if (messageID =? "")%string then ValueString (msg_ID state) else messageID in
    if (channelID =? "")%string || (messageID =? "")%string
    then inl "Missing Channel or Message ID"
    else
      (* Check if channel_id changed - this is not allowed *)
      if negb (ValueString (msg_ChannelID plan) =? ValueString (msg_ChannelID state))%string
      then inl "Cannot Change Channel"
      else
        (* Get new content from plan *)
        let newContent :=
          if negb (IsNull (msg_Content plan)) && negb (IsUnknown (msg_Content plan))
          then ValueString (msg_Content plan)
          else "" in
        (* Validate content length if provided *)
        if negb (newContent =? "")%string
           && ((len newContent <? 1) || (len newContent >? 2000))
        then inl "Invalid Message Content"
        else inr (channelID, messageID, newContent).

(** The state after a successful ImportState, decoded as Read decodes it:
    an attribute that the importer set is known, every other one is
    null. *)
Definition imported_attribute (name : string) (attrs : list (string * string))
  : tfString :=
  match find (fun kv => (fst kv =? name)%string) attrs with
  | Some kv => StringValue (snd kv)
  | None => StringNull
  end.

Definition imported_message (r : ImportStateResponse) : messageResourceModel :=
  {| msg_ID := imported_attribute "id" (State r);
     msg_ChannelID := imported_attribute "channel_id" (State r);
     msg_Content := imported_attribute "content" (State r);
     msg_TTS := BoolNull;
     msg_MessageID := imported_attribute "message_id" (State r);
     msg_Timestamp := imported_attribute "timestamp" (State r);
     msg_EditedAt := imported_attribute "edited_at" (State r);
     msg_Author := imported_attribute "author" (State r) |}.

(** ** The invite resource *)

Record inviteResourceModel : Type := {
  inv_ID : tfString;
  inv_Code : tfString;
  inv_ChannelID : tfString;
  inv_MaxAge : tfInt64;
  inv_MaxUses : tfInt64;
  inv_Temporary : tfBool;
  inv_Unique : tfBool;
  inv_URL : tfString;
  inv_CreatedAt : tfString;
  inv_ExpiresAt : tfString;
  inv_Uses : tfInt64
}.

(** The fields of [discordgo.Invite] that the handlers send.  [int(...)]
    of an int64 is the number itself on a 64-bit platform. *)
Record Invite : Type := {
  Invite_MaxAge : Z;
  Invite_MaxUses : Z;
  Invite_Temporary : bool;
  Invite_Unique : bool
}.

(** [inviteResource.Create] up to the call of ChannelInviteCreate: the
    summary of the error it stops with, or the channel ID and the invite
    it sends. *)
Definition inviteResource_Create_request (clientConfigured : bool)
           (data : inviteResourceModel) : diagnostic + (string * Invite) :=
  if negb clientConfigured then inl "Discord Client Not Configured"
  else
    let channelID := ValueString (inv_ChannelID data) in
    if (channelID =? "")%string then inl "Missing Channel ID"
    else
      (* Set max_age (default to 86400 seconds = 24 hours if not specified) *)
      let maxAge := 86400 in
      let maxAge :=
        if negb (IsNullInt64 (inv_MaxAge data)) && negb (IsUnknownInt64 (inv_MaxAge data))
        then ValueInt64 (inv_MaxAge data)
        else maxAge in
      if negb (IsNullInt64 (inv_MaxAge data)) && negb (IsUnknownInt64 (inv_MaxAge data))
         && ((maxAge <? 0) || (maxAge >? 604800))
      then inl "Invalid Max Age"
      else
        (* Set max_uses (default to 0 = unlimited if not specified) *)
        let maxUses := 0 in
        let maxUses :=
          if negb (IsNullInt64 (inv_MaxUses data))
             && negb (IsUnknownInt64 (inv_MaxUses data))
          then ValueInt64 (inv_MaxUses data)
          else maxUses in
        if negb (IsNullInt64 (inv_MaxUses data))
           && negb (IsUnknownInt64 (inv_MaxUses data))
           && ((maxUses <? 0) || (maxUses >? 100))
        then inl "Invalid Max Uses"
        else
          (* Set temporary (default to false if not specified) *)
          let temporary :=
            if negb (IsNullBool (inv_Temporary data))
               && negb (IsUnknownBool (inv_Temporary data))
            then ValueBool (inv_Temporary data)
            else false in
          (* Set unique (default to false if not specified) *)
          let unique :=
            if negb (IsNullBool (inv_Unique data))
               && negb (IsUnknownBool (inv_Unique data))
            then ValueBool (inv_Unique data)
            else false in
          inr (channelID,
               {| Invite_MaxAge := maxAge; Invite_MaxUses := maxUses;
                  Invite_Temporary := temporary; Invite_Unique := unique |}).

(** [inviteResource.Update] up to its calls: the summary of the error it
    stops with, or the code of the old invite and, when the invite has to
    be recreated, the channel ID and the invite sent to
    ChannelInviteCreate after the old one is deleted ([None]: the invite
    is only read again). *)
Definition inviteResource_Update_request (clientConfigured : bool)
           (plan state : inviteResourceModel)
  : diagnostic + (string * option (string * Invite)) :=
  if negb clientConfigured then inl "Discord Client Not Configured"
  else
    (* Check if channel_id changed - this is not allowed *)
    if negb (ValueString (inv_ChannelID plan) =? ValueString (inv_ChannelID state))%string
    then inl "Cannot Change Channel"
    else
      (* Get the old invite code *)
      let code := ValueString (inv_Code state) in
      let code := if (code =? "")%string then ValueString (inv_ID state) else code in
      if (code =? "")%string then inl "Missing Invite Code"
      else
        (* Check if any immutable fields changed *)
        let oldMaxAge := ValueInt64 (inv_MaxAge state) in
        let newMaxAge :=
          if negb (IsNullInt64 (inv_MaxAge plan)) && negb (IsUnknownInt64 (inv_MaxAge plan))
          then ValueInt64 (inv_MaxAge plan)
          else oldMaxAge in
        let oldMaxUses := ValueInt64 (inv_MaxUses state) in
        let newMaxUses :=
          if negb (IsNullInt64 (inv_MaxUses plan))
             && negb (IsUnknownInt64 (inv_MaxUses plan))
          then ValueInt64 (inv_MaxUses plan)
          else oldMaxUses in
        let oldTemporary := ValueBool (inv_Temporary state) in
        let newTemporary :=
          if negb (IsNullBool (inv_Temporary plan))
             && negb (IsUnknownBool (inv_Temporary plan))
          then ValueBool (inv_Temporary plan)
          else oldTemporary in
        let oldUnique := ValueBool (inv_Unique state) in
        let newUnique :=
          if negb (IsNullBool (inv_Unique plan)) && negb (IsUnknownBool (inv_Unique plan))
          then ValueBool (inv_Unique plan)
          else oldUnique in
        let needsRecreate :=
          negb (newMaxAge =? oldMaxAge) || negb (newMaxUses =? oldMaxUses)
          || negb (Bool.eqb newTemporary oldTemporary)
          || negb (Bool.eqb newUnique oldUnique) in
        if needsRecreate then
          (* Create new invite with new settings *)
          let channelID := ValueString (inv_ChannelID plan) in
          let maxAge :=
            if negb (IsNullInt64 (inv_MaxAge plan))
               && negb (IsUnknownInt64 (inv_MaxAge plan))
            then ValueInt64 (inv_MaxAge plan)
            else 86400 in
          let maxUses :=
            if negb (IsNullInt64 (inv_MaxUses plan))
               && negb (IsUnknownInt64 (inv_MaxUses plan))
            then ValueInt64 (inv_MaxUses plan)
            else 0 in
          let temporary :=
            if negb (IsNullBool (inv_Temporary plan))
               && negb (IsUnknownBool (inv_Temporary plan))
            then ValueBool (inv_Temporary plan)
            else false in
          let unique :=
            if negb (IsNullBool (inv_Unique plan))
               && negb (IsUnknownBool (inv_Unique plan))
            then ValueBool (inv_Unique plan)
            else false in
          inr (code, Some (channelID,
                           {| Invite_MaxAge := maxAge; Invite_MaxUses := maxUses;
                              Invite_Temporary := temporary;
                              Invite_Unique := unique |}))
        else inr (code, None).

(* ================================================================= *)
(** * Part II: properties *)
(* ================================================================= *)

(** ** The unit tests of the repository, on the model

    [TestHexToDecimal] and [TestRgbToDecimal] of
    [data_source_color_test.go]; a test that expects an error checks only
    that there is one. *)

Example TestHexToDecimal :
  hexToDecimal "#4287f5" = (4360181, None) /\
  hexToDecimal "4287f5" = (4360181, None) /\
  hexToDecimal "#f5a" = (0xff55aa, None) /\
  hexToDecimal "f5a" = (0xff55aa, None) /\
  hexToDecimal "#000000" = (0, None) /\
  hexToDecimal "#FFFFFF" = (16777215, None) /\
  snd (hexToDecimal "#GGGGGG") <> None /\
  snd (hexToDecimal "#12345") <> None.
Proof. repeat split; try reflexivity; discriminate. Qed.

Example TestRgbToDecimal :
  rgbToDecimal "rgb(46, 204, 113)" = (46 * 65536 + 204 * 256 + 113, None) /\
  rgbToDecimal "rgb(46,204,113)" = (46 * 65536 + 204 * 256 + 113, None) /\
  rgbToDecimal "rgb(255, 0, 0)" = (16711680, None) /\
  rgbToDecimal "rgb(0, 255, 0)" = (65280, None) /\
  rgbToDecimal "rgb(0, 0, 255)" = (255, None) /\
  snd (rgbToDecimal "46, 204, 113") <> None /\
  snd (rgbToDecimal "rgb(256, 0, 0)") <> None /\
  snd (rgbToDecimal "rgb(-1, 0, 0)") <> None.
Proof. repeat split; try reflexivity; discriminate. Qed.

(** ** Bytes *)

Ltac each_byte c :=
  destruct c as [[] [] [] [] [] [] [] []]; try discriminate; try reflexivity.

Lemma hex_digit_digit_of (c : ascii) :
  hex_digit c = true ->
  digit_of c = Some (hex_digit_value c) /\ 0 <= hex_digit_value c < 16.
Proof.
  each_byte c; intros _; (split; [reflexivity | vm_compute; split; [discriminate | reflexivity]]).
Qed.

Lemma decimal_digit_digit_of (c : ascii) :
  digit c = true ->
  digit_of c = Some (decimal_digit_value c) /\ 0 <= decimal_digit_value c < 10.
Proof.
  each_byte c; intros _; (split; [reflexivity | vm_compute; split; [discriminate | reflexivity]]).
Qed.

Lemma upper_byte_hex (c : ascii) :
  hex_digit c = true ->
  hex_upper (upper_byte c) = true /\
  hex_digit_value (upper_byte c) = hex_digit_value c.
Proof. each_byte c; intros _; split; reflexivity. Qed.

Lemma hex_upper_hex_digit (c : ascii) :
  hex_upper c = true -> hex_digit c = true /\ upper_byte c = c.
Proof. each_byte c; intros _; split; reflexivity. Qed.

Lemma hex_upper_upper_byte (c : ascii) :
  hex_upper (upper_byte c) = hex_digit c.
Proof. each_byte c. Qed.

Lemma space_not_digit (c : ascii) : space c = true -> digit c = false.
Proof. each_byte c. Qed.

Lemma digit_not_space (c : ascii) : digit c = true -> space c = false.
Proof. each_byte c. Qed.

Lemma digit_not_sign (c : ascii) :
  digit c = true -> (c =? "+")%char = false /\ (c =? "-")%char = false.
Proof. each_byte c; intros _; split; reflexivity. Qed.

(** ** Strings *)

Lemma append_empty_r (s : string) : s ++ "" = s.
Proof. induction s as [|c s IH]; simpl; [reflexivity | now rewrite IH]. Qed.

Lemma append_assoc_string (a b c : string) : (a ++ b) ++ c = a ++ b ++ c.
Proof. induction a as [|x a IH]; simpl; [reflexivity | now rewrite IH]. Qed.

Lemma length_append_string (a b : string) :
  String.length (a ++ b) = (String.length a + String.length b)%nat.
Proof. induction a as [|x a IH]; simpl; [reflexivity | now rewrite IH]. Qed.

Lemma slice_to_append (a b : string) : slice_to (String.length a) (a ++ b) = a.
Proof.
  induction a as [|x a IH]; simpl.
  - now destruct b.
  - now rewrite IH.
Qed.

Lemma count_colons_append (a b : string) :
  count_colons (a ++ b) = (count_colons a + count_colons b)%nat.
Proof.
  induction a as [|x a IH]; simpl; [reflexivity |].
  destruct (x =? ":")%char; simpl; now rewrite IH.
Qed.

Lemma eqb_empty_append (a : string) (c : ascii) (b : string) :
  (a ++ String c b =? "")%string = false.
Proof. now destruct a. Qed.

(** ** [strconv.ParseInt] on a run of digits *)

Section Digits.

Variable base : Z.
Variable p : ascii -> bool.
Variable dv : ascii -> Z.

Hypothesis base_range : 2 <= base <= 36.
Hypothesis digits :
  forall c, p c = true -> digit_of c = Some (dv c) /\ 0 <= dv c < base.
Hypothesis unsigned :
  forall c, p c = true -> (c =? "+")%char = false /\ (c =? "-")%char = false.

Lemma value_from_ge (s : string) :
  forall n, all p s = true -> 0 <= n -> n <= value_from dv base n s.
Proof.
  induction s as [|c s IH]; simpl; intros n Hall Hn; [lia |].
  apply andb_prop in Hall as [Hc Hs].
  destruct (digits c Hc) as [_ Hd].
  specialize (IH (n * base + dv c) Hs). nia.
Qed.

Lemma value_from_bound (s : string) :
  forall n, all p s = true -> 0 <= n ->
  value_from dv base n s < (n + 1) * base ^ Z.of_nat (String.length s).
Proof.
  induction s as [|c s IH]; intros n Hall Hn.
  - simpl. lia.
  - cbn [value_from String.length]. cbn [all] in Hall.
    apply andb_prop in Hall as [Hc Hs].
    destruct (digits c Hc) as [_ Hd].
    assert (H0 : 0 <= n * base + dv c) by nia.
    specialize (IH (n * base + dv c) Hs H0).
    rewrite Nat2Z.inj_succ, Z.pow_succ_r by lia.
    assert (Hp : 0 < base ^ Z.of_nat (String.length s))
      by (apply Z.pow_pos_nonneg; lia).
    nia.
Qed.

Lemma cutoff_spec (n : Z) :
  0 <= n ->
  (n >=? maxUint64 / base + 1) = true /\ maxUint64 < n * base \/
  (n >=? maxUint64 / base + 1) = false /\ n * base <= maxUint64.
Proof.
  intros Hn.
  assert (Hb : 0 < base) by lia.
  pose proof (Z.mul_div_le maxUint64 base Hb) as Hle.
  pose proof (Z.mul_succ_div_gt maxUint64 base Hb) as Hgt.
  destruct (n >=? maxUint64 / base + 1) eqn:E.
  - left. split; [reflexivity |].
    apply Z.geb_le in E. nia.
  - right. split; [reflexivity |].
    rewrite Z.geb_leb in E. apply Z.leb_gt in E. nia.
Qed.

Lemma ParseUint_loop_value (s : string) :
  forall n, all p s = true -> 0 <= n <= maxUint64 ->
  ParseUint_loop base s n =
    if value_from dv base n s <=? maxUint64
    then (value_from dv base n s, None)
    else (maxUint64, Some ErrRange).
Proof.
  induction s as [|c s IH]; intros n Hall Hn.
  - simpl. destruct (Z.leb_spec n maxUint64); [reflexivity | lia].
  - cbn [ParseUint_loop value_from]. cbn [all] in Hall.
    apply andb_prop in Hall as [Hc Hs].
    destruct (digits c Hc) as [-> Hd].
    replace (dv c >=? base) with false
      by (symmetry; rewrite Z.geb_leb; apply Z.leb_gt; lia).
    assert (Hmax : maxUint64 = 18446744073709551615) by reflexivity.
    destruct (cutoff_spec n (proj1 Hn)) as [[-> Hbig] | [-> Hsmall]].
    + pose proof (value_from_ge s (n * base + dv c) Hs ltac:(nia)).
      destruct (Z.leb_spec (value_from dv base (n * base + dv c) s) maxUint64);
        [lia | reflexivity].
    + change (2 ^ 64) with 18446744073709551616.
      destruct (Z.le_gt_cases (n * base + dv c) maxUint64) as [Hfit | Hover].
      * rewrite Z.mod_small by nia.
        replace (n * base + dv c <? n * base) with false
          by (symmetry; apply Z.ltb_ge; lia).
        replace (n * base + dv c >? maxUint64) with false
          by (symmetry; rewrite Z.gtb_ltb; apply Z.ltb_ge; lia).
        simpl. apply IH; [assumption | nia].
      * assert (Hmod : (n * base + dv c) mod 18446744073709551616
                       = n * base + dv c - 18446744073709551616).
        { symmetry. apply Z.mod_unique with (q := 1); lia. }
        rewrite Hmod.
        replace (n * base + dv c - 18446744073709551616 <? n * base) with true
          by (symmetry; apply Z.ltb_lt; lia).
        simpl.
        pose proof (value_from_ge s (n * base + dv c) Hs ltac:(nia)).
        destruct (Z.leb_spec (value_from dv base (n * base + dv c) s) maxUint64);
          [lia | reflexivity].
Qed.

Lemma ParseInt_value (s : string) :
  s <> "" -> all p s = true ->
  strconv_ParseInt s base =
    if value_from dv base 0 s <? 2 ^ 63
    then (value_from dv base 0 s, None)
    else (2 ^ 63 - 1, Some ErrRange).
Proof.
  intros Hne Hall.
  destruct s as [|c s]; [congruence |].
  pose proof Hall as Hall'. cbn [all] in Hall'.
  apply andb_prop in Hall' as [Hc _].
  destruct (unsigned c Hc) as [Hplus Hminus].
  unfold strconv_ParseInt. rewrite Hplus, Hminus.
  unfold strconv_ParseUint.
  rewrite ParseUint_loop_value by (try assumption; unfold maxUint64; simpl; lia).
  pose proof (value_from_ge (String c s) 0 Hall ltac:(lia)) as Hpos.
  set (v := value_from dv base 0 (String c s)) in *.
  assert (Hmax : maxUint64 = 18446744073709551615) by reflexivity.
  change (2 ^ 63) with 9223372036854775808.
  destruct (Z.leb_spec v maxUint64) as [Hfit | Hover].
  - cbn [negb andb].
    destruct (Z.ltb_spec v 9223372036854775808).
    + replace (v >=? 9223372036854775808) with false
        by (symmetry; rewrite Z.geb_leb; apply Z.leb_gt; lia).
      reflexivity.
    + replace (v >=? 9223372036854775808) with true
        by (symmetry; rewrite Z.geb_leb; apply Z.leb_le; lia).
      reflexivity.
  - cbn [negb andb].
    destruct (Z.ltb_spec v 9223372036854775808); [lia |].
    rewrite Hmax. reflexivity.
Qed.

End Digits.

Lemma all_hex_upper_hex_digit (s : string) :
  all hex_upper s = true -> all hex_digit s = true.
Proof.
  induction s as [|c s IH]; simpl; [reflexivity |].
  intros H. apply andb_prop in H as [Hc Hs].
  destruct (hex_upper_hex_digit c Hc) as [-> _]. now apply IH.
Qed.

Lemma hex_digit_unsigned (c : ascii) :
  hex_digit c = true -> (c =? "+")%char = false /\ (c =? "-")%char = false.
Proof. each_byte c; intros _; split; reflexivity. Qed.

(** A run of hexadecimal digits short enough for an [int64] parses to its
    base-16 value. *)
Lemma ParseInt_hex (s : string) :
  s <> "" -> all hex_digit s = true -> (String.length s <= 15)%nat ->
  strconv_ParseInt s 16 = (base16 s, None) /\
  0 <= base16 s < 16 ^ Z.of_nat (String.length s).
Proof.
  intros Hne Hall Hlen.
  assert (Hb : 2 <= 16 <= 36) by lia.
  pose proof (value_from_bound 16 hex_digit hex_digit_value Hb
                hex_digit_digit_of s 0 Hall ltac:(lia)) as Hlt.
  pose proof (value_from_ge 16 hex_digit hex_digit_value Hb
                hex_digit_digit_of s 0 Hall ltac:(lia)) as Hge.
  fold (base16 s) in Hlt, Hge.
  assert (Hpow : 16 ^ Z.of_nat (String.length s) <= 16 ^ 15)
    by (apply Z.pow_le_mono_r; lia).
  rewrite (ParseInt_value 16 hex_digit hex_digit_value Hb hex_digit_digit_of
             hex_digit_unsigned s Hne Hall).
  fold (base16 s).
  change (16 ^ 15) with 1152921504606846976 in Hpow.
  change (2 ^ 63) with 9223372036854775808.
  destruct (Z.ltb_spec (base16 s) 9223372036854775808); [| lia].
  split; [reflexivity | lia].
Qed.

(** A run of decimal digits parses to its base-10 value when that fits an
    [int64], and is a range error of [strconv] otherwise. *)
Lemma ParseInt_decimal (s : string) :
  number s ->
  strconv_ParseInt s 10 =
    (if base10 s <? 2 ^ 63 then (base10 s, None) else (2 ^ 63 - 1, Some ErrRange))
  /\ 0 <= base10 s.
Proof.
  intros [Hne Hall].
  assert (Hb : 2 <= 10 <= 36) by lia.
  split.
  - apply (ParseInt_value 10 digit decimal_digit_value Hb decimal_digit_digit_of
             digit_not_sign s Hne Hall).
  - apply (value_from_ge 10 digit decimal_digit_value Hb
             decimal_digit_digit_of s 0 Hall). lia.
Qed.

(** ** The matcher *)

Lemma star_at_end (p : ascii -> bool) (s : string) (caps : captures) :
  star p at_end s caps = if all p s then Some caps else None.
Proof.
  induction s as [|c s IH]; simpl; [reflexivity |].
  destruct (p c); simpl; [| reflexivity].
  rewrite IH. now destruct (all p s).
Qed.

Lemma MatchString_hexRegex (s : string) :
  regexp_MatchString hexRegex s = (hex_format s, None).
Proof.
  unfold regexp_MatchString, hexRegex, hex_format. f_equal.
  destruct s as [|c s]; simpl; [reflexivity |].
  destruct (hex_upper c); simpl; [| reflexivity].
  rewrite star_at_end. now destruct (all hex_upper s).
Qed.

(** The greedy run takes the whole of [w] when what follows cannot extend
    it and the rest of the pattern matches from there. *)
Lemma star_run (p : ascii -> bool) (k : cont) (w rest : string)
      (caps m : captures) :
  all p w = true -> stops p rest = true -> k rest caps = Some m ->
  star p k (w ++ rest) caps = Some m.
Proof.
  intros Hw Hstop Hk.
  induction w as [|c w IH]; simpl.
  - destruct rest as [|y rest]; simpl; [exact Hk |].
    simpl in Hstop. destruct (p y); [discriminate | exact Hk].
  - simpl in Hw. apply andb_prop in Hw as [-> Hw].
    now rewrite (IH Hw).
Qed.

Lemma run_lit (c : ascii) (s : string) (caps : captures) (k : cont) :
  run (Lit c) (String c s) caps k = k s caps.
Proof. simpl. now rewrite Ascii.eqb_refl. Qed.

Lemma run_star (p : ascii -> bool) (k : cont) (w rest : string)
      (caps m : captures) :
  all p w = true -> stops p rest = true -> k rest caps = Some m ->
  run (Star p) (w ++ rest) caps k = Some m.
Proof. apply star_run. Qed.

Lemma run_group_plus (p : ascii -> bool) (k : cont) (w rest : string)
      (caps m : captures) :
  w <> "" -> all p w = true -> stops p rest = true ->
  k rest (caps ++ [w])%list = Some m ->
  run (Group (Plus p)) (w ++ rest) caps k = Some m.
Proof.
  intros Hne Hw Hstop Hk.
  destruct w as [|c w]; [congruence |].
  simpl in Hw. apply andb_prop in Hw as [Hc Hw].
  cbn [run]. cbn [append]. rewrite Hc.
  apply star_run; try assumption.
  replace (String.length (String c (w ++ rest)) - String.length rest)%nat
    with (String.length (String c w))
    by (cbn [String.length]; rewrite length_append_string; lia).
  change (String c (w ++ rest)) with (String c w ++ rest).
  now rewrite slice_to_append.
Qed.

(** Whatever the matcher accepts splits into a part in the language of the
    pattern and a rest the continuation accepts. *)
Lemma star_sound (p : ascii -> bool) (k : cont) (s : string)
      (caps m : captures) :
  star p k s caps = Some m ->
  exists s1 s2, s = s1 ++ s2 /\ all p s1 = true /\ k s2 caps = Some m.
Proof.
  induction s as [|c s IH]; simpl; intros H.
  - exists "", "". now repeat split.
  - destruct (p c) eqn:Hc.
    + destruct (star p k s caps) eqn:Hs.
      * destruct (IH H) as (s1 & s2 & -> & H1 & H2).
        exists (String c s1), s2. simpl. rewrite Hc, H1. now repeat split.
      * exists "", (String c s). now repeat split.
    + exists "", (String c s). now repeat split.
Qed.

Lemma run_sound (r : regex) :
  forall (s : string) (caps m : captures) (k : cont),
  run r s caps k = Some m ->
  exists s1 s2 caps', s = s1 ++ s2 /\ lang r s1 /\ k s2 caps' = Some m.
Proof.
  induction r as [c | p | p | r1 IH1 r2 IH2 | r0 IH0]; intros s caps m k H;
    cbn [run] in H.
  - destruct s as [|x s]; [discriminate |].
    destruct (Ascii.eqb_spec x c) as [-> |]; [| discriminate].
    exists (String c ""), s, caps. now repeat split.
  - destruct (star_sound _ _ _ _ _ H) as (s1 & s2 & -> & H1 & H2).
    exists s1, s2, caps. now repeat split.
  - destruct s as [|x s]; [discriminate |].
    destruct (p x) eqn:Hx; [| discriminate].
    destruct (star_sound _ _ _ _ _ H) as (s1 & s2 & -> & H1 & H2).
    exists (String x s1), s2, caps. simpl. rewrite Hx, H1.
    repeat split; [discriminate | assumption].
  - destruct (IH1 _ _ _ _ H) as (s1 & s2 & c1 & -> & L1 & H1).
    destruct (IH2 _ _ _ _ H1) as (s3 & s4 & c2 & -> & L2 & H2).
    exists (s1 ++ s3), s4, c2. rewrite append_assoc_string.
    repeat split; [| assumption]. simpl. now exists s1, s3.
  - destruct (IH0 _ _ _ _ H) as (s1 & s2 & c1 & -> & L1 & H1).
    exists s1, s2, (c1 ++ [slice_to (String.length (s1 ++ s2) - String.length s2)
                            (s1 ++ s2)])%list.
    now repeat split.
Qed.

(** ** [hexToDecimal] *)

Lemma len_eqb (s : string) (n : nat) :
  (len s =? Z.of_nat n) = (String.length s =? n)%nat.
Proof.
  unfold len.
  destruct (Nat.eqb_spec (String.length s) n) as [-> | Hne].
  - apply Z.eqb_refl.
  - apply Z.eqb_neq. lia.
Qed.

Lemma all_duplicate (p : ascii -> bool) (s : string) :
  all p (duplicate s) = all p s.
Proof.
  induction s as [|c s IH]; simpl; [reflexivity |].
  rewrite IH. now destruct (p c).
Qed.

Lemma length_duplicate (s : string) :
  String.length (duplicate s) = (2 * String.length s)%nat.
Proof. induction s as [|c s IH]; simpl; [reflexivity | rewrite IH; lia]. Qed.

(** [hexToDecimal] by cases on the normalised input: the format test, the
    short form, the long form, and the length error. *)
Lemma hexToDecimal_cases (hex : string) :
  hexToDecimal hex =
    if negb (hex_format (normalize hex)) then (0, Some ErrInvalidHexFormat)
    else if (String.length (normalize hex) =? 3)%nat
         then (base16 (duplicate (normalize hex)), None)
    else if (String.length (normalize hex) =? 6)%nat
         then (base16 (normalize hex), None)
    else (0, Some ErrInvalidHexLength).
Proof.
  unfold hexToDecimal. fold (normalize hex).
  generalize (normalize hex) as u. intros u.
  rewrite MatchString_hexRegex.
  destruct (hex_format u) eqn:Hfmt; cbn [negb]; [| reflexivity].
  unfold hex_format in Hfmt. apply andb_prop in Hfmt as [Hne Hall].
  apply all_hex_upper_hex_digit in Hall.
  change 3 with (Z.of_nat 3). change 6 with (Z.of_nat 6).
  rewrite (len_eqb u 3).
  destruct (Nat.eqb_spec (String.length u) 3) as [H3 | H3].
  - destruct u as [|a [|b [|c [|d u]]]]; try discriminate H3.
    change (string_of_byte (at_index (String a (String b (String c ""))) 0) ++
            string_of_byte (at_index (String a (String b (String c ""))) 0) ++
            string_of_byte (at_index (String a (String b (String c ""))) 1) ++
            string_of_byte (at_index (String a (String b (String c ""))) 1) ++
            string_of_byte (at_index (String a (String b (String c ""))) 2) ++
            string_of_byte (at_index (String a (String b (String c ""))) 2))
      with (duplicate (String a (String b (String c "")))).
    set (u := String a (String b (String c ""))) in *.
    assert (Hd : all hex_digit (duplicate u) = true)
      by now rewrite all_duplicate.
    destruct (ParseInt_hex (duplicate u)) as [-> _];
      [discriminate | assumption | simpl; lia | reflexivity].
  - rewrite (len_eqb u 6).
    destruct (Nat.eqb_spec (String.length u) 6) as [H6 | H6]; cbn [negb];
      [| reflexivity].
    destruct (ParseInt_hex u) as [-> _]; try assumption; try lia; try reflexivity.
    intros ->. discriminate.
Qed.

Lemma base16_six (s : string) :
  all hex_digit s = true -> String.length s = 6%nat ->
  0 <= base16 s <= 16777215.
Proof.
  intros Hall Hlen.
  destruct (ParseInt_hex s) as [_ H]; try assumption; try lia.
  - intros ->. discriminate.
  - rewrite Hlen in H. change (16 ^ Z.of_nat 6) with 16777216 in H. lia.
Qed.

(** A successful [hexToDecimal] returns a 24-bit value. *)
Lemma hexToDecimal_range (hex : string) (v : Z) :
  hexToDecimal hex = (v, None) -> 0 <= v <= 16777215.
Proof.
  rewrite hexToDecimal_cases.
  destruct (hex_format (normalize hex)) eqn:Hfmt; cbn [negb]; [| discriminate].
  unfold hex_format in Hfmt. apply andb_prop in Hfmt as [_ Hall].
  apply all_hex_upper_hex_digit in Hall.
  destruct (Nat.eqb_spec (String.length (normalize hex)) 3) as [H3 | H3].
  - intros [= <-]. apply base16_six.
    + now rewrite all_duplicate.
    + rewrite length_duplicate, H3. reflexivity.
  - destruct (Nat.eqb_spec (String.length (normalize hex)) 6) as [H6 | H6];
      [| discriminate].
    intros [= <-]. now apply base16_six.
Qed.

(** Normalising a string of hexadecimal digits, with or without the
    leading [#]. *)
Lemma all_ToUpper_hex (s : string) :
  all hex_upper (strings_ToUpper s) = all hex_digit s.
Proof.
  induction s as [|c s IH]; simpl; [reflexivity |].
  now rewrite IH, hex_upper_upper_byte.
Qed.

Lemma length_ToUpper (s : string) :
  String.length (strings_ToUpper s) = String.length s.
Proof. induction s as [|c s IH]; simpl; [reflexivity | now rewrite IH]. Qed.

Lemma ToUpper_duplicate (s : string) :
  strings_ToUpper (duplicate s) = duplicate (strings_ToUpper s).
Proof. induction s as [|c s IH]; simpl; [reflexivity | now rewrite IH]. Qed.

Lemma value_from_ToUpper (s : string) :
  forall n, all hex_digit s = true ->
  value_from hex_digit_value 16 n (strings_ToUpper s)
  = value_from hex_digit_value 16 n s.
Proof.
  induction s as [|c s IH]; simpl; intros n H; [reflexivity |].
  apply andb_prop in H as [Hc Hs].
  destruct (upper_byte_hex c Hc) as [_ ->]. now apply IH.
Qed.

Lemma base16_ToUpper (s : string) :
  all hex_digit s = true -> base16 (strings_ToUpper s) = base16 s.
Proof. apply value_from_ToUpper. Qed.

Lemma TrimPrefix_digits (s : string) :
  all hex_digit s = true -> strings_TrimPrefix s "#" = s.
Proof.
  destruct s as [|c s]; [reflexivity |].
  cbn [all]. intros H. apply andb_prop in H as [Hc _].
  unfold strings_TrimPrefix. cbn [strip_prefix].
  destruct (Ascii.eqb_spec "#" c) as [<- |]; [discriminate | reflexivity].
Qed.

Lemma upper_byte_idempotent (c : ascii) : upper_byte (upper_byte c) = upper_byte c.
Proof. each_byte c. Qed.

Lemma ToUpper_idempotent (s : string) :
  strings_ToUpper (strings_ToUpper s) = strings_ToUpper s.
Proof.
  induction s as [|c s IH]; simpl; [reflexivity |].
  now rewrite IH, upper_byte_idempotent.
Qed.

Lemma ToUpper_empty (s : string) :
  (strings_ToUpper s =? "")%string = (s =? "")%string.
Proof. now destruct s. Qed.

(** ** [rgbRegex] *)

Lemma run_cat (r1 r2 : regex) (s : string) (caps : captures) (k : cont) :
  run (Cat r1 r2) s caps k = run r1 s caps (fun s' caps' => run r2 s' caps' k).
Proof. reflexivity. Qed.

Lemma stops_space_number (R rest : string) :
  number R -> stops space (R ++ rest) = true.
Proof.
  intros [Hne Hall]. destruct R as [|c R]; [congruence |].
  simpl in Hall. apply andb_prop in Hall as [Hc _].
  simpl. now rewrite (digit_not_space c Hc).
Qed.

Lemma stops_digit_spaces (w : string) (c : ascii) (rest : string) :
  all space w = true -> digit c = false ->
  stops digit (w ++ String c rest) = true.
Proof.
  intros Hw Hc. destruct w as [|x w]; simpl.
  - now rewrite Hc.
  - simpl in Hw. apply andb_prop in Hw as [Hx _].
    now rewrite (space_not_digit x Hx).
Qed.

Ltac run_step :=
  first
    [ rewrite run_cat
    | rewrite run_lit
    | apply run_star;
      [ assumption
      | first [ reflexivity | apply stops_space_number; assumption ]
      | cbv beta ]
    | apply run_group_plus;
      [ match goal with H : number _ |- _ => exact (proj1 H) end
      | match goal with H : number _ |- _ => exact (proj2 H) end
      | apply stops_digit_spaces; [assumption | reflexivity]
      | cbv beta ] ].

(** Completeness on the grammar: a string of the form [rgb(R, G, B)] is
    matched, and the three groups are [R], [G] and [B]. *)
Lemma FindStringSubmatch_rgb_form (s R G B : string) :
  rgb_form s R G B -> FindStringSubmatch rgbRegex s = Some [s; R; G; B].
Proof.
  intros (w1 & w2 & w3 & w4 & w5 & w6 & w7 &
          H1 & H2 & H3 & H4 & H5 & H6 & H7 & HR & HG & HB & ->).
  unfold FindStringSubmatch.
  match goal with
  | |- match ?m with _ => _ end = _ =>
      assert (Hrun : m = Some [R; G; B]); [| now rewrite Hrun]
  end.
  unfold rgbRegex. cbn [lits append].
  repeat run_step. reflexivity.
Qed.

Lemma lang_rgbRegex (s : string) :
  lang rgbRegex s -> exists R G B, rgb_form s R G B.
Proof.
  unfold rgbRegex. cbn [lits lang]. intros H.
  repeat match goal with
         | H : exists _, _ |- _ => destruct H
         | H : _ /\ _ |- _ => destruct H
         end.
  subst.
  match goal with
  | |- context [ (_ ++ _ ++ _ ++ ?w1 ++ _ ++ ?w2 ++ ?R ++ ?w3 ++ _ ++ ?w4 ++ ?G
                    ++ ?w5 ++ _ ++ ?w6 ++ ?B ++ ?w7 ++ _)%string ] =>
      exists R, G, B, w1, w2, w3, w4, w5, w6, w7
  end.
  unfold number. repeat split; assumption.
Qed.

(** Soundness and determinism: the matcher accepts exactly the strings of
    the form [rgb(R, G, B)], with those three groups. *)
Lemma FindStringSubmatch_rgb_inv (s : string) (l : list string) :
  FindStringSubmatch rgbRegex s = Some l ->
  exists R G B, rgb_form s R G B /\ l = [s; R; G; B].
Proof.
  intros H. pose proof H as H'.
  unfold FindStringSubmatch in H'.
  destruct (run rgbRegex s [] at_end) as [m|] eqn:Hrun; [| discriminate].
  destruct (run_sound _ _ _ _ _ Hrun) as (s1 & s2 & c' & -> & Hl & Hend).
  destruct s2; [| discriminate].
  rewrite append_empty_r in *.
  destruct (lang_rgbRegex _ Hl) as (R & G & B & Hform).
  exists R, G, B. split; [assumption |].
  rewrite (FindStringSubmatch_rgb_form _ _ _ _ Hform) in H. congruence.
Qed.

Lemma FindStringSubmatch_rgb_none (s : string) :
  FindStringSubmatch rgbRegex s = None <->
  ~ (exists R G B, rgb_form s R G B).
Proof.
  split.
  - intros Hn (R & G & B & Hform).
    rewrite (FindStringSubmatch_rgb_form _ _ _ _ Hform) in Hn. discriminate.
  - intros Hno. destruct (FindStringSubmatch rgbRegex s) as [l|] eqn:E;
      [| reflexivity].
    destruct (FindStringSubmatch_rgb_inv _ _ E) as (R & G & B & Hform & _).
    exfalso. apply Hno. now exists R, G, B.
Qed.

(** The grammar is the language of the pattern. *)
Lemma lang_rgbRegex_iff (s : string) :
  lang rgbRegex s <-> exists R G B, rgb_form s R G B.
Proof.
  split; [apply lang_rgbRegex |].
  intros (R & G & B & Hform).
  pose proof (FindStringSubmatch_rgb_form _ _ _ _ Hform) as H.
  unfold FindStringSubmatch in H.
  destruct (run rgbRegex s [] at_end) as [m|] eqn:Hrun; [| discriminate].
  destruct (run_sound _ _ _ _ _ Hrun) as (s1 & s2 & c' & -> & Hl & Hend).
  destruct s2; [| discriminate].
  now rewrite append_empty_r.
Qed.

(** ** [rgbToDecimal] *)

(** One channel on a run of digits. *)
Lemma parse_channel_number (c : component) (text : string) :
  number text ->
  parse_channel c text =
    if base10 text <=? 255 then (base10 text, None)
    else if base10 text <? 2 ^ 63 then (0, Some (ErrOutOfRange c (base10 text)))
    else (0, Some (ErrParsingComponent c ErrRange)).
Proof.
  intros Hn. unfold parse_channel.
  destruct (ParseInt_decimal text Hn) as [-> Hpos].
  change (2 ^ 63) with 9223372036854775808.
  destruct (Z.ltb_spec (base10 text) 9223372036854775808) as [Hfit | Hbig].
  - replace (base10 text <? 0) with false by (symmetry; apply Z.ltb_ge; lia).
    cbn [orb]. rewrite Z.gtb_ltb.
    destruct (Z.leb_spec (base10 text) 255);
      destruct (Z.ltb_spec 255 (base10 text)); try lia; reflexivity.
  - destruct (Z.leb_spec (base10 text) 255); [lia | reflexivity].
Qed.

Lemma parse_channel_range (c : component) (text : string) (v : Z) :
  parse_channel c text = (v, None) -> 0 <= v <= 255.
Proof.
  unfold parse_channel.
  destruct (strconv_ParseInt text 10) as [n [e|]]; [discriminate |].
  destruct (Z.ltb_spec n 0); cbn [orb]; [discriminate |].
  rewrite Z.gtb_ltb. destruct (Z.ltb_spec 255 n); [discriminate |].
  intros [= <-]. lia.
Qed.

(** A successful [rgbToDecimal] returns a 24-bit value. *)
Lemma rgbToDecimal_range (rgb : string) (v : Z) :
  rgbToDecimal rgb = (v, None) -> 0 <= v <= 16777215.
Proof.
  unfold rgbToDecimal.
  destruct (FindStringSubmatch rgbRegex rgb) as [[|m0 [|m1 [|m2 [|m3 [|m4 l]]]]]|];
    try discriminate.
  destruct (parse_channel red m1) as [r [e|]] eqn:Hr; [discriminate |].
  destruct (parse_channel green m2) as [g [e|]] eqn:Hg; [discriminate |].
  destruct (parse_channel blue m3) as [b [e|]] eqn:Hb; [discriminate |].
  apply parse_channel_range in Hr, Hg, Hb.
  intros [= <-]. lia.
Qed.

(** [rgbToDecimal] on a string of the grammar, by cases on the first
    channel that is too large. *)
Lemma rgbToDecimal_form (s R G B : string) :
  rgb_form s R G B ->
  rgbToDecimal s =
    match parse_channel red R, parse_channel green G, parse_channel blue B with
    | (_, Some e), _, _ => (0, Some e)
    | (_, None), (_, Some e), _ => (0, Some e)
    | (_, None), (_, None), (_, Some e) => (0, Some e)
    | (r, None), (g, None), (b, None) => (r * 65536 + g * 256 + b, None)
    end.
Proof.
  intros Hform. unfold rgbToDecimal.
  rewrite (FindStringSubmatch_rgb_form _ _ _ _ Hform).
  destruct (parse_channel red R) as [r [e|]]; [reflexivity |].
  destruct (parse_channel green G) as [g [e|]]; [reflexivity |].
  destruct (parse_channel blue B) as [b [e|]]; reflexivity.
Qed.

(** ** Colons *)

Lemma first_colon_none (s : string) :
  forall i, count_colons s = O -> first_colon s i = None.
Proof.
  induction s as [|c s IH]; simpl; intros i H; [reflexivity |].
  destruct (c =? ":")%char; [discriminate | now apply IH].
Qed.

Lemma first_colon_append (a rest : string) :
  forall i, count_colons a = O ->
  first_colon (a ++ String ":" rest) i = Some (i + String.length a)%nat.
Proof.
  induction a as [|c a IH]; simpl; intros i H.
  - f_equal. lia.
  - destruct (c =? ":")%char; [discriminate |].
    rewrite IH by assumption. f_equal. lia.
Qed.

(** A string with a colon splits at its first colon ... *)
Lemma split_first_colon (s : string) :
  count_colons s <> O ->
  exists a b, s = a ++ String ":" b /\ count_colons a = O /\
              count_colons s = S (count_colons b).
Proof.
  induction s as [|c s IH]; simpl; intros H; [congruence |].
  destruct (Ascii.eqb_spec c ":") as [-> | Hc].
  - exists "", s. now repeat split.
  - destruct (IH H) as (a & b & -> & Ha & Hb).
    exists (String c a), b. simpl.
    destruct (Ascii.eqb_spec c ":"); [contradiction |]. now repeat split.
Qed.

(** ... and at its last one. *)
Lemma split_last_colon (s : string) :
  count_colons s <> O ->
  exists a b, s = a ++ String ":" b /\ count_colons b = O /\
              count_colons s = S (count_colons a).
Proof.
  induction s as [|c s IH]; simpl; intros H; [congruence |].
  destruct (Nat.eq_dec (count_colons s) 0) as [Hz | Hnz].
  - destruct (Ascii.eqb_spec c ":") as [-> | Hc]; [| contradiction].
    exists "", s. simpl. now repeat split; try lia.
  - destruct (IH Hnz) as (a & b & -> & Hb & Ha).
    exists (String c a), b. simpl. rewrite Ha.
    destruct (c =? ":")%char; now repeat split.
Qed.

Lemma at_index_append_r (a b : string) (j : nat) :
  at_index (a ++ b) (String.length a + j) = at_index b j.
Proof.
  unfold at_index. induction a as [|c a IH]; simpl; [reflexivity | exact IH].
Qed.

Lemma at_index_no_colon (s : string) :
  forall j, count_colons s = O -> (at_index s j =? ":")%char = false.
Proof.
  unfold at_index.
  induction s as [|c s IH]; simpl; intros j H; [reflexivity |].
  destruct (c =? ":")%char eqn:Hc; [discriminate |].
  destruct j as [|j]; [exact Hc | now apply IH].
Qed.

Lemma last_colon_none (s : string) :
  forall i, count_colons s = O -> last_colon s i = None.
Proof.
  intros i H. induction i as [|i IH]; simpl; [reflexivity |].
  now rewrite at_index_no_colon.
Qed.

Lemma last_colon_append (a b : string) :
  count_colons b = O ->
  forall n, last_colon (a ++ String ":" b) (String.length a + 1 + n)
            = Some (String.length a).
Proof.
  intros Hb n. induction n as [|n IH].
  - replace (String.length a + 1 + 0)%nat with (S (String.length a)) by lia.
    cbn [last_colon].
    replace (String.length a) with (String.length a + 0)%nat at 1 by lia.
    rewrite at_index_append_r. reflexivity.
  - replace (String.length a + 1 + S n)%nat
      with (S (String.length a + S n)) by lia.
    cbn [last_colon]. rewrite at_index_append_r.
    change (at_index (String ":" b) (S n)) with (at_index b n).
    rewrite at_index_no_colon by assumption.
    replace (String.length a + S n)%nat with (String.length a + 1 + n)%nat by lia.
    exact IH.
Qed.

Lemma last_colon_full (a b : string) :
  count_colons b = O ->
  last_colon (a ++ String ":" b) (String.length (a ++ String ":" b))
  = Some (String.length a).
Proof.
  intros Hb. rewrite length_append_string. cbn [String.length].
  replace (String.length a + S (String.length b))%nat
    with (String.length a + 1 + String.length b)%nat by lia.
  now apply last_colon_append.
Qed.

Lemma slice_from_colon (a b : string) :
  slice_from (S (String.length a)) (a ++ String ":" b) = b.
Proof. induction a as [|c a IH]; simpl; [reflexivity | exact IH]. Qed.

(** ** [strings.Split] on colons *)

Lemma Split_no_colon (s : string) :
  count_colons s = O -> strings_Split s ":" = [s].
Proof.
  induction s as [|c s IH]; simpl; intros H; [reflexivity |].
  destruct (c =? ":")%char; [discriminate |].
  now rewrite IH.
Qed.

Lemma Split_append (a b : string) :
  count_colons a = O ->
  strings_Split (a ++ String ":" b) ":" = a :: strings_Split b ":".
Proof.
  induction a as [|c a IH]; simpl; intros H; [reflexivity |].
  destruct (c =? ":")%char; [discriminate |].
  now rewrite IH.
Qed.

Lemma length_Split (s : string) :
  List.length (strings_Split s ":") = S (count_colons s).
Proof.
  induction s as [|c s IH]; simpl; [reflexivity |].
  destruct (c =? ":")%char; simpl; [now rewrite IH |].
  destruct (strings_Split s ":") eqn:E; simpl in *; [discriminate | exact IH].
Qed.

(** ** The importers, by the number of colons of the ID *)

Lemma messageResource_ImportState_split (a b : string) :
  count_colons a = O ->
  messageResource_ImportState (a ++ String ":" b) =
    import_state [("channel_id", a); ("message_id", b); ("id", b)].
Proof.
  intros Ha. unfold messageResource_ImportState.
  rewrite eqb_empty_append.
  rewrite first_colon_append by assumption. cbn [Nat.add].
  now rewrite slice_to_append, slice_from_colon.
Qed.

Lemma messageResource_ImportState_no_colon (s : string) :
  count_colons s = O -> InvalidImportID (messageResource_ImportState s) = true.
Proof.
  intros H. unfold messageResource_ImportState.
  destruct (s =? "")%string; [reflexivity |].
  now rewrite first_colon_none.
Qed.

Lemma emojiResource_ImportState_split (a b : string) :
  count_colons a = O -> count_colons b = O ->
  emojiResource_ImportState (a ++ String ":" b) =
    import_state [("guild_id", a); ("id", b)].
Proof.
  intros Ha Hb. unfold emojiResource_ImportState.
  rewrite eqb_empty_append, Split_append, Split_no_colon by assumption.
  reflexivity.
Qed.

Lemma emojiResource_ImportState_reject (s : string) :
  count_colons s <> 1%nat -> InvalidImportID (emojiResource_ImportState s) = true.
Proof.
  intros H. unfold emojiResource_ImportState.
  destruct (s =? "")%string; [reflexivity |].
  pose proof (length_Split s) as Hlen.
  destruct (strings_Split s ":") as [|x [|y [|z l]]]; try reflexivity.
  simpl in Hlen. congruence.
Qed.

Lemma roleMemberResource_ImportState_split (a b c : string) :
  count_colons a = O -> count_colons b = O -> count_colons c = O ->
  roleMemberResource_ImportState (a ++ String ":" (b ++ String ":" c)) =
    import_state [("guild_id", a); ("role_id", b); ("user_id", c);
                  ("id", a ++ String ":" (b ++ String ":" c))].
Proof.
  intros Ha Hb Hc. unfold roleMemberResource_ImportState.
  rewrite eqb_empty_append.
  rewrite Split_append, Split_append, Split_no_colon by assumption.
  reflexivity.
Qed.

Lemma roleMemberResource_ImportState_reject (s : string) :
  count_colons s <> 2%nat ->
  InvalidImportID (roleMemberResource_ImportState s) = true.
Proof.
  intros H. unfold roleMemberResource_ImportState.
  destruct (s =? "")%string; [reflexivity |].
  pose proof (length_Split s) as Hlen.
  destruct (strings_Split s ":") as [|x [|y [|z [|t l]]]]; try reflexivity.
  simpl in Hlen. congruence.
Qed.

(** ** Claims about [hexToDecimal] *)

Lemma hex_format_lang (s : string) : hex_format s = true <-> lang hexRegex s.
Proof.
  unfold hex_format, hexRegex. cbn [lang]. rewrite andb_true_iff, negb_true_iff.
  split; intros [H1 H2]; (split; [| assumption]).
  - intros ->. discriminate.
  - destruct s; [congruence | reflexivity].
Qed.

Lemma hexToDecimal_same_normal_form (a b : string) :
  normalize a = normalize b -> hexToDecimal a = hexToDecimal b.
Proof. intros H. rewrite !hexToDecimal_cases, H. reflexivity. Qed.

Lemma all_expand (p : ascii -> bool) (s : string) : all p (expand s) = all p s.
Proof. unfold expand. destruct (_ =? _)%nat; [apply all_duplicate | reflexivity]. Qed.

Lemma hexToDecimal_digits (digits : string) :
  all hex_digit digits = true ->
  (String.length digits = 3 \/ String.length digits = 6)%nat ->
  normalize digits = strings_ToUpper digits /\
  hexToDecimal digits = (base16 (expand (normalize digits)), None) /\
  base16 (expand (normalize digits)) = base16 (expand digits).
Proof.
  intros Hall Hlen.
  assert (Hn : normalize digits = strings_ToUpper digits)
    by (unfold normalize; now rewrite TrimPrefix_digits).
  split; [assumption |].
  rewrite hexToDecimal_cases, Hn.
  assert (Hfmt : hex_format (strings_ToUpper digits) = true).
  { unfold hex_format. rewrite ToUpper_empty, all_ToUpper_hex, Hall.
    destruct digits; [simpl in Hlen; lia | reflexivity]. }
  rewrite Hfmt. cbn [negb]. unfold expand. rewrite length_ToUpper.
  destruct Hlen as [H | H]; rewrite H; cbn [Nat.eqb]; (split; [reflexivity |]).
  - rewrite <- ToUpper_duplicate. apply base16_ToUpper. now rewrite all_duplicate.
  - now apply base16_ToUpper.
Qed.

(** C1 (amended): for every valid hex colour string (3 or 6 hexadecimal
    digits in any letter case, with or without the leading [#]),
    [hexToDecimal] succeeds and returns the base-16 value of the normalised
    string, each character of a 3-digit input being duplicated first; the
    result is the same for the string, its normal form and its six-digit
    form, and lies in [0, 16777215].  In particular [#000000] gives 0,
    [#FFFFFF] gives 16777215, [4287f5] gives 4360181, and [#f5a] and
    [ff55aa] both give 16733610 (0xFF55AA). *)
Theorem hexToDecimal_valid :
  (forall digits hex : string,
      all hex_digit digits = true ->
      (String.length digits = 3 \/ String.length digits = 6)%nat ->
      hex = digits \/ hex = String "#" digits ->
      normalize hex = strings_ToUpper digits /\
      hexToDecimal hex = (base16 (expand (normalize hex)), None) /\
      base16 (expand (normalize hex)) = base16 (expand digits) /\
      hexToDecimal hex = hexToDecimal (normalize hex) /\
      hexToDecimal hex = hexToDecimal (expand digits) /\
      0 <= base16 (expand (normalize hex)) <= 16777215) /\
  hexToDecimal "#000000" = (0, None) /\
  hexToDecimal "#FFFFFF" = (16777215, None) /\
  hexToDecimal "4287f5" = (4360181, None) /\
  hexToDecimal "#f5a" = (16733610, None) /\
  hexToDecimal "ff55aa" = (16733610, None).
Proof.
  split; [| repeat split; reflexivity].
  intros digits hex Hall Hlen Hhex.
  destruct (hexToDecimal_digits digits Hall Hlen) as (Hn & Hv & Hb).
  assert (Hsame : normalize hex = normalize digits)
    by (destruct Hhex as [-> | ->]; [reflexivity | now rewrite Hn]).
  assert (Hres : hexToDecimal hex = (base16 (expand (normalize hex)), None))
    by (rewrite (hexToDecimal_same_normal_form hex digits Hsame), Hsame; exact Hv).
  rewrite Hsame.
  repeat split; try congruence.
  - apply hexToDecimal_same_normal_form. rewrite Hsame, Hn.
    unfold normalize. rewrite TrimPrefix_digits, ToUpper_idempotent; [reflexivity |].
    apply all_hex_upper_hex_digit. now rewrite all_ToUpper_hex.
  - rewrite Hres, Hsame, Hb.
    assert (He : all hex_digit (expand digits) = true) by now rewrite all_expand.
    assert (Hl : String.length (expand digits) = 6%nat).
    { unfold expand. destruct Hlen as [H | H]; rewrite H; cbn [Nat.eqb];
        [rewrite length_duplicate, H; reflexivity | assumption]. }
    destruct (hexToDecimal_digits (expand digits) He (or_intror Hl))
      as (_ & -> & ->).
    assert (Hee : expand (expand digits) = expand digits)
      by (unfold expand at 1; rewrite Hl; reflexivity).
    now rewrite Hee.
  - apply (hexToDecimal_range hex). rewrite <- Hsame. exact Hres.
  - apply (hexToDecimal_range hex). rewrite <- Hsame. exact Hres.
Qed.

Lemma hexToDecimal_valid_witness :
  all hex_digit "f5a" = true /\
  hexToDecimal "#f5a" = (base16 "ff55aa", None) /\
  hexToDecimal "#f5a" = hexToDecimal "ff55aa".
Proof.
  destruct (proj1 hexToDecimal_valid "f5a" "#f5a" eq_refl
              (or_introl eq_refl) (or_intror eq_refl))
    as (_ & Hv & _ & _ & Hsix & _).
  split; [reflexivity | split; [exact Hv | exact Hsix]].
Defined.

(** C1, as stated, fails at [#f5a]: the value is 0xFF55AA = 16733610, not
    16732330. *)
Lemma hexToDecimal_f5a_counterexample :
  hexToDecimal "#f5a" = (16733610, None) /\
  hexToDecimal "ff55aa" = (16733610, None) /\
  16733610 <> 16732330.
Proof. repeat split; try reflexivity. discriminate. Qed.

(** C5 (amended): [hexToDecimal] fails with the format error exactly when
    the input, once the optional leading [#] is stripped and the rest put in
    upper case, does not match [^[0-9A-F]+$] (so for [#GGGGGG]); it fails
    with the length error exactly when that string passes the format test
    and its length is other than 3 or 6 (so for [#12345]); these are its
    only failures, and a failure returns 0 as its value. *)
Theorem hexToDecimal_errors :
  (forall s, hex_format s = true <-> lang hexRegex s) /\
  (forall hex,
      hexToDecimal hex = (0, Some ErrInvalidHexFormat) <->
      hex_format (normalize hex) = false) /\
  (forall hex,
      hexToDecimal hex = (0, Some ErrInvalidHexLength) <->
      hex_format (normalize hex) = true /\
      String.length (normalize hex) <> 3%nat /\
      String.length (normalize hex) <> 6%nat) /\
  (forall hex v e,
      hexToDecimal hex = (v, Some e) ->
      v = 0 /\ (e = ErrInvalidHexFormat \/ e = ErrInvalidHexLength)) /\
  hexToDecimal "#GGGGGG" = (0, Some ErrInvalidHexFormat) /\
  hexToDecimal "#12345" = (0, Some ErrInvalidHexLength).
Proof.
  split; [exact hex_format_lang |].
  split; [| split; [| split; [| split; reflexivity]]].
  - intros hex. rewrite hexToDecimal_cases.
    destruct (hex_format (normalize hex)); cbn [negb].
    + split; [| discriminate].
      destruct (_ =? 3)%nat; [discriminate |].
      destruct (_ =? 6)%nat; discriminate.
    + now split.
  - intros hex. rewrite hexToDecimal_cases.
    destruct (hex_format (normalize hex)); cbn [negb].
    + destruct (Nat.eqb_spec (String.length (normalize hex)) 3) as [H3 | H3].
      * split; [discriminate | intros (_ & H & _); contradiction].
      * destruct (Nat.eqb_spec (String.length (normalize hex)) 6) as [H6 | H6].
        -- split; [discriminate | intros (_ & _ & H); contradiction].
        -- now split.
    + split; [discriminate | intros (H & _); discriminate].
  - intros hex v e. rewrite hexToDecimal_cases.
    destruct (hex_format (normalize hex)); cbn [negb].
    + destruct (_ =? 3)%nat; [discriminate |].
      destruct (_ =? 6)%nat; [discriminate |].
      intros [= <- <-]. split; [reflexivity | now right].
    + intros [= <- <-]. split; [reflexivity | now left].
Qed.

Lemma hexToDecimal_errors_witness :
  hex_format (normalize "#12345") = true /\
  hexToDecimal "#12345" = (0, Some ErrInvalidHexLength) /\
  hexToDecimal "#GGGGGG" = (0, Some ErrInvalidHexFormat).
Proof.
  destruct hexToDecimal_errors as (_ & Hfmt & Hlen & _).
  split; [reflexivity | split].
  - apply (proj2 (Hlen "#12345")).
    split; [reflexivity | split; discriminate].
  - apply (proj2 (Hfmt "#GGGGGG")). reflexivity.
Defined.

(** C5, as stated, fails at [#], at the empty string and at [GGGG]: their
    length is neither 3 nor 6, before and after normalisation, and the
    failure is the format error, not the length error. *)
Lemma hexToDecimal_length_counterexample :
  (String.length "#" = 1 /\ String.length (normalize "#") = 0)%nat /\
  hexToDecimal "#" = (0, Some ErrInvalidHexFormat) /\
  hexToDecimal "" = (0, Some ErrInvalidHexFormat) /\
  (String.length "GGGG" = 4 /\ String.length (normalize "GGGG") = 4)%nat /\
  hexToDecimal "GGGG" = (0, Some ErrInvalidHexFormat) /\
  ErrInvalidHexFormat <> ErrInvalidHexLength.
Proof. repeat split; try reflexivity. discriminate. Qed.

(** ** Claims about [rgbToDecimal] *)

(** C2 (amended): for every string of the form [rgb(R, G, B)], white space
    allowed around the components and the parentheses, with each of R, G, B
    an integer in [0, 255], [rgbToDecimal] succeeds and returns exactly
    R*65536 + G*256 + B.  In particular [rgb(46, 204, 113)] and
    [rgb(46,204,113)] both give 46*65536 + 204*256 + 113 = 3066993,
    [rgb(255,0,0)] gives 16711680, [rgb(0,255,0)] gives 65280 and
    [rgb(0,0,255)] gives 255. *)
Theorem rgbToDecimal_valid :
  (forall s R G B : string,
      rgb_form s R G B ->
      base10 R <= 255 -> base10 G <= 255 -> base10 B <= 255 ->
      rgbToDecimal s = (base10 R * 65536 + base10 G * 256 + base10 B, None)) /\
  rgbToDecimal "rgb(46, 204, 113)" = (3066993, None) /\
  rgbToDecimal "rgb(46,204,113)" = (3066993, None) /\
  46 * 65536 + 204 * 256 + 113 = 3066993 /\
  rgbToDecimal "rgb(255,0,0)" = (16711680, None) /\
  rgbToDecimal "rgb(0,255,0)" = (65280, None) /\
  rgbToDecimal "rgb(0,0,255)" = (255, None).
Proof.
  split; [| repeat split; reflexivity].
  intros s R G B Hform HR HG HB.
  rewrite (rgbToDecimal_form s R G B Hform).
  destruct Hform as (w1 & w2 & w3 & w4 & w5 & w6 & w7 &
                     _ & _ & _ & _ & _ & _ & _ & HnR & HnG & HnB & _).
  rewrite (parse_channel_number red R HnR), (parse_channel_number green G HnG),
    (parse_channel_number blue B HnB).
  destruct (Z.leb_spec (base10 R) 255); [| lia].
  destruct (Z.leb_spec (base10 G) 255); [| lia].
  destruct (Z.leb_spec (base10 B) 255); [| lia].
  reflexivity.
Qed.

Lemma rgbToDecimal_valid_witness :
  rgb_form "rgb (  46,204 , 0113 )" "46" "204" "0113" /\
  rgbToDecimal "rgb (  46,204 , 0113 )" = (3066993, None).
Proof.
  assert (Hform : rgb_form "rgb (  46,204 , 0113 )" "46" "204" "0113").
  { exists " ", "  ", "", "", " ", " ", " ".
    unfold number. repeat split; try reflexivity; discriminate. }
  split; [exact Hform |].
  apply (proj1 rgbToDecimal_valid _ "46" "204" "0113" Hform);
    vm_compute; discriminate.
Defined.

(** C2, as stated, fails at [rgb(46, 204, 113)]: the value is 3066993, not
    3033457. *)
Lemma rgbToDecimal_46_204_113_counterexample :
  rgbToDecimal "rgb(46, 204, 113)" = (3066993, None) /\
  rgbToDecimal "rgb(46,204,113)" = (3066993, None) /\
  3066993 <> 3033457.
Proof. repeat split; try reflexivity. discriminate. Qed.

Lemma parse_channel_cases (c : component) (text : string) :
  number text ->
  (base10 text <= 255 /\ parse_channel c text = (base10 text, None)) \/
  (255 < base10 text < 2 ^ 63 /\
   parse_channel c text = (0, Some (ErrOutOfRange c (base10 text)))) \/
  (2 ^ 63 <= base10 text /\
   parse_channel c text = (0, Some (ErrParsingComponent c ErrRange))).
Proof.
  intros Hn. rewrite (parse_channel_number c text Hn).
  destruct (Z.leb_spec (base10 text) 255); [now left |].
  destruct (Z.ltb_spec (base10 text) (2 ^ 63)); right; [left | right]; split;
    try reflexivity; lia.
Qed.

(** C6 (amended): [rgbToDecimal] fails with the format error exactly when
    the input is not of the form [rgb(R, G, B)] with R, G, B runs of
    decimal digits (so for [46, 204, 113], and for [rgb(-1,0,0)], whose
    sign is outside the grammar).  On an input of that form it fails, for
    the first of red, green, blue whose value exceeds 255, with the range
    error of that component and value (so [rgb(256,0,0)] fails with the
    range error of red), or, when the value does not fit an [int64], with
    the parse error of that component.  A range error never reports a
    value below 256. *)
Theorem rgbToDecimal_errors :
  (forall s, lang rgbRegex s <-> exists R G B, rgb_form s R G B) /\
  (forall s,
      rgbToDecimal s = (0, Some ErrInvalidRGBFormat) <->
      ~ (exists R G B, rgb_form s R G B)) /\
  (forall s R G B,
      rgb_form s R G B ->
      (255 < base10 R < 2 ^ 63 ->
       rgbToDecimal s = (0, Some (ErrOutOfRange red (base10 R)))) /\
      (base10 R <= 255 -> 255 < base10 G < 2 ^ 63 ->
       rgbToDecimal s = (0, Some (ErrOutOfRange green (base10 G)))) /\
      (base10 R <= 255 -> base10 G <= 255 -> 255 < base10 B < 2 ^ 63 ->
       rgbToDecimal s = (0, Some (ErrOutOfRange blue (base10 B)))) /\
      (2 ^ 63 <= base10 R ->
       rgbToDecimal s = (0, Some (ErrParsingComponent red ErrRange))) /\
      (base10 R <= 255 -> 2 ^ 63 <= base10 G ->
       rgbToDecimal s = (0, Some (ErrParsingComponent green ErrRange))) /\
      (base10 R <= 255 -> base10 G <= 255 -> 2 ^ 63 <= base10 B ->
       rgbToDecimal s = (0, Some (ErrParsingComponent blue ErrRange)))) /\
  (forall s x c v,
      rgbToDecimal s = (x, Some (ErrOutOfRange c v)) -> x = 0 /\ 255 < v < 2 ^ 63) /\
  rgbToDecimal "46, 204, 113" = (0, Some ErrInvalidRGBFormat) /\
  rgbToDecimal "rgb(256,0,0)" = (0, Some (ErrOutOfRange red 256)) /\
  rgbToDecimal "rgb(-1,0,0)" = (0, Some ErrInvalidRGBFormat).
Proof.
  split; [exact lang_rgbRegex_iff |].
  split; [| split; [| split; [| repeat split; reflexivity]]].
  - intros s. rewrite <- FindStringSubmatch_rgb_none. split.
    + intros H.
      destruct (FindStringSubmatch rgbRegex s) as [l|] eqn:E; [| reflexivity].
      destruct (FindStringSubmatch_rgb_inv _ _ E)
        as (R & G & B & Hform & _).
      rewrite (rgbToDecimal_form s R G B Hform) in H.
      destruct Hform as (w1 & w2 & w3 & w4 & w5 & w6 & w7 &
                         _ & _ & _ & _ & _ & _ & _ & HnR & HnG & HnB & _).
      destruct (parse_channel_cases red R HnR) as [[_ HR] | [[_ HR] | [_ HR]]];
        rewrite HR in H; try discriminate.
      destruct (parse_channel_cases green G HnG) as [[_ HG] | [[_ HG] | [_ HG]]];
        rewrite HG in H; try discriminate.
      destruct (parse_channel_cases blue B HnB) as [[_ HB] | [[_ HB] | [_ HB]]];
        rewrite HB in H; discriminate.
    + intros E. unfold rgbToDecimal. now rewrite E.
  - intros s R G B Hform.
    rewrite (rgbToDecimal_form s R G B Hform).
    destruct Hform as (w1 & w2 & w3 & w4 & w5 & w6 & w7 &
                       _ & _ & _ & _ & _ & _ & _ & HnR & HnG & HnB & _).
    destruct (parse_channel_cases red R HnR) as [[? HR] | [[? HR] | [? HR]]];
      destruct (parse_channel_cases green G HnG) as [[? HG] | [[? HG] | [? HG]]];
      destruct (parse_channel_cases blue B HnB) as [[? HB] | [[? HB] | [? HB]]];
      rewrite HR, ?HG, ?HB;
      repeat split; intros; try reflexivity; lia.
  - intros s x c v H.
    destruct (FindStringSubmatch rgbRegex s) as [l|] eqn:E;
      [| unfold rgbToDecimal in H; rewrite E in H; discriminate].
    destruct (FindStringSubmatch_rgb_inv _ _ E) as (R & G & B & Hform & _).
    rewrite (rgbToDecimal_form s R G B Hform) in H.
    destruct Hform as (w1 & w2 & w3 & w4 & w5 & w6 & w7 &
                       _ & _ & _ & _ & _ & _ & _ & HnR & HnG & HnB & _).
    destruct (parse_channel_cases red R HnR) as [[? HR] | [[? HR] | [? HR]]];
      rewrite HR in H; try discriminate;
      [| injection H as <- <- <-; split; [reflexivity | assumption]].
    destruct (parse_channel_cases green G HnG) as [[? HG] | [[? HG] | [? HG]]];
      rewrite HG in H; try discriminate;
      [| injection H as <- <- <-; split; [reflexivity | assumption]].
    destruct (parse_channel_cases blue B HnB) as [[? HB] | [[? HB] | [? HB]]];
      rewrite HB in H; try discriminate.
    injection H as <- <- <-. split; [reflexivity | assumption].
Qed.

Lemma rgbToDecimal_errors_witness :
  rgb_form "rgb(12, 300 , 7)" "12" "300" "7" /\
  rgbToDecimal "rgb(12, 300 , 7)" = (0, Some (ErrOutOfRange green 300)).
Proof.
  assert (Hform : rgb_form "rgb(12, 300 , 7)" "12" "300" "7").
  { exists "", "", "", " ", " ", " ", "".
    unfold number. repeat split; try reflexivity; discriminate. }
  split; [exact Hform |].
  destruct (proj1 (proj2 (proj2 rgbToDecimal_errors)) _ "12" "300" "7" Hform)
    as (_ & Hgreen & _).
  apply Hgreen; vm_compute; [discriminate | split; reflexivity].
Defined.

(** C6, as stated, fails at [rgb(-1,0,0)]: the sign is not part of the
    pattern, so the failure is the format error and not a range error. *)
Lemma rgbToDecimal_negative_counterexample :
  rgbToDecimal "rgb(-1,0,0)" = (0, Some ErrInvalidRGBFormat) /\
  FindStringSubmatch rgbRegex "rgb(-1,0,0)" = None /\
  ErrInvalidRGBFormat <> ErrOutOfRange red (-1).
Proof. repeat split; try reflexivity. discriminate. Qed.

(** ** The range check of [Read] *)

(** C9: whenever [hexToDecimal] or [rgbToDecimal] succeeds the value lies
    in [0, 16777215]; hence the range test of [Read] never fires:
    whatever the configuration, [Read] does not report "Invalid Color
    Range", and a state it saves holds a value in that range. *)
Theorem converters_stay_in_range :
  (forall hex v, hexToDecimal hex = (v, None) -> 0 <= v <= 16777215) /\
  (forall rgb v, rgbToDecimal rgb = (v, None) -> 0 <= v <= 16777215) /\
  (forall data, ~ In "Invalid Color Range" (ReadDiagnostics (Read data))) /\
  (forall data st v,
      ReadState (Read data) = Some st -> Dec st = Some v -> 0 <= v <= 16777215).
Proof.
  split; [exact hexToDecimal_range |].
  split; [exact rgbToDecimal_range |].
  assert (Hconv : forall data v,
             (if negb (IsNull (Hex data)) && negb (IsUnknown (Hex data))
                 && negb (ValueString (Hex data) =? "")%string
              then match hexToDecimal (ValueString (Hex data)) with
                   | (_, Some _) => inl "Invalid Hex Color"
                   | (v, None) => inr v
                   end
              else match rgbToDecimal (ValueString (RGB data)) with
                   | (_, Some _) => inl "Invalid RGB Color"
                   | (v, None) => inr v
                   end) = inr v ->
             (v <? 0) || (v >? 16777215) = false).
  { intros data v H.
    assert (Hr : 0 <= v <= 16777215).
    { destruct (negb (IsNull (Hex data)) && negb (IsUnknown (Hex data))
                && negb (ValueString (Hex data) =? "")%string).
      - destruct (hexToDecimal (ValueString (Hex data))) as [x [e|]] eqn:E;
          [discriminate |].
        injection H as <-. exact (hexToDecimal_range _ _ E).
      - destruct (rgbToDecimal (ValueString (RGB data))) as [x [e|]] eqn:E;
          [discriminate |].
        injection H as <-. exact (rgbToDecimal_range _ _ E). }
    apply orb_false_iff. split; [apply Z.ltb_ge | rewrite Z.gtb_ltb; apply Z.ltb_ge];
      lia. }
  split.
  - intros data. unfold Read.
    destruct (negb _ && negb _); [simpl; intros [H | []]; discriminate |].
    destruct (_ && _ : bool); [simpl; intros [H | []]; discriminate |].
    match goal with
    | |- context [match ?c with inl _ => _ | inr _ => _ end] =>
        destruct c as [d | v] eqn:E
    end.
    + destruct (negb (IsNull (Hex data)) && negb (IsUnknown (Hex data))
                && negb (ValueString (Hex data) =? "")%string).
      * destruct (hexToDecimal (ValueString (Hex data))) as [x [e|]];
          [injection E as <- | discriminate].
        simpl. intros [H | []]. discriminate.
      * destruct (rgbToDecimal (ValueString (RGB data))) as [x [e|]];
          [injection E as <- | discriminate].
        simpl. intros [H | []]. discriminate.
    + rewrite (Hconv data v E). simpl. tauto.
  - intros data st v. unfold Read.
    destruct (negb _ && negb _); [discriminate |].
    destruct (_ && _ : bool); [discriminate |].
    match goal with
    | |- context [match ?c with inl _ => _ | inr _ => _ end] =>
        destruct c as [d | x] eqn:E
    end; [discriminate |].
    pose proof (Hconv data x E) as Hin. rewrite Hin.
    simpl. intros [= <-]. simpl. intros [= <-].
    apply orb_false_iff in Hin as [H1 H2].
    apply Z.ltb_ge in H1. rewrite Z.gtb_ltb in H2. apply Z.ltb_ge in H2. lia.
Qed.

Lemma converters_stay_in_range_witness :
  hexToDecimal "#FFFFFF" = (16777215, None) /\ 0 <= 16777215 <= 16777215 /\
  rgbToDecimal "rgb(255,255,255)" = (16777215, None).
Proof.
  split; [reflexivity | split; [| reflexivity]].
  exact (proj1 converters_stay_in_range "#FFFFFF" 16777215 eq_refl).
Defined.

(** ** Claims about the import-ID parsers *)

(** C3: the composite keys round-trip.  For identifiers without a colon,
    joining two with [:] and importing the result with either 2-segment
    importer gives back the pair, and the ID the role-member resource
    builds from three ([guild_id:role_id:user_id]) is split by its importer
    into the same three. *)
Theorem composite_key_round_trip :
  (forall a b : string,
      count_colons a = O -> count_colons b = O ->
      messageResource_ImportState (sprintf2 a b) =
        import_state [("channel_id", a); ("message_id", b); ("id", b)] /\
      emojiResource_ImportState (sprintf2 a b) =
        import_state [("guild_id", a); ("id", b)]) /\
  (forall guildID roleID userID : string,
      count_colons guildID = O -> count_colons roleID = O ->
      count_colons userID = O ->
      roleMemberResource_ImportState
        (roleMemberResource_Create_ID guildID roleID userID) =
        import_state [("guild_id", guildID); ("role_id", roleID);
                      ("user_id", userID);
                      ("id", roleMemberResource_Create_ID guildID roleID userID)]).
Proof.
  split.
  - intros a b Ha Hb. unfold sprintf2. cbn [append]. split.
    + now apply messageResource_ImportState_split.
    + now apply emojiResource_ImportState_split.
  - intros g r u Hg Hr Hu.
    unfold roleMemberResource_Create_ID, sprintf3. cbn [append].
    now apply roleMemberResource_ImportState_split.
Qed.

Lemma composite_key_round_trip_witness :
  messageResource_ImportState "123456789012345678:987654321098765432" =
    import_state [("channel_id", "123456789012345678");
                  ("message_id", "987654321098765432");
                  ("id", "987654321098765432")] /\
  roleMemberResource_ImportState "1:2:3" =
    import_state [("guild_id", "1"); ("role_id", "2"); ("user_id", "3");
                  ("id", "1:2:3")].
Proof.
  split.
  - exact (proj1 (proj1 composite_key_round_trip
                    "123456789012345678" "987654321098765432" eq_refl eq_refl)).
  - exact (proj2 composite_key_round_trip "1" "2" "3" eq_refl eq_refl eq_refl).
Defined.

(** C4 (amended): each composite import-ID parse either succeeds or fails
    with InvalidImportID, and it fails exactly when the ID does not have
    the expected number of colon-separated segments, which may be empty:
    the message parse fails exactly when the ID holds no [:], the emoji
    parse exactly when the split on [:] does not give 2 segments, the
    role-member parse exactly when it does not give 3 segments. *)
Theorem import_id_rejection :
  (forall id,
      (InvalidImportID (messageResource_ImportState id) = true <->
       count_colons id = O) /\
      (InvalidImportID (messageResource_ImportState id) = false ->
       Diagnostics (messageResource_ImportState id) = [])) /\
  (forall id,
      (InvalidImportID (emojiResource_ImportState id) = true <->
       List.length (strings_Split id ":") <> 2%nat) /\
      (InvalidImportID (emojiResource_ImportState id) = false ->
       Diagnostics (emojiResource_ImportState id) = [])) /\
  (forall id,
      (InvalidImportID (roleMemberResource_ImportState id) = true <->
       List.length (strings_Split id ":") <> 3%nat) /\
      (InvalidImportID (roleMemberResource_ImportState id) = false ->
       Diagnostics (roleMemberResource_ImportState id) = [])) /\
  (forall id,
      InvalidImportID (messageResource_ImportState id) = false ->
      exists a b, id = sprintf2 a b /\
        messageResource_ImportState id =
          import_state [("channel_id", a); ("message_id", b); ("id", b)]).
Proof.
  assert (Hmsg : forall id, count_colons id <> O ->
            exists a b, id = sprintf2 a b /\
              messageResource_ImportState id =
                import_state [("channel_id", a); ("message_id", b); ("id", b)]).
  { intros id H.
    destruct (split_first_colon id H) as (a & b & -> & Ha & _).
    exists a, b. split; [reflexivity |].
    now apply messageResource_ImportState_split. }
  split; [| split; [| split]].
  - intros id.
    destruct (Nat.eq_dec (count_colons id) 0) as [Hz | Hnz].
    + rewrite (messageResource_ImportState_no_colon id Hz).
      split; [tauto | discriminate].
    + destruct (Hmsg id Hnz) as (a & b & _ & ->).
      split; [split; [discriminate | contradiction] | reflexivity].
  - intros id. rewrite length_Split.
    destruct (Nat.eq_dec (count_colons id) 1) as [H1 | H1].
    + destruct (split_first_colon id ltac:(lia)) as (a & b & -> & Ha & Hb).
      rewrite emojiResource_ImportState_split by (try assumption; lia).
      split; [split; [discriminate | lia] | reflexivity].
    + rewrite (emojiResource_ImportState_reject id H1).
      split; [split; [lia | reflexivity] | discriminate].
  - intros id. rewrite length_Split.
    destruct (Nat.eq_dec (count_colons id) 2) as [H2 | H2].
    + destruct (split_first_colon id ltac:(lia)) as (a & b & -> & Ha & Hb).
      destruct (split_first_colon b ltac:(lia)) as (c & d & -> & Hc & Hd).
      rewrite roleMemberResource_ImportState_split by (try assumption; lia).
      split; [split; [discriminate | lia] | reflexivity].
    + rewrite (roleMemberResource_ImportState_reject id H2).
      split; [split; [lia | reflexivity] | discriminate].
  - intros id H. apply Hmsg. intros Hz.
    rewrite (messageResource_ImportState_no_colon id Hz) in H. discriminate.
Qed.

Lemma import_id_rejection_witness :
  InvalidImportID (messageResource_ImportState "123456789012345678") = true /\
  InvalidImportID (emojiResource_ImportState "1:2:3") = true /\
  InvalidImportID (roleMemberResource_ImportState "1:2") = true.
Proof.
  destruct import_id_rejection as (Hm & He & Hr & _).
  split; [| split].
  - apply (proj2 (proj1 (Hm "123456789012345678"))). reflexivity.
  - apply (proj2 (proj1 (He "1:2:3"))). discriminate.
  - apply (proj2 (proj1 (Hr "1:2"))). discriminate.
Defined.

(** C4, as stated, fails at [a:], [:] and [::]: the segments are empty and
    the importers accept the ID all the same. *)
Lemma import_empty_segment_counterexample :
  messageResource_ImportState "a:" =
    import_state [("channel_id", "a"); ("message_id", ""); ("id", "")] /\
  messageResource_ImportState ":" =
    import_state [("channel_id", ""); ("message_id", ""); ("id", "")] /\
  emojiResource_ImportState ":" = import_state [("guild_id", ""); ("id", "")] /\
  roleMemberResource_ImportState "::" =
    import_state [("guild_id", ""); ("role_id", ""); ("user_id", "");
                  ("id", "::")] /\
  InvalidImportID (messageResource_ImportState "a:") = false.
Proof. repeat split; reflexivity. Qed.

(** C10: the two 2-segment importers disagree on an ID with more than one
    colon.  The message importer cuts it at its first colon and accepts it
    ([a:b:c] becomes channel [a] and message [b:c]); the emoji importer
    splits at every colon, one segment more than there are colons, and
    rejects every ID that does not hold exactly one colon. *)
Theorem two_segment_importers_disagree :
  (forall id,
      (2 <= count_colons id)%nat ->
      (exists a b,
          id = sprintf2 a b /\ count_colons a = O /\
          messageResource_ImportState id =
            import_state [("channel_id", a); ("message_id", b); ("id", b)]) /\
      InvalidImportID (emojiResource_ImportState id) = true) /\
  (forall id,
      List.length (strings_Split id ":") = S (count_colons id) /\
      (count_colons id <> 1%nat ->
       InvalidImportID (emojiResource_ImportState id) = true)) /\
  messageResource_ImportState "a:b:c" =
    import_state [("channel_id", "a"); ("message_id", "b:c"); ("id", "b:c")] /\
  emojiResource_ImportState "a:b:c" = import_error "Invalid Import ID Format".
Proof.
  split; [| split; [| split; reflexivity]].
  - intros id H. split.
    + destruct (split_first_colon id ltac:(lia)) as (a & b & -> & Ha & _).
      exists a, b. repeat split; [assumption |].
      now apply messageResource_ImportState_split.
    + apply emojiResource_ImportState_reject. lia.
  - intros id. split; [apply length_Split | apply emojiResource_ImportState_reject].
Qed.

Lemma two_segment_importers_disagree_witness :
  (exists a b,
      "1:2:3:4" = sprintf2 a b /\ count_colons a = O /\
      messageResource_ImportState "1:2:3:4" =
        import_state [("channel_id", a); ("message_id", b); ("id", b)]) /\
  InvalidImportID (emojiResource_ImportState "1:2:3:4") = true.
Proof.
  apply (proj1 two_segment_importers_disagree "1:2:3:4"). simpl. lia.
Defined.

(** ** The channel-permission importer *)

Lemma channelPermission_parse_split (c o t : string) :
  count_colons c = O -> count_colons t = O ->
  channelPermissionResource_ImportState_parse (sprintf3 c o t) = tagged c o t.
Proof.
  intros Hc Ht. unfold sprintf3. cbn [append].
  unfold channelPermissionResource_ImportState_parse.
  replace (c ++ String ":" (o ++ String ":" t))
    with ((c ++ String ":" o) ++ String ":" t)
    by (rewrite append_assoc_string; reflexivity).
  rewrite last_colon_full by assumption.
  rewrite slice_to_append, slice_from_colon.
  rewrite first_colon_append by assumption. cbn [Nat.add].
  rewrite slice_to_append, slice_from_colon.
  reflexivity.
Qed.

Lemma channelPermission_parse_few (id : string) :
  (count_colons id < 2)%nat ->
  channelPermissionResource_ImportState_parse id = inl "Invalid Import ID".
Proof.
  intros H. unfold channelPermissionResource_ImportState_parse.
  destruct (Nat.eq_dec (count_colons id) 0) as [Hz | Hnz].
  - now rewrite last_colon_none.
  - destruct (split_last_colon id Hnz) as (a & b & -> & Hb & Ha).
    rewrite last_colon_full by assumption.
    rewrite slice_to_append.
    rewrite first_colon_none by lia. reflexivity.
Qed.

Lemma three_segments (id : string) :
  (2 <= count_colons id)%nat ->
  exists c o t, id = sprintf3 c o t /\ count_colons c = O /\ count_colons t = O /\
                count_colons id = (2 + count_colons o)%nat.
Proof.
  intros H.
  destruct (split_last_colon id ltac:(lia)) as (p & t & -> & Ht & Hp).
  destruct (split_first_colon p ltac:(lia)) as (c & o & -> & Hc & Ho).
  exists c, o, t. split.
  - unfold sprintf3. cbn [append]. rewrite append_assoc_string. reflexivity.
  - repeat split; try assumption. lia.
Qed.

Lemma sprintf3_sprintf2 (c o t : string) :
  sprintf3 c o t = sprintf2 (sprintf2 c o) t.
Proof.
  unfold sprintf3, sprintf2. cbn [append].
  rewrite append_assoc_string. reflexivity.
Qed.

(** C8: the channel-permission import parser cuts the ID at its last colon
    to get the type tag, which must be [role] or [member], and cuts what
    stands before at its first colon into channel and overwrite IDs.  It
    fails with "Invalid Import ID" whenever the ID has fewer than two
    colons.  When the channel segment that went into the ID itself holds a
    colon the parse still succeeds, with another decomposition: the channel
    it returns runs to the first colon only and the overwrite it returns
    holds the remaining colons.  When the overwrite segment alone holds
    colons the parse returns exactly the channel and the overwrite that
    went in. *)
Theorem channelPermission_import_parse :
  (forall id,
      (2 <= count_colons id)%nat ->
      exists c o t, id = sprintf3 c o t /\ count_colons c = O /\ count_colons t = O) /\
  (forall c o t,
      count_colons c = O -> count_colons t = O ->
      (t = "role" ->
       channelPermissionResource_ImportState_parse (sprintf3 c o t) =
         inr {| channelID := c; overwriteID := o; typeStr := "role";
                overwriteType := PermissionOverwriteTypeRole |}) /\
      (t = "member" ->
       channelPermissionResource_ImportState_parse (sprintf3 c o t) =
         inr {| channelID := c; overwriteID := o; typeStr := "member";
                overwriteType := PermissionOverwriteTypeMember |}) /\
      (t <> "role" -> t <> "member" ->
       channelPermissionResource_ImportState_parse (sprintf3 c o t) =
         inl "Invalid Type")) /\
  (forall id,
      (count_colons id < 2)%nat ->
      channelPermissionResource_ImportState_parse id = inl "Invalid Import ID") /\
  (forall c o t,
      t = "role" \/ t = "member" ->
      exists p,
        channelPermissionResource_ImportState_parse (sprintf3 c o t) = inr p /\
        typeStr p = t /\
        count_colons (channelID p) = O /\
        count_colons (overwriteID p) = (count_colons c + count_colons o)%nat /\
        sprintf2 (channelID p) (overwriteID p) = sprintf2 c o /\
        (count_colons c = O -> channelID p = c /\ overwriteID p = o) /\
        (count_colons c <> O -> channelID p <> c /\ overwriteID p <> o)) /\
  channelPermissionResource_ImportState_parse "1:2:3:role" =
    inr {| channelID := "1"; overwriteID := "2:3"; typeStr := "role";
           overwriteType := PermissionOverwriteTypeRole |}.
Proof.
  split; [| split; [| split; [| split; [| reflexivity]]]].
  - intros id H. destruct (three_segments id H) as (c & o & t & E & Hc & Ht & _).
    now exists c, o, t.
  - intros c o t Hc Ht.
    rewrite (channelPermission_parse_split c o t Hc Ht). unfold tagged.
    repeat split.
    + now intros ->.
    + now intros ->.
    + intros H1 H2.
      destruct (String.eqb_spec t "role"); [contradiction |].
      destruct (String.eqb_spec t "member"); [contradiction | reflexivity].
  - exact channelPermission_parse_few.
  - intros c o t Ht.
    assert (Htc : count_colons t = O) by (destruct Ht as [-> | ->]; reflexivity).
    assert (Hp : count_colons (sprintf2 c o) = (count_colons c + 1 + count_colons o)%nat).
    { unfold sprintf2. cbn [append]. rewrite count_colons_append. simpl. lia. }
    destruct (split_first_colon (sprintf2 c o) ltac:(lia))
      as (c' & o' & E & Hc' & Ho').
    assert (Eid : sprintf3 c o t = sprintf3 c' o' t).
    { rewrite !sprintf3_sprintf2. f_equal. exact E. }
    assert (Hexact : count_colons c = O -> c' = c /\ o' = o).
    { intros Hc. unfold sprintf2 in E. cbn [append] in E.
      pose proof (first_colon_append c o 0 Hc) as F1.
      pose proof (first_colon_append c' o' 0 Hc') as F2.
      rewrite E in F1. rewrite F1 in F2. injection F2 as Hlen. cbn [Nat.add] in Hlen.
      pose proof (slice_to_append c (String ":" o)) as S1.
      pose proof (slice_to_append c' (String ":" o')) as S2.
      rewrite E, Hlen in S1. rewrite S1 in S2. subst c'.
      split; [reflexivity |].
      pose proof (slice_from_colon c o) as T1.
      pose proof (slice_from_colon c o') as T2.
      rewrite E in T1. rewrite T1 in T2. now symmetry. }
    rewrite Eid, (channelPermission_parse_split c' o' t Hc' Htc).
    unfold tagged.
    destruct Ht as [-> | ->]; cbn [String.eqb Ascii.eqb Bool.eqb];
      eexists; (split; [reflexivity |]); cbn [typeStr channelID overwriteID];
      (split; [reflexivity |]); (split; [assumption |]);
      (split; [lia |]); (split; [now rewrite E |]);
      (split; [exact Hexact |]);
      intros Hc; (split; intros ->; lia).
Qed.

Lemma channelPermission_import_parse_witness :
  exists p,
    channelPermissionResource_ImportState_parse (sprintf3 "1:2" "3" "member")
      = inr p /\
    typeStr p = "member" /\
    count_colons (channelID p) = O /\
    count_colons (overwriteID p) = (count_colons "1:2" + count_colons "3")%nat /\
    sprintf2 (channelID p) (overwriteID p) = sprintf2 "1:2" "3" /\
    (count_colons "1:2" = O -> channelID p = "1:2" /\ overwriteID p = "3") /\
    (count_colons "1:2" <> O -> channelID p <> "1:2" /\ overwriteID p <> "3").
Proof.
  apply (proj1 (proj2 (proj2 (proj2 channelPermission_import_parse)))).
  right. reflexivity.
Defined.

(** C8, as stated, fails at [1:2:3:role] built from the channel [1], the
    overwrite [2:3] and the type [role]: the overwrite segment holds a
    colon, and the parse gives back exactly that channel and that
    overwrite. *)
Lemma channelPermission_overwrite_colons_counterexample :
  count_colons "2:3" = 1%nat /\
  channelPermissionResource_ImportState_parse (sprintf3 "1" "2:3" "role") =
    inr {| channelID := "1"; overwriteID := "2:3"; typeStr := "role";
           overwriteType := PermissionOverwriteTypeRole |}.
Proof. split; reflexivity. Qed.

(** ** The channel-type codec *)

Section ChannelTypeCodec.

Context {types : ChannelTypes}.

(** The case labels of the [switch] of [channelTypeToString] are
    distinct constants. *)
Hypothesis distinct : NoDup case_labels.

Ltac distinct_labels :=
  let H := fresh "H" in
  pose proof distinct as H; unfold case_labels in H;
  repeat match type of H with
         | NoDup (_ :: _) =>
             let Hn := fresh "Hn" in
             apply NoDup_cons_iff in H as [Hn H]; cbn [In] in Hn
         end;
  clear H.

Ltac by_switch :=
  unfold channelTypeToString;
  repeat match goal with
         | |- context [if ?a =? ?b then _ else _] =>
             destruct (Z.eqb_spec a b)
         end;
  try reflexivity; exfalso; subst; cbn [In] in *; intuition congruence.

Lemma channelTypeToString_labels :
  channelTypeToString ChannelTypeGuildText = "text" /\
  channelTypeToString ChannelTypeGuildVoice = "voice" /\
  channelTypeToString ChannelTypeGuildCategory = "category" /\
  channelTypeToString ChannelTypeGuildNews = "news" /\
  channelTypeToString ChannelTypeGuildStageVoice = "stage" /\
  channelTypeToString ChannelTypeGuildForum = "forum" /\
  channelTypeToString ChannelTypeGuildMedia = "media" /\
  channelTypeToString ChannelTypeGuildDirectory = "directory".
Proof. distinct_labels. repeat split; by_switch. Qed.

Lemma channelTypeToString_default (x : Z) :
  ~ In x case_labels -> channelTypeToString x = "text".
Proof. unfold case_labels. intros Hx. by_switch. Qed.

(** C7: [channelTypeFromString] maps [text] and the empty string to the
    text constant, [voice], [category], [media] and [directory] to
    theirs, and fails with UnsupportedChannelType on every other name;
    [channelTypeToString] inverts it on those five constants, renders
    the news, stage and forum constants as [news], [stage] and [forum],
    and returns [text] for every other number. *)
Theorem channel_type_codec :
  channelTypeFromString "text" = (ChannelTypeGuildText, None) /\
  channelTypeFromString "" = (ChannelTypeGuildText, None) /\
  channelTypeFromString "voice" = (ChannelTypeGuildVoice, None) /\
  channelTypeFromString "category" = (ChannelTypeGuildCategory, None) /\
  channelTypeFromString "media" = (ChannelTypeGuildMedia, None) /\
  channelTypeFromString "directory" = (ChannelTypeGuildDirectory, None) /\
  (forall name,
      ~ In name ["text"; ""; "voice"; "category"; "media"; "directory"] ->
      channelTypeFromString name =
        (ChannelTypeGuildText, Some (UnsupportedChannelType name))) /\
  (forall x,
      In x [ChannelTypeGuildText; ChannelTypeGuildVoice;
            ChannelTypeGuildCategory; ChannelTypeGuildMedia;
            ChannelTypeGuildDirectory] ->
      channelTypeFromString (channelTypeToString x) = (x, None)) /\
  channelTypeToString ChannelTypeGuildText = "text" /\
  channelTypeToString ChannelTypeGuildVoice = "voice" /\
  channelTypeToString ChannelTypeGuildCategory = "category" /\
  channelTypeToString ChannelTypeGuildMedia = "media" /\
  channelTypeToString ChannelTypeGuildDirectory = "directory" /\
  channelTypeToString ChannelTypeGuildNews = "news" /\
  channelTypeToString ChannelTypeGuildStageVoice = "stage" /\
  channelTypeToString ChannelTypeGuildForum = "forum" /\
  (forall x, ~ In x case_labels -> channelTypeToString x = "text").
Proof.
  destruct channelTypeToString_labels
    as (Ht & Hv & Hc & Hn & Hs & Hf & Hm & Hd).
  do 6 (split; [reflexivity |]).
  split; [| split; [| repeat split; try assumption;
                      exact channelTypeToString_default]].
  - intros name Hname. cbn [In] in Hname. unfold channelTypeFromString.
    destruct (String.eqb_spec name "text"); [exfalso; apply Hname; subst; intuition |].
    destruct (String.eqb_spec name ""); [exfalso; apply Hname; subst; intuition |].
    destruct (String.eqb_spec name "voice"); [exfalso; apply Hname; subst; intuition |].
    destruct (String.eqb_spec name "category"); [exfalso; apply Hname; subst; intuition |].
    destruct (String.eqb_spec name "media"); [exfalso; apply Hname; subst; intuition |].
    destruct (String.eqb_spec name "directory"); [exfalso; apply Hname; subst; intuition |].
    reflexivity.
  - intros x Hx. cbn [In] in Hx.
    destruct Hx as [<- | [<- | [<- | [<- | [<- | []]]]]].
    + now rewrite Ht.
    + now rewrite Hv.
    + now rewrite Hc.
    + now rewrite Hm.
    + now rewrite Hd.
Qed.

End ChannelTypeCodec.

Lemma discordgo_distinct : NoDup (@case_labels discordgo).
Proof.
  unfold case_labels. cbn.
  repeat (apply NoDup_cons; [cbn [In]; intuition discriminate |]).
  apply NoDup_nil.
Qed.

Lemma channel_type_codec_witness :
  NoDup (@case_labels discordgo) /\
  @channelTypeFromString discordgo (@channelTypeToString discordgo 16) = (16, None) /\
  @channelTypeToString discordgo 13 = "stage" /\
  @channelTypeToString discordgo 999 = "text".
Proof.
  pose proof (@channel_type_codec discordgo discordgo_distinct) as H.
  destruct H as (_ & _ & _ & _ & _ & _ & _ & Hinv & _ & _ & _ & _ & _ & _ & Hs & _ & Hdef).
  split; [exact discordgo_distinct | split; [| split]].
  - apply (Hinv 16). cbn. tauto.
  - exact Hs.
  - apply (Hdef 999). cbn. intuition discriminate.
Defined.

(* ================================================================= *)
(** * Part III: further properties of the handlers *)

(** ** The colour converters, further *)

Lemma upper_byte_of_value (c : ascii) :
  hex_digit c = true ->
  upper_byte c =
    ascii_of_N (Z.to_N (if hex_digit_value c <? 10 then 48 + hex_digit_value c
                        else 55 + hex_digit_value c)).
Proof. each_byte c. Qed.

Lemma value_from_injective (s1 : string) :
  forall s2 n1 n2,
    all hex_digit s1 = true -> all hex_digit s2 = true ->
    String.length s1 = String.length s2 ->
    0 <= n1 -> 0 <= n2 ->
    value_from hex_digit_value 16 n1 s1 = value_from hex_digit_value 16 n2 s2 ->
    n1 = n2 /\ strings_ToUpper s1 = strings_ToUpper s2.
Proof.
  assert (Hb : 2 <= 16 <= 36) by lia.
  induction s1 as [|c1 s1 IH]; intros [|c2 s2] n1 n2 H1 H2 Hlen Hn1 Hn2 Hv;
    try discriminate Hlen.
  - simpl in Hv. now split.
  - cbn [all] in H1, H2.
    apply andb_prop in H1 as [Hc1 H1]. apply andb_prop in H2 as [Hc2 H2].
    cbn [value_from] in Hv. injection Hlen as Hlen.
    destruct (hex_digit_digit_of c1 Hc1) as [_ Hd1].
    destruct (hex_digit_digit_of c2 Hc2) as [_ Hd2].
    destruct (IH s2 (n1 * 16 + hex_digit_value c1) (n2 * 16 + hex_digit_value c2)
                H1 H2 Hlen ltac:(lia) ltac:(lia) Hv) as [Hn Hs].
    assert (n1 = n2 /\ hex_digit_value c1 = hex_digit_value c2) as [-> Hd] by lia.
    split; [reflexivity |].
    cbn [strings_ToUpper]. rewrite Hs. f_equal.
    now rewrite (upper_byte_of_value c1 Hc1), (upper_byte_of_value c2 Hc2), Hd.
Qed.

Lemma ToUpper_hex_upper (s : string) :
  all hex_upper s = true -> strings_ToUpper s = s.
Proof.
  induction s as [|c s IH]; simpl; [reflexivity |].
  intros H. apply andb_prop in H as [Hc Hs].
  destruct (hex_upper_hex_digit c Hc) as [_ ->]. now rewrite IH.
Qed.

(** What a successful [hexToDecimal] went through. *)
Lemma hexToDecimal_success (hex : string) (v : Z) :
  hexToDecimal hex = (v, None) ->
  all hex_upper (expand (normalize hex)) = true /\
  String.length (expand (normalize hex)) = 6%nat /\
  v = base16 (expand (normalize hex)).
Proof.
  rewrite hexToDecimal_cases. unfold expand.
  destruct (hex_format (normalize hex)) eqn:Hfmt; cbn [negb]; [| discriminate].
  unfold hex_format in Hfmt. apply andb_prop in Hfmt as [_ Hall].
  destruct (Nat.eqb_spec (String.length (normalize hex)) 3) as [H3 | H3].
  - intros [= <-]. rewrite all_duplicate, length_duplicate, H3. now repeat split.
  - destruct (Nat.eqb_spec (String.length (normalize hex)) 6) as [H6 | H6];
      [| discriminate].
    intros [= <-]. now repeat split.
Qed.

(** X1: two inputs that [hexToDecimal] accepts give the same colour exactly
    when they have the same normal form (the leading [#] stripped, upper
    case, the short form brought to six digits): the conversion loses
    nothing but the spelling. *)
Theorem hexToDecimal_same_colour (a b : string) (va vb : Z) :
  hexToDecimal a = (va, None) ->
  hexToDecimal b = (vb, None) ->
  (va = vb <-> expand (normalize a) = expand (normalize b)).
Proof.
  intros Ha Hb.
  destruct (hexToDecimal_success a va Ha) as (Aall & Alen & ->).
  destruct (hexToDecimal_success b vb Hb) as (Ball & Blen & ->).
  split; [| now intros ->].
  intros Hv.
  destruct (value_from_injective (expand (normalize a)) (expand (normalize b)) 0 0)
    as [_ Hs]; try lia; try exact Hv.
  - now apply all_hex_upper_hex_digit.
  - now apply all_hex_upper_hex_digit.
  - now rewrite !ToUpper_hex_upper in Hs.
Qed.

Lemma hexToDecimal_same_colour_witness :
  hexToDecimal "#f5a" = (16733610, None) /\
  hexToDecimal "FF55AA" = (16733610, None) /\
  expand (normalize "#f5a") = expand (normalize "FF55AA").
Proof.
  split; [reflexivity | split; [reflexivity |]].
  exact (proj1 (hexToDecimal_same_colour "#f5a" "FF55AA" 16733610 16733610
                  eq_refl eq_refl) eq_refl).
Defined.

Lemma base16_bytes (r1 r2 g1 g2 b1 b2 : ascii) :
  base16 (String r1 (String r2 (String g1 (String g2 (String b1 (String b2 ""))))))
  = base16 (String r1 (String r2 "")) * 65536
    + base16 (String g1 (String g2 "")) * 256
    + base16 (String b1 (String b2 "")).
Proof. unfold base16. cbn [value_from]. ring. Qed.

Lemma base16_two (c1 c2 : ascii) :
  hex_digit c1 = true -> hex_digit c2 = true ->
  0 <= base16 (String c1 (String c2 "")) <= 255.
Proof.
  intros H1 H2. unfold base16. cbn [value_from].
  destruct (hex_digit_digit_of c1 H1) as [_ ?].
  destruct (hex_digit_digit_of c2 H2) as [_ ?]. lia.
Qed.

(** [rgbToDecimal] on the grammar, when the three channels are in range. *)
Lemma rgbToDecimal_in_range (s R G B : string) :
  rgb_form s R G B ->
  base10 R <= 255 -> base10 G <= 255 -> base10 B <= 255 ->
  rgbToDecimal s = (base10 R * 65536 + base10 G * 256 + base10 B, None).
Proof.
  intros Hform HR HG HB.
  rewrite (rgbToDecimal_form s R G B Hform).
  destruct Hform as (w1 & w2 & w3 & w4 & w5 & w6 & w7 &
                     _ & _ & _ & _ & _ & _ & _ & HnR & HnG & HnB & _).
  rewrite (parse_channel_number red R HnR), (parse_channel_number green G HnG),
    (parse_channel_number blue B HnB).
  destruct (Z.leb_spec (base10 R) 255); [| lia].
  destruct (Z.leb_spec (base10 G) 255); [| lia].
  destruct (Z.leb_spec (base10 B) 255); [| lia].
  reflexivity.
Qed.

(** X2: the two notations agree.  A six-digit hex colour [RRGGBB] (with or
    without [#], in any case) and an [rgb(R, G, B)] string whose channels
    are the values of the three digit pairs convert to the same number. *)
Theorem hex_and_rgb_agree (r1 r2 g1 g2 b1 b2 : ascii) (hex s R G B : string) :
  let digits :=
    String r1 (String r2 (String g1 (String g2 (String b1 (String b2 ""))))) in
  all hex_digit digits = true ->
  hex = digits \/ hex = String "#" digits ->
  rgb_form s R G B ->
  base10 R = base16 (String r1 (String r2 "")) ->
  base10 G = base16 (String g1 (String g2 "")) ->
  base10 B = base16 (String b1 (String b2 "")) ->
  hexToDecimal hex = rgbToDecimal s.
Proof.
  intros digits Hall Hhex Hform HR HG HB.
  destruct (hexToDecimal_digits digits Hall (or_intror eq_refl)) as (Hn & Hv & Hb).
  assert (Hsame : normalize hex = normalize digits)
    by (destruct Hhex as [-> | ->]; [reflexivity | now rewrite Hn]).
  rewrite (hexToDecimal_same_normal_form hex digits Hsame), Hv, Hb.
  change (expand digits) with digits. unfold digits in *.
  rewrite base16_bytes.
  cbn [all] in Hall.
  repeat match type of Hall with
         | _ && _ = true => let H := fresh "Hd" in apply andb_prop in Hall as [H Hall]
         end.
  pose proof (base16_two r1 r2 ltac:(assumption) ltac:(assumption)).
  pose proof (base16_two g1 g2 ltac:(assumption) ltac:(assumption)).
  pose proof (base16_two b1 b2 ltac:(assumption) ltac:(assumption)).
  rewrite (rgbToDecimal_in_range s R G B Hform) by lia.
  now rewrite HR, HG, HB.
Qed.

Lemma hex_and_rgb_agree_witness :
  hexToDecimal "#2ecc71" = rgbToDecimal "rgb(46, 204, 113)".
Proof.
  apply (hex_and_rgb_agree "2" "e" "c" "c" "7" "1" "#2ecc71"
           "rgb(46, 204, 113)" "46" "204" "113").
  - reflexivity.
  - right. reflexivity.
  - exists "", "", "", " ", "", " ", "".
    unfold number. repeat split; try reflexivity; discriminate.
  - reflexivity.
  - reflexivity.
  - reflexivity.
Defined.

(** X3: the number [rgbToDecimal] returns holds the three channels: the
    input was of the form [rgb(R, G, B)], and R, G and B are the value
    divided by 65536, the next eight bits, and the last eight bits. *)
Theorem rgbToDecimal_channels (rgb : string) (v : Z) :
  rgbToDecimal rgb = (v, None) ->
  exists R G B,
    rgb_form rgb R G B /\
    base10 R = v / 65536 /\
    base10 G = (v / 256) mod 256 /\
    base10 B = v mod 256.
Proof.
  intros H.
  destruct (FindStringSubmatch rgbRegex rgb) as [l|] eqn:E;
    [| unfold rgbToDecimal in H; rewrite E in H; discriminate].
  destruct (FindStringSubmatch_rgb_inv _ _ E) as (R & G & B & Hform & _).
  exists R, G, B. split; [assumption |].
  rewrite (rgbToDecimal_form rgb R G B Hform) in H.
  destruct Hform as (w1 & w2 & w3 & w4 & w5 & w6 & w7 &
                     _ & _ & _ & _ & _ & _ & _ & HnR & HnG & HnB & _).
  destruct (ParseInt_decimal R HnR) as [_ HR0].
  destruct (ParseInt_decimal G HnG) as [_ HG0].
  destruct (ParseInt_decimal B HnB) as [_ HB0].
  destruct (parse_channel_cases red R HnR) as [[HR E1] | [[_ E1] | [_ E1]]];
    rewrite E1 in H; try discriminate.
  destruct (parse_channel_cases green G HnG) as [[HG E2] | [[_ E2] | [_ E2]]];
    rewrite E2 in H; try discriminate.
  destruct (parse_channel_cases blue B HnB) as [[HB E3] | [[_ E3] | [_ E3]]];
    rewrite E3 in H; try discriminate.
  injection H as <-.
  set (r := base10 R) in *. set (g := base10 G) in *. set (b := base10 B) in *.
  assert (Hq1 : (r * 65536 + g * 256 + b) / 65536 = r)
    by (symmetry; apply Z.div_unique with (r := g * 256 + b); lia).
  assert (Hq2 : (r * 65536 + g * 256 + b) / 256 = r * 256 + g)
    by (symmetry; apply Z.div_unique with (r := b); lia).
  repeat split.
  - now rewrite Hq1.
  - rewrite Hq2. apply Z.mod_unique with (q := r); lia.
  - apply Z.mod_unique with (q := r * 256 + g); lia.
Qed.

Lemma rgbToDecimal_channels_witness :
  exists R G B,
    rgb_form "rgb(46, 204, 113)" R G B /\
    base10 R = 3066993 / 65536 /\
    base10 G = (3066993 / 256) mod 256 /\
    base10 B = 3066993 mod 256.
Proof. exact (rgbToDecimal_channels "rgb(46, 204, 113)" 3066993 eq_refl). Defined.

(** X4: [colorDataSource.Read] by cases on what the configuration gives.
    An attribute that is null, unknown or the empty string counts as
    absent; with neither or both given [Read] stops with "Missing Color
    Input" or "Conflicting Color Input"; with one given it saves exactly
    the converter's value, or stops with that converter's diagnostic.  It
    has no other outcome. *)
Theorem colorDataSource_Read_cases (data : colorDataSourceModel) :
  Read data =
    match provided (Hex data), provided (RGB data) with
    | false, false => read_error "Missing Color Input"
    | true, true => read_error "Conflicting Color Input"
    | true, false =>
        match hexToDecimal (ValueString (Hex data)) with
        | (v, None) => saved_colour data v
        | (_, Some _) => read_error "Invalid Hex Color"
        end
    | false, true =>
        match rgbToDecimal (ValueString (RGB data)) with
        | (v, None) => saved_colour data v
        | (_, Some _) => read_error "Invalid RGB Color"
        end
    end.
Proof.
  assert (Hp : forall v,
             negb (IsNull v) && negb (IsUnknown v)
             && negb (ValueString v =? "")%string = provided v)
    by (intros [| |x]; reflexivity).
  assert (Hin : forall v, 0 <= v <= 16777215 ->
                          (v <? 0) || (v >? 16777215) = false).
  { intros v Hv. apply orb_false_iff.
    split; [apply Z.ltb_ge | rewrite Z.gtb_ltb; apply Z.ltb_ge]; lia. }
  unfold Read. rewrite !Hp.
  destruct (provided (Hex data)), (provided (RGB data)); cbn [negb andb];
    try reflexivity.
  - destruct (hexToDecimal (ValueString (Hex data))) as [v [e|]] eqn:E;
      [reflexivity |].
    now rewrite (Hin v (hexToDecimal_range _ _ E)).
  - destruct (rgbToDecimal (ValueString (RGB data))) as [v [e|]] eqn:E;
      [reflexivity |].
    now rewrite (Hin v (rgbToDecimal_range _ _ E)).
Qed.

(** ** The import ID of the role resource *)

Lemma at_index_append_l (a b : string) :
  forall j, (j < String.length a)%nat -> at_index (a ++ b) j = at_index a j.
Proof.
  unfold at_index. induction a as [|c a IH]; simpl; intros j Hj; [lia |].
  destruct j as [|j]; [reflexivity | apply IH; lia].
Qed.

Lemma at_index_one_colon (g r : string) (j : nat) :
  count_colons g = O -> count_colons r = O -> j <> String.length g ->
  (at_index (g ++ String ":" r) j =? ":")%char = false.
Proof.
  intros Hg Hr Hj.
  destruct (Nat.lt_ge_cases j (String.length g)) as [Hlt | Hge].
  - rewrite at_index_append_l by assumption. now apply at_index_no_colon.
  - replace j with (String.length g + S (j - String.length g - 1))%nat by lia.
    rewrite at_index_append_r.
    change (at_index (String ":" r) (S (j - String.length g - 1)))
      with (at_index r (j - String.length g - 1)).
    now apply at_index_no_colon.
Qed.

Lemma slice_to_from (s : string) :
  forall n, slice_to n s ++ slice_from n s = s.
Proof.
  induction s as [|c s IH]; intros [|n]; simpl; try reflexivity.
  now rewrite IH.
Qed.

Lemma length_slice_to (s : string) :
  forall n, (n <= String.length s)%nat -> String.length (slice_to n s) = n.
Proof.
  induction s as [|c s IH]; intros [|n] Hn; simpl in *; try reflexivity; try lia.
  rewrite IH; lia.
Qed.

Lemma slice_from_at_index (s : string) :
  forall n, (n < String.length s)%nat ->
  slice_from n s = String (at_index s n) (slice_from (S n) s).
Proof.
  unfold at_index.
  induction s as [|c s IH]; intros n Hn; simpl in Hn; [lia |].
  destruct n as [|n]; [reflexivity |].
  cbn [slice_from String.get]. replace (S n =? 0)%nat with false by reflexivity.
  apply IH. lia.
Qed.

Lemma len_gt (s : string) (n : nat) :
  (len s >? Z.of_nat n) = (n <? String.length s)%nat.
Proof.
  unfold len. rewrite Z.gtb_ltb.
  destruct (Nat.ltb_spec n (String.length s)).
  - apply Z.ltb_lt. lia.
  - apply Z.ltb_ge. lia.
Qed.

(** X5: the role importer cuts at byte 18.  It needs a configured client
    before it parses anything.  An ID it accepts is a guild ID of exactly
    18 bytes, a colon, and a role ID other than the guild ID.  So of the
    IDs [guild:role] built from colon-free parts it accepts exactly those
    whose guild ID has 18 bytes (a snowflake of 17 or 19 digits is refused
    as "Invalid Import ID Format"), and refuses the @everyone role, whose
    ID is the guild ID. *)
Theorem roleResource_import_offset :
  (forall importID, exists summary,
      roleResource_ImportState_parse false importID = inl summary) /\
  (forall importID guildID roleID,
      roleResource_ImportState_parse true importID = inr (guildID, roleID) ->
      importID = sprintf2 guildID roleID /\
      String.length guildID = 18%nat /\ roleID <> guildID) /\
  (forall guildID roleID,
      count_colons guildID = O -> count_colons roleID = O ->
      roleResource_ImportState_parse true (sprintf2 guildID roleID) =
        if (String.length guildID =? 18)%nat
        then if (roleID =? guildID)%string
             then inl "Cannot Import @everyone Role"
             else inr (guildID, roleID)
        else inl "Invalid Import ID Format").
Proof.
  split; [| split].
  - intros importID. unfold roleResource_ImportState_parse.
    destruct (importID =? "")%string; eexists; reflexivity.
  - intros importID g r. unfold roleResource_ImportState_parse.
    destruct (importID =? "")%string; [discriminate |]. cbn [negb].
    change 18 with (Z.of_nat 18). rewrite len_gt.
    destruct (Nat.ltb_spec 18 (String.length importID)) as [Hlen |];
      [| discriminate].
    destruct (Ascii.eqb_spec (at_index importID 18) ":") as [Hc |];
      [| discriminate].
    cbn [andb].
    destruct (String.eqb_spec (slice_from 19 importID) (slice_to 18 importID))
      as [| Hne]; [discriminate |].
    intros H.
    assert (Hg : g = slice_to 18 importID) by congruence.
    assert (Hr : r = slice_from 19 importID) by congruence.
    rewrite Hg, Hr. clear H Hg Hr. repeat split.
    + unfold sprintf2.
      change (":" ++ slice_from 19 importID)
        with (String ":" (slice_from 19 importID)).
      rewrite <- Hc.
      change 19%nat with (S 18).
      rewrite <- (slice_from_at_index importID 18 Hlen).
      symmetry. apply slice_to_from.
    + apply length_slice_to. lia.
    + exact Hne.
  - intros g r Hg Hr. unfold roleResource_ImportState_parse, sprintf2.
    cbn [append]. rewrite eqb_empty_append. cbn [negb].
    change 18 with (Z.of_nat 18). rewrite len_gt.
    destruct (Nat.eqb_spec (String.length g) 18) as [H18 | H18].
    + assert (Hat : at_index (g ++ String ":" r) (String.length g + 0) = ":"%char)
        by apply at_index_append_r.
      rewrite Nat.add_0_r, H18 in Hat. rewrite Hat.
      replace (18 <? String.length (g ++ String ":" r))%nat with true
        by (symmetry; apply Nat.ltb_lt; rewrite length_append_string; simpl; lia).
      change ((":" =? ":")%char) with true. cbn [andb].
      assert (Hst : slice_to 18 (g ++ String ":" r) = g)
        by (rewrite <- H18; apply slice_to_append).
      assert (Hsf : slice_from 19 (g ++ String ":" r) = r)
        by (change 19%nat with (S 18); rewrite <- H18; apply slice_from_colon).
      now rewrite Hst, Hsf.
    + rewrite (at_index_one_colon g r 18 Hg Hr) by lia.
      now rewrite andb_false_r.
Qed.

Lemma roleResource_import_offset_witness :
  roleResource_ImportState_parse true "123456789012345678:987654321098765432"
    = inr ("123456789012345678", "987654321098765432") /\
  roleResource_ImportState_parse true "12345678901234567:987654321098765432"
    = inl "Invalid Import ID Format".
Proof.
  destruct roleResource_import_offset as (_ & _ & H).
  split.
  - exact (H "123456789012345678" "987654321098765432" eq_refl eq_refl).
  - exact (H "12345678901234567" "987654321098765432" eq_refl eq_refl).
Defined.

(** ** The overwrites of a channel *)

Lemma find_app_first {A : Type} (p : A -> bool) (l1 l2 : list A) :
  find p (l1 ++ l2)%list =
    match find p l1 with Some x => Some x | None => find p l2 end.
Proof.
  induction l1 as [|a l1 IH]; simpl; [reflexivity |].
  destruct (p a); [reflexivity | exact IH].
Qed.

Lemma PermissionOverwriteType_eqb_eq (a b : PermissionOverwriteType) :
  PermissionOverwriteType_eqb a b = true <-> a = b.
Proof. destruct a, b; simpl; split; congruence. Qed.

Lemma same_overwrite_iff (id : string) (t : PermissionOverwriteType)
      (ow : PermissionOverwrite) :
  same_overwrite id t ow = true <-> ow_ID ow = id /\ ow_Type ow = t.
Proof.
  unfold same_overwrite.
  rewrite andb_true_iff, String.eqb_eq, PermissionOverwriteType_eqb_eq.
  reflexivity.
Qed.

Lemma other_overwrites_filter (id : string) (t : PermissionOverwriteType)
      (l : list PermissionOverwrite) :
  other_overwrites id t l = filter (fun ow => negb (same_overwrite id t ow)) l.
Proof.
  unfold other_overwrites, same_overwrite. apply filter_ext.
  intros ow. now rewrite negb_andb.
Qed.

Lemma find_other_same (id : string) (t : PermissionOverwriteType)
      (l : list PermissionOverwrite) :
  find_overwrite id t (other_overwrites id t l) = None.
Proof.
  rewrite other_overwrites_filter. unfold find_overwrite.
  induction l as [|ow l IH]; simpl; [reflexivity |].
  destruct (same_overwrite id t ow) eqn:E; simpl; [exact IH |].
  now rewrite E.
Qed.

Lemma find_other_different (id id' : string) (t t' : PermissionOverwriteType)
      (l : list PermissionOverwrite) :
  id' <> id \/ t' <> t ->
  find_overwrite id' t' (other_overwrites id t l) = find_overwrite id' t' l.
Proof.
  intros Hne. rewrite other_overwrites_filter. unfold find_overwrite.
  induction l as [|ow l IH]; simpl; [reflexivity |].
  destruct (same_overwrite id t ow) eqn:E; simpl.
  - destruct (same_overwrite id' t' ow) eqn:E'; [| exact IH].
    apply same_overwrite_iff in E as [E1 E2].
    apply same_overwrite_iff in E' as [E1' E2']. exfalso.
    destruct Hne as [H | H]; apply H; congruence.
  - destruct (same_overwrite id' t' ow); [reflexivity | exact IH].
Qed.

Lemma other_overwrites_idempotent (id : string) (t : PermissionOverwriteType)
      (l : list PermissionOverwrite) :
  other_overwrites id t (other_overwrites id t l) = other_overwrites id t l.
Proof.
  rewrite !other_overwrites_filter.
  induction l as [|ow l IH]; simpl; [reflexivity |].
  destruct (same_overwrite id t ow) eqn:E; simpl; [exact IH |].
  now rewrite E, IH.
Qed.

Lemma other_overwrites_absent (id : string) (t : PermissionOverwriteType)
      (l : list PermissionOverwrite) :
  find_overwrite id t l = None -> other_overwrites id t l = l.
Proof.
  rewrite other_overwrites_filter. unfold find_overwrite.
  induction l as [|ow l IH]; simpl; [reflexivity |].
  destruct (same_overwrite id t ow) eqn:E; simpl; [discriminate |].
  intros H. now rewrite IH.
Qed.

Lemma other_overwrites_app (id : string) (t : PermissionOverwriteType)
      (l1 l2 : list PermissionOverwrite) :
  other_overwrites id t (l1 ++ l2)%list
  = (other_overwrites id t l1 ++ other_overwrites id t l2)%list.
Proof. unfold other_overwrites. apply filter_app. Qed.

Lemma same_overwrite_self (ow : PermissionOverwrite) :
  same_overwrite (ow_ID ow) (ow_Type ow) ow = true.
Proof. now apply same_overwrite_iff. Qed.

Lemma find_replace_overwrite (ow : PermissionOverwrite)
      (existing : list PermissionOverwrite) :
  find_overwrite (ow_ID ow) (ow_Type ow) (replace_overwrite ow existing) = Some ow.
Proof.
  unfold replace_overwrite. unfold find_overwrite at 1. rewrite find_app_first.
  fold (find_overwrite (ow_ID ow) (ow_Type ow)
          (other_overwrites (ow_ID ow) (ow_Type ow) existing)).
  rewrite find_other_same. simpl. now rewrite same_overwrite_self.
Qed.

(** The list built by the loop and the append of Create and Update: a
    lookup of the overwrite's own ID and type finds the new overwrite,
    which is there once; every other lookup answers as on the old list;
    building it twice is building it once. *)
Lemma replace_overwrite_lookup (ow : PermissionOverwrite)
        (existing : list PermissionOverwrite) :
  find_overwrite (ow_ID ow) (ow_Type ow) (replace_overwrite ow existing) = Some ow /\
  filter (same_overwrite (ow_ID ow) (ow_Type ow)) (replace_overwrite ow existing)
    = [ow] /\
  (forall id t,
      id <> ow_ID ow \/ t <> ow_Type ow ->
      find_overwrite id t (replace_overwrite ow existing)
      = find_overwrite id t existing) /\
  replace_overwrite ow (replace_overwrite ow existing)
    = replace_overwrite ow existing.
Proof.
  split; [apply find_replace_overwrite |].
  unfold replace_overwrite. repeat split.
  - rewrite filter_app. simpl. rewrite same_overwrite_self.
    rewrite other_overwrites_filter.
    replace (filter (same_overwrite (ow_ID ow) (ow_Type ow))
               (filter (fun ow0 => negb (same_overwrite (ow_ID ow) (ow_Type ow) ow0))
                  existing)) with (@nil PermissionOverwrite); [reflexivity |].
    induction existing as [|x l IH]; simpl; [reflexivity |].
    destruct (same_overwrite (ow_ID ow) (ow_Type ow) x) eqn:E; simpl;
      [exact IH | now rewrite E].
  - intros id t Hne. unfold find_overwrite at 1. rewrite find_app_first.
    fold (find_overwrite id t (other_overwrites (ow_ID ow) (ow_Type ow) existing)).
    rewrite (find_other_different _ _ _ _ _ Hne).
    destruct (find_overwrite id t existing) eqn:F; [reflexivity |].
    simpl. destruct (same_overwrite id t ow) eqn:E; [| reflexivity].
    apply same_overwrite_iff in E as [E1 E2]. exfalso.
    destruct Hne as [H | H]; apply H; congruence.
  - rewrite other_overwrites_app, other_overwrites_idempotent.
    f_equal. rewrite (other_overwrites_filter _ _ [ow]). simpl.
    rewrite same_overwrite_self. simpl. apply app_nil_r.
Qed.

(** The list built by the loop of Delete: the ID and type are found in it
    no more; every other lookup answers as before; a list without such an
    overwrite comes back unchanged; and the overwrite that Create or Update
    appended goes with the rest. *)
Lemma other_overwrites_delete (id : string) (t : PermissionOverwriteType)
        (existing : list PermissionOverwrite) :
  find_overwrite id t (other_overwrites id t existing) = None /\
  (forall id' t',
      id' <> id \/ t' <> t ->
      find_overwrite id' t' (other_overwrites id t existing)
      = find_overwrite id' t' existing) /\
  (find_overwrite id t existing = None -> other_overwrites id t existing = existing) /\
  (forall allow deny,
      other_overwrites id t
        (replace_overwrite {| ow_ID := id; ow_Type := t;
                              ow_Allow := allow; ow_Deny := deny |} existing)
      = other_overwrites id t existing).
Proof.
  repeat split.
  - apply find_other_same.
  - intros id' t'. apply find_other_different.
  - apply other_overwrites_absent.
  - intros allow deny. unfold replace_overwrite. cbn [ow_ID ow_Type].
    rewrite other_overwrites_app, other_overwrites_idempotent.
    rewrite (other_overwrites_filter id t [_]). simpl.
    replace (same_overwrite id t _) with true
      by (symmetry; now apply same_overwrite_iff).
    simpl. apply app_nil_r.
Qed.

(** ** The handlers of the channel-permission resource *)

Lemma final_overwrite_recording {W : Type} (c : Session W)
      (channelID overwriteID : string) (t : PermissionOverwriteType)
      (updatedChannel : Channel) (w : W) (edits : list (string * ChannelEdit)) :
  snd (snd (final_overwrite (recording c) channelID overwriteID t updatedChannel
              (w, edits))) = edits.
Proof.
  unfold final_overwrite.
  destruct (find_overwrite overwriteID t (ch_PermissionOverwrites updatedChannel));
    [reflexivity |].
  cbn [recording Session_Channel fst snd].
  destruct (Session_Channel c channelID w) as [[refreshed | e] w']; reflexivity.
Qed.

(** X6: what Create and Update pass to ChannelEditComplex.  Once the type
    is [role] or [member] and the channel is fetched, Update makes exactly
    one edit, and so does Create when its checks of the IDs pass: of the
    channel of the plan, with the overwrite list made of the channel's
    overwrites of another ID or type, in their order, and then the plan's
    overwrite.  In that list the plan's overwrite is the last element and
    the only one of its ID and type, whatever stood there before, even
    several times; a lookup by another ID or type answers as on the
    channel's list; and a channel that already holds this list is sent the
    same list again. *)
Theorem channelPermission_edit_sent
        {W : Type} (c : Session W) (data : channelPermissionResourceModel)
        (overwriteType : PermissionOverwriteType) (s : W) (channel : Channel) :
  let channelID := ValueString (perm_ChannelID data) in
  let typeStr := ValueString (perm_Type data) in
  let overwriteID := ValueString (perm_OverwriteID data) in
  let overwrite :=
    {| ow_ID := overwriteID; ow_Type := overwriteType;
       ow_Allow := int64_or_zero (perm_Allow data);
       ow_Deny := int64_or_zero (perm_Deny data) |} in
  let existing := ch_PermissionOverwrites channel in
  let others := other_overwrites overwriteID overwriteType existing in
  let sent := (others ++ [overwrite])%list in
  overwriteType_of typeStr = Some overwriteType ->
  fst (Session_Channel c channelID s) = inl channel ->
  edits_of (channelPermissionResource_Update (Some (recording c)) data (s, []))
  = [(channelID, permissions_edit sent)] /\
  (channelID <> "" -> overwriteID <> "" -> ~ In overwriteID placeholderIDs ->
   edits_of (channelPermissionResource_Create (Some (recording c)) data (s, []))
   = [(channelID, permissions_edit sent)]) /\
  find_overwrite overwriteID overwriteType others = None /\
  find_overwrite overwriteID overwriteType sent = Some overwrite /\
  filter (same_overwrite overwriteID overwriteType) sent = [overwrite] /\
  (forall id t,
      id <> overwriteID \/ t <> overwriteType ->
      find_overwrite id t sent = find_overwrite id t existing) /\
  (other_overwrites overwriteID overwriteType sent ++ [overwrite])%list = sent.
Proof.
  intros channelID typeStr overwriteID overwrite existing others sent Hty Hfetch.
  unfold sent, others.
  destruct (replace_overwrite_lookup overwrite existing)
    as (Hfind & Honce & Hothers & Hidem).
  unfold replace_overwrite in Hfind, Honce, Hothers, Hidem.
  cbn [ow_ID ow_Type overwrite] in Hfind, Honce, Hothers, Hidem.
  split; [| split; [| split; [apply find_other_same |
    split; [exact Hfind | split; [exact Honce | split; [exact Hothers | exact Hidem]]]]]].
  - unfold edits_of, channelPermissionResource_Update.
    fold channelID typeStr overwriteID. rewrite Hty.
    cbn [recording Session_Channel Session_ChannelEditComplex fst snd].
    destruct (Session_Channel c channelID s) as [r s1]. cbn [fst] in Hfetch.
    subst r. cbn [fst snd].
    match goal with
    | |- context [Session_ChannelEditComplex c ?i ?e ?w] =>
        destruct (Session_ChannelEditComplex c i e w) as [[updatedChannel | e'] s2]
    end; [| reflexivity].
    match goal with
    | |- context [final_overwrite (recording c) ?i ?o ?t ?u (?w, ?l)] =>
        pose proof (final_overwrite_recording c i o t u w l) as Hlog;
        destruct (final_overwrite (recording c) i o t u (w, l))
          as [[fo |] [w' edits]]
    end; cbn [fst snd] in Hlog |- *; exact Hlog.
  - intros Hc Ho Hp.
    unfold edits_of, channelPermissionResource_Create.
    fold channelID typeStr overwriteID.
    destruct (String.eqb_spec channelID "") as [E | _]; [contradiction |].
    assert (Htn : (typeStr =? "")%string = false).
    { destruct (String.eqb_spec typeStr "") as [E | _]; [| reflexivity].
      rewrite E in Hty. discriminate. }
    rewrite Htn, Hty.
    destruct (String.eqb_spec overwriteID "") as [E | _]; [contradiction |].
    assert (Hph : existsb (String.eqb overwriteID) placeholderIDs = false).
    { destruct (existsb (String.eqb overwriteID) placeholderIDs) eqn:Ex;
        [| reflexivity].
      apply existsb_exists in Ex as (x & Hin & Hx).
      apply String.eqb_eq in Hx. subst x. contradiction. }
    rewrite Hph.
    cbn [recording Session_Channel Session_ChannelEditComplex fst snd].
    destruct (Session_Channel c channelID s) as [r s1]. cbn [fst] in Hfetch.
    subst r. cbn [fst snd].
    match goal with
    | |- context [Session_ChannelEditComplex c ?i ?e ?w] =>
        destruct (Session_ChannelEditComplex c i e w) as [[updatedChannel | e'] s2]
    end; [| reflexivity].
    match goal with
    | |- context [final_overwrite (recording c) ?i ?o ?t ?u (?w, ?l)] =>
        pose proof (final_overwrite_recording c i o t u w l) as Hlog;
        destruct (final_overwrite (recording c) i o t u (w, l))
          as [[fo |] [w' edits]]
    end; cbn [fst snd] in Hlog |- *; exact Hlog.
Qed.

Lemma channelPermission_edit_sent_witness :
  let old := {| ow_ID := "7"; ow_Type := PermissionOverwriteTypeRole;
                ow_Allow := 1; ow_Deny := 0 |} in
  let other := {| ow_ID := "7"; ow_Type := PermissionOverwriteTypeMember;
                  ow_Allow := 2; ow_Deny := 0 |} in
  let new := {| ow_ID := "7"; ow_Type := PermissionOverwriteTypeRole;
                ow_Allow := 1024; ow_Deny := 2048 |} in
  edits_of
    (channelPermissionResource_Update (Some (recording world_session))
       {| perm_ID := StringUnknown; perm_ChannelID := StringValue "100";
          perm_Type := StringValue "role"; perm_OverwriteID := StringValue "7";
          perm_Allow := Int64Value 1024; perm_Deny := Int64Value 2048 |}
       ({| world_overwrites := [old; other; old]; world_roles := [] |}, []))
  = [("100", permissions_edit [other; new])].
Proof.
  cbv zeta.
  match goal with
  | |- edits_of (channelPermissionResource_Update _ ?d (?w, [])) = _ =>
      exact (proj1 (channelPermission_edit_sent world_session d
                      PermissionOverwriteTypeRole w (world_channel w)
                      eq_refl eq_refl))
  end.
Defined.

Lemma other_overwrites_nil (id : string) (t : PermissionOverwriteType)
      (existing : list PermissionOverwrite) :
  other_overwrites id t existing = [] <->
  forall ow, In ow existing -> same_overwrite id t ow = true.
Proof.
  rewrite other_overwrites_filter.
  induction existing as [| a l IH]; cbn [filter In].
  - split; [intros _ ow [] | reflexivity].
  - destruct (same_overwrite id t a) eqn:Ea; cbn [negb].
    + rewrite IH. split.
      * intros H ow [<- | Hin]; [assumption | now apply H].
      * intros H ow Hin. apply H. now right.
    + split; [discriminate |]. intros H.
      rewrite (H a (or_introl eq_refl)) in Ea. discriminate.
Qed.

(** X7: what Delete passes to ChannelEditComplex.  Once the channel is
    fetched, Delete makes exactly one edit, of the channel of the state,
    with the channel's overwrites of another ID or type in their order (a
    type that is neither [role] nor [member] counts as [role]); it reports
    no error exactly when Discord accepts that edit, and it never writes
    the state.  In the list passed the ID and type are found no more and
    every other lookup answers as on the channel's list; a channel without
    such an overwrite has its whole list passed back; and the list passed
    is empty, not absent, exactly when the channel holds no other
    overwrite.  The model ends at that call: how discordgo encodes an
    empty list in the request is not part of it. *)
Theorem channelPermission_Delete_sends
        {W : Type} (c : Session W) (data : channelPermissionResourceModel)
        (s : W) (channel : Channel) :
  let channelID := ValueString (perm_ChannelID data) in
  let overwriteID := ValueString (perm_OverwriteID data) in
  let overwriteType :=
    match overwriteType_of (ValueString (perm_Type data)) with
    | Some t => t
    | None => PermissionOverwriteTypeRole
    end in
  let existing := ch_PermissionOverwrites channel in
  let sent := other_overwrites overwriteID overwriteType existing in
  let run := channelPermissionResource_Delete (Some (recording c)) data (s, []) in
  fst (Session_Channel c channelID s) = inl channel ->
  edits_of run = [(channelID, permissions_edit sent)] /\
  edit_PermissionOverwrites (permissions_edit sent) = Some sent /\
  RespState (fst run) = StateUntouched /\
  (HasError (RespDiagnostics (fst run)) = false <->
   exists updatedChannel,
     fst (Session_ChannelEditComplex c channelID (permissions_edit sent)
            (snd (Session_Channel c channelID s))) = inl updatedChannel) /\
  find_overwrite overwriteID overwriteType sent = None /\
  (forall id t,
      id <> overwriteID \/ t <> overwriteType ->
      find_overwrite id t sent = find_overwrite id t existing) /\
  (find_overwrite overwriteID overwriteType existing = None -> sent = existing) /\
  (sent = [] <->
   forall ow, In ow existing -> same_overwrite overwriteID overwriteType ow = true).
Proof.
  intros channelID overwriteID overwriteType existing sent run Hfetch.
  destruct (other_overwrites_delete overwriteID overwriteType existing)
    as (Hgone & Hothers & Hsame & _).
  assert (Hrun :
    run = match Session_ChannelEditComplex c channelID (permissions_edit sent)
                  (snd (Session_Channel c channelID s)) with
          | (inl _, s2) =>
              ({| RespDiagnostics := []; RespState := StateUntouched |},
               (s2, [(channelID, permissions_edit sent)]))
          | (inr _, s2) =>
              (fail_with "Error Deleting Channel Permission",
               (s2, [(channelID, permissions_edit sent)]))
          end).
  { unfold run, channelPermissionResource_Delete.
    fold channelID overwriteID overwriteType.
    cbn [recording Session_Channel Session_ChannelEditComplex fst snd].
    destruct (Session_Channel c channelID s) as [r s1]. cbn [fst] in Hfetch.
    subst r. cbn [fst snd]. fold existing. fold sent.
    destruct (Session_ChannelEditComplex c channelID (permissions_edit sent) s1)
      as [[updatedChannel | e] s2]; reflexivity. }
  rewrite Hrun. unfold edits_of.
  destruct (Session_ChannelEditComplex c channelID (permissions_edit sent)
              (snd (Session_Channel c channelID s)))
    as [[updatedChannel | e] s2]; cbn [fst snd RespState RespDiagnostics fail_with];
    (split; [reflexivity |]); (split; [reflexivity |]); (split; [reflexivity |]);
    (split; [| split; [exact Hgone | split; [exact Hothers | split;
       [exact Hsame | apply other_overwrites_nil]]]]).
  - split; [intros _; now exists updatedChannel | reflexivity].
  - cbn. split; [discriminate | intros (u & Hu); discriminate].
Qed.

Lemma channelPermission_Delete_sends_witness :
  let only := {| ow_ID := "7"; ow_Type := PermissionOverwriteTypeMember;
                 ow_Allow := 8; ow_Deny := 16 |} in
  edits_of
    (channelPermissionResource_Delete (Some (recording world_session))
       (permission_state "100" "member" "7" 8 16)
       ({| world_overwrites := [only]; world_roles := [] |}, []))
  = [("100", permissions_edit [])].
Proof.
  cbv zeta.
  match goal with
  | |- edits_of (channelPermissionResource_Delete _ ?d (?w, [])) = _ =>
      exact (proj1 (channelPermission_Delete_sends world_session d w
                      (world_channel w) eq_refl))
  end.
Defined.

(** X8: when Discord answers the edit with the overwrites it was sent, or
    with any list in which the overwrite is found, Create and Update save
    what that overwrite holds; with the list as sent, they save the plan's
    [allow] and [deny] (0 for an unset one) under the ID
    [channel_id:overwrite_id]. *)
Theorem channelPermission_saves_what_was_sent
        {W : Type} (c : Session W) (data : channelPermissionResourceModel)
        (overwriteType : PermissionOverwriteType)
        (s s1 s2 : W) (channel updatedChannel : Channel) :
  let channelID := ValueString (perm_ChannelID data) in
  let typeStr := ValueString (perm_Type data) in
  let overwriteID := ValueString (perm_OverwriteID data) in
  let overwrite :=
    {| ow_ID := overwriteID; ow_Type := overwriteType;
       ow_Allow := int64_or_zero (perm_Allow data);
       ow_Deny := int64_or_zero (perm_Deny data) |} in
  overwriteType_of typeStr = Some overwriteType ->
  Session_Channel c channelID s = (inl channel, s1) ->
  Session_ChannelEditComplex c channelID
    (permissions_edit (replace_overwrite overwrite (ch_PermissionOverwrites channel)))
    s1 = (inl updatedChannel, s2) ->
  ch_PermissionOverwrites updatedChannel
    = replace_overwrite overwrite (ch_PermissionOverwrites channel) ->
  let saved :=
    ({| RespDiagnostics := [];
        RespState :=
          StateSet (permission_state channelID typeStr overwriteID
                      (int64_or_zero (perm_Allow data))
                      (int64_or_zero (perm_Deny data))) |}, s2) in
  channelPermissionResource_Update (Some c) data s = saved /\
  (channelID <> "" -> overwriteID <> "" -> ~ In overwriteID placeholderIDs ->
   channelPermissionResource_Create (Some c) data s = saved).
Proof.
  intros channelID typeStr overwriteID overwrite Htype Hfetch Hedit Hecho saved.
  assert (Hfinal : final_overwrite c channelID overwriteID overwriteType
                     updatedChannel s2 = (Some overwrite, s2)).
  { unfold final_overwrite. rewrite Hecho.
    now rewrite (find_replace_overwrite overwrite). }
  split.
  - unfold channelPermissionResource_Update.
    fold channelID typeStr overwriteID. rewrite Htype, Hfetch.
    fold overwrite.
    change (other_overwrites overwriteID overwriteType
              (ch_PermissionOverwrites channel) ++ [overwrite])%list
      with (replace_overwrite overwrite (ch_PermissionOverwrites channel)).
    now rewrite Hedit, Hfinal.
  - intros Hc Ho Hp. unfold channelPermissionResource_Create.
    fold channelID typeStr overwriteID.
    destruct (String.eqb_spec channelID ""); [contradiction |].
    destruct (String.eqb_spec typeStr "") as [E |];
      [rewrite E in Htype; discriminate |].
    rewrite Htype.
    destruct (String.eqb_spec overwriteID ""); [contradiction |].
    destruct (existsb (String.eqb overwriteID) placeholderIDs) eqn:Ex.
    + exfalso. apply Hp. apply existsb_exists in Ex as (x & Hin & Hx).
      apply String.eqb_eq in Hx. now subst x.
    + rewrite Hfetch. fold overwrite.
      change (other_overwrites overwriteID overwriteType
                (ch_PermissionOverwrites channel) ++ [overwrite])%list
        with (replace_overwrite overwrite (ch_PermissionOverwrites channel)).
      now rewrite Hedit, Hfinal.
Qed.

Lemma channelPermission_saves_what_was_sent_witness :
  let data :=
    {| perm_ID := StringUnknown; perm_ChannelID := StringValue "100";
       perm_Type := StringValue "role"; perm_OverwriteID := StringValue "7";
       perm_Allow := Int64Value 1024; perm_Deny := Int64Null |} in
  let w := {| world_overwrites :=
                [{| ow_ID := "7"; ow_Type := PermissionOverwriteTypeRole;
                    ow_Allow := 1; ow_Deny := 1 |}];
              world_roles := [] |} in
  fst (channelPermissionResource_Create (Some world_session) data w)
  = {| RespDiagnostics := [];
       RespState := StateSet (permission_state "100" "role" "7" 1024 0) |}.
Proof.
  cbv zeta.
  match goal with
  | |- fst (channelPermissionResource_Create (Some ?c) ?d ?w) = _ =>
      destruct (channelPermission_saves_what_was_sent c d
                  PermissionOverwriteTypeRole w w _ _ _
                  eq_refl eq_refl eq_refl eq_refl) as [_ H];
      rewrite H
  end.
  - reflexivity.
  - discriminate.
  - discriminate.
  - cbn. intuition discriminate.
Defined.

(** X9: Create asks Discord nothing before its own checks pass.  With no
    channel ID, a type other than [role] or [member], no overwrite ID, or
    one of the four placeholder IDs of the examples, it stops with a single
    error, writes no state, and leaves the session as it was, whatever the
    session is. *)
Theorem channelPermission_Create_gate
        {W : Type} (client : option (Session W))
        (data : channelPermissionResourceModel) (s : W) :
  ValueString (perm_ChannelID data) = "" \/
  overwriteType_of (ValueString (perm_Type data)) = None \/
  ValueString (perm_OverwriteID data) = "" \/
  In (ValueString (perm_OverwriteID data)) placeholderIDs ->
  exists summary,
    channelPermissionResource_Create client data s = (fail_with summary, s).
Proof.
  intros H. unfold channelPermissionResource_Create.
  destruct client as [c|]; [| eexists; reflexivity].
  destruct (String.eqb_spec (ValueString (perm_ChannelID data)) "") as [E1 | E1];
    [eexists; reflexivity |].
  destruct (String.eqb_spec (ValueString (perm_Type data)) "") as [E2 | E2];
    [eexists; reflexivity |].
  destruct (overwriteType_of (ValueString (perm_Type data))) as [t|] eqn:Et;
    [| eexists; reflexivity].
  destruct (String.eqb_spec (ValueString (perm_OverwriteID data)) "") as [E3 | E3];
    [eexists; reflexivity |].
  destruct (existsb (String.eqb (ValueString (perm_OverwriteID data)))
              placeholderIDs) eqn:Ex; [eexists; reflexivity |].
  exfalso. destruct H as [H | [H | [H | H]]]; try contradiction; try discriminate.
  assert (existsb (String.eqb (ValueString (perm_OverwriteID data)))
            placeholderIDs = true); [| congruence].
  apply existsb_exists. eexists. split; [exact H | apply String.eqb_refl].
Qed.

Lemma channelPermission_Create_gate_witness :
  exists summary,
    channelPermissionResource_Create (Some world_session)
      {| perm_ID := StringUnknown; perm_ChannelID := StringValue "100";
         perm_Type := StringValue "role";
         perm_OverwriteID := StringValue "123456789012345678";
         perm_Allow := Int64Value 1024; perm_Deny := Int64Null |}
      {| world_overwrites := []; world_roles := [] |}
    = (fail_with summary, {| world_overwrites := []; world_roles := [] |}).
Proof.
  apply channelPermission_Create_gate.
  right. right. right. cbn. tauto.
Defined.

Lemma parse_type_tag (importID : string) (p : parsedPermissionID) :
  channelPermissionResource_ImportState_parse importID = inr p ->
  overwriteType_of (typeStr p) = Some (overwriteType p).
Proof.
  unfold channelPermissionResource_ImportState_parse. intros Ep.
  destruct (last_colon importID _) as [lc|]; [| discriminate].
  destruct (first_colon _ 0) as [fc|]; [| discriminate].
  unfold overwriteType_of.
  destruct (slice_from (Datatypes.S lc) importID =? "role")%string eqn:E1.
  - assert (Hp : p = {| channelID := slice_to fc (slice_to lc importID);
                        overwriteID := slice_from (Datatypes.S fc) (slice_to lc importID);
                        typeStr := slice_from (Datatypes.S lc) importID;
                        overwriteType := PermissionOverwriteTypeRole |})
      by congruence.
    rewrite Hp. cbn [typeStr overwriteType]. now rewrite E1.
  - destruct (slice_from (Datatypes.S lc) importID =? "member")%string eqn:E2;
      [| discriminate].
    assert (Hp : p = {| channelID := slice_to fc (slice_to lc importID);
                        overwriteID := slice_from (Datatypes.S fc) (slice_to lc importID);
                        typeStr := slice_from (Datatypes.S lc) importID;
                        overwriteType := PermissionOverwriteTypeMember |})
      by congruence.
    rewrite Hp. cbn [typeStr overwriteType]. now rewrite E1, E2.
Qed.

Lemma permission_state_ID (c t o : string) (a d : Z) :
  ValueString (perm_ID (permission_state c t o a d)) = sprintf2 c o.
Proof. reflexivity. Qed.

(** X10: the ID in the state is not the import ID.  Whatever Create, Read,
    Update and ImportState save has the ID [channel_id:overwrite_id] of
    its own channel and overwrite IDs and the type [role] or [member].
    With colon-free IDs the importer refuses that ID ("Invalid Import
    ID"); it wants the ID followed by [:] and the type, and then gives
    back the same channel, overwrite and type. *)
Theorem channelPermission_stored_ID {W : Type} (client : option (Session W)) :
  (forall run : channelPermissionResourceModel -> W ->
                Response channelPermissionResourceModel * W,
      run = channelPermissionResource_Create client \/
      run = channelPermissionResource_Read client \/
      run = channelPermissionResource_Update client ->
      forall data s m,
        RespState (fst (run data s)) = StateSet m ->
        exists allow deny,
          m = permission_state (ValueString (perm_ChannelID data))
                (ValueString (perm_Type data))
                (ValueString (perm_OverwriteID data)) allow deny /\
          overwriteType_of (ValueString (perm_Type data)) <> None) /\
  (forall importID s m,
      RespState (fst (channelPermissionResource_ImportState client importID s))
        = StateSet m ->
      exists p allow deny,
        channelPermissionResource_ImportState_parse importID = inr p /\
        m = permission_state (channelID p) (typeStr p) (overwriteID p) allow deny /\
        overwriteType_of (typeStr p) = Some (overwriteType p)) /\
  (forall c t o allow deny ty,
      count_colons c = O -> count_colons o = O ->
      overwriteType_of t = Some ty ->
      let stored := ValueString (perm_ID (permission_state c t o allow deny)) in
      channelPermissionResource_ImportState_parse stored = inl "Invalid Import ID" /\
      channelPermissionResource_ImportState_parse (stored ++ ":" ++ t)
        = inr {| channelID := c; overwriteID := o; typeStr := t;
                 overwriteType := ty |}).
Proof.
  split; [| split].
  - intros run Hrun data s m.
    destruct Hrun as [-> | [-> | ->]].
    + unfold channelPermissionResource_Create.
      destruct client as [c|]; [| discriminate].
      destruct (_ =? "")%string; [discriminate |].
      destruct (_ =? "")%string; [discriminate |].
      destruct (overwriteType_of (ValueString (perm_Type data))) as [t|];
        [| discriminate].
      destruct (_ =? "")%string; [discriminate |].
      destruct (existsb _ _); [discriminate |].
      destruct (Session_Channel c _ s) as [[ch|e] s1]; [| discriminate].
      destruct (Session_ChannelEditComplex c _ _ s1) as [[upd|e] s2];
        [| discriminate].
      destruct (final_overwrite c _ _ t upd s2) as [[fo|] s3]; [| discriminate].
      cbn. intros [= <-]. do 2 eexists. split; [reflexivity | discriminate].
    + unfold channelPermissionResource_Read.
      destruct client as [c|]; [| discriminate].
      destruct (_ =? "")%string; [discriminate |].
      destruct (overwriteType_of (ValueString (perm_Type data))) as [t|];
        [| discriminate].
      destruct (Session_Channel c _ s) as [[ch|e] s1]; [| discriminate].
      destruct (find_overwrite _ t _) as [fo|]; [| discriminate].
      cbn. intros [= <-]. do 2 eexists. split; [reflexivity | discriminate].
    + unfold channelPermissionResource_Update.
      destruct client as [c|]; [| discriminate].
      destruct (overwriteType_of (ValueString (perm_Type data))) as [t|];
        [| discriminate].
      destruct (Session_Channel c _ s) as [[ch|e] s1]; [| discriminate].
      destruct (Session_ChannelEditComplex c _ _ s1) as [[upd|e] s2];
        [| discriminate].
      destruct (final_overwrite c _ _ t upd s2) as [[fo|] s3];
        cbn; intros [= <-]; do 2 eexists; (split; [reflexivity | discriminate]).
  - intros importID s m. unfold channelPermissionResource_ImportState.
    destruct (channelPermissionResource_ImportState_parse importID) as [d|p] eqn:Ep;
      [discriminate |].
    destruct client as [c|]; [| discriminate].
    destruct (Session_Channel c _ s) as [[ch|e] s1]; [| discriminate].
    destruct (find_overwrite _ _ _) as [fo|]; [| discriminate].
    cbn. intros [= <-]. exists p. do 2 eexists.
    split; [reflexivity | split; [reflexivity |]].
    exact (parse_type_tag importID p Ep).
  - intros c t o allow deny ty Hc Ho Ht stored. unfold stored.
    rewrite permission_state_ID.
    assert (Htc : count_colons t = O).
    { unfold overwriteType_of in Ht.
      destruct (String.eqb_spec t "role") as [-> |]; [reflexivity |].
      destruct (String.eqb_spec t "member") as [-> |]; [reflexivity | discriminate]. }
    split.
    + apply channelPermission_parse_few.
      unfold sprintf2. cbn [append]. rewrite count_colons_append. simpl. lia.
    + change (sprintf2 c o ++ ":" ++ t) with (sprintf2 (sprintf2 c o) t).
      rewrite <- sprintf3_sprintf2.
      rewrite (channelPermission_parse_split c o t Hc Htc). unfold tagged.
      unfold overwriteType_of in Ht.
      destruct (t =? "role")%string; [congruence |].
      destruct (t =? "member")%string; [congruence | discriminate].
Qed.

Lemma channelPermission_stored_ID_witness :
  channelPermissionResource_ImportState_parse "100:7" = inl "Invalid Import ID" /\
  channelPermissionResource_ImportState_parse ("100:7" ++ ":" ++ "member")
    = inr {| channelID := "100"; overwriteID := "7"; typeStr := "member";
             overwriteType := PermissionOverwriteTypeMember |}.
Proof.
  exact (proj2 (proj2 (channelPermission_stored_ID (W := world) None))
           "100" "member" "7" 5 6 PermissionOverwriteTypeMember
           eq_refl eq_refl eq_refl).
Defined.

(** X11: a state that ImportState saved is one Read keeps.  When the
    channel ID of the import is not empty and Discord answers the fetch of
    the channel after the import as it did during it, Read on the imported
    state saves that very state. *)
Theorem channelPermission_Read_after_ImportState
        {W : Type} (c : Session W) (importID : string) (s s1 : W)
        (m : channelPermissionResourceModel) (r : Response _) :
  (forall id, fst (Session_Channel c id s1) = fst (Session_Channel c id s)) ->
  channelPermissionResource_ImportState (Some c) importID s = (r, s1) ->
  RespState r = StateSet m ->
  perm_ChannelID m <> StringValue "" ->
  fst (channelPermissionResource_Read (Some c) m s1)
  = {| RespDiagnostics := []; RespState := StateSet m |}.
Proof.
  intros Hstable Himp Hset Hne.
  unfold channelPermissionResource_ImportState in Himp.
  destruct (channelPermissionResource_ImportState_parse importID) as [d|p] eqn:Ep;
    [injection Himp as <- <-; discriminate |].
  destruct (Session_Channel c (channelID p) s) as [[ch|e] s'] eqn:Ec;
    [| injection Himp as <- <-; discriminate].
  destruct (find_overwrite (overwriteID p) (overwriteType p)
              (ch_PermissionOverwrites ch)) as [fo|] eqn:Ef;
    [| injection Himp as <- <-; discriminate].
  injection Himp as <- <-. cbn in Hset. injection Hset as <-.
  pose proof (parse_type_tag importID p Ep) as Hty.
  unfold channelPermissionResource_Read. cbn [permission_state perm_ChannelID
    perm_Type perm_OverwriteID ValueString].
  cbn [permission_state perm_ChannelID] in Hne.
  destruct (String.eqb_spec (channelID p) "") as [E |]; [congruence |].
  rewrite Hty.
  pose proof (Hstable (channelID p)) as Hst. rewrite Ec in Hst. cbn in Hst.
  destruct (Session_Channel c (channelID p) s') as [r2 s2]. cbn in Hst. subst r2.
  now rewrite Ef.
Qed.

Lemma channelPermission_Read_after_ImportState_witness :
  let w := {| world_overwrites :=
                [{| ow_ID := "7"; ow_Type := PermissionOverwriteTypeMember;
                    ow_Allow := 8; ow_Deny := 16 |}];
              world_roles := [] |} in
  fst (channelPermissionResource_Read (Some world_session)
         (permission_state "100" "member" "7" 8 16) w)
  = {| RespDiagnostics := [];
       RespState := StateSet (permission_state "100" "member" "7" 8 16) |}.
Proof.
  cbv zeta.
  match goal with
  | |- fst (channelPermissionResource_Read _ ?m ?w) = ?r =>
      apply (channelPermission_Read_after_ImportState world_session
               "100:7:member" w w m r)
  end.
  - reflexivity.
  - reflexivity.
  - reflexivity.
  - discriminate.
Defined.

(** ** The handlers of the role-member resource *)

(** X12: Read keeps a membership exactly when Discord knows the member and
    the role is among the member's roles; the state it saves then carries
    the ID [guild_id:role_id:user_id].  In every other case, the member
    gone or the role taken away, it removes the resource from the state
    with a warning; once the three IDs are in the state it never reports
    an error. *)
Theorem roleMember_Read_keeps
        {W : Type} (c : Session W) (data : roleMemberResourceModel) (s : W) :
  let guildID := ValueString (rm_GuildID data) in
  let roleID := ValueString (rm_RoleID data) in
  let userID := ValueString (rm_UserID data) in
  let resp := fst (roleMemberResource_Read (Some c) data s) in
  guildID <> "" -> roleID <> "" -> userID <> "" ->
  HasError (RespDiagnostics resp) = false /\
  ((exists member,
       fst (Session_GuildMember c guildID userID s) = inl member /\
       In roleID (member_Roles member)) ->
   resp = {| RespDiagnostics := [];
             RespState := StateSet (with_composite_ID data guildID roleID userID) |}) /\
  (~ (exists member,
         fst (Session_GuildMember c guildID userID s) = inl member /\
         In roleID (member_Roles member)) ->
   RespState resp = StateRemoved /\
   exists summary, RespDiagnostics resp = [AddWarning summary]).
Proof.
  intros guildID roleID userID resp Hg Hr Hu. unfold resp.
  unfold roleMemberResource_Read. fold guildID roleID userID.
  destruct (String.eqb_spec guildID ""); [contradiction |].
  destruct (String.eqb_spec roleID ""); [contradiction |].
  destruct (String.eqb_spec userID ""); [contradiction |].
  cbn [orb].
  destruct (Session_GuildMember c guildID userID s) as [[member | e] s1]; cbn [fst].
  - destruct (existsb (fun memberRoleID => (memberRoleID =? roleID)%string)
                (member_Roles member)) eqn:Ex; cbn [negb fst].
    + split; [reflexivity |]. split; [reflexivity |].
      intros Hno. exfalso. apply Hno. exists member. split; [reflexivity |].
      apply existsb_exists in Ex as (x & Hin & Hx).
      apply String.eqb_eq in Hx. now subst x.
    + split; [reflexivity |]. split.
      * intros (m & Hm & Hin). exfalso.
        assert (m = member) by congruence. subst m.
        assert (existsb (fun memberRoleID => (memberRoleID =? roleID)%string)
                  (member_Roles member) = true); [| congruence].
        apply existsb_exists. exists roleID. split; [assumption |].
        apply String.eqb_refl.
      * intros _. split; [reflexivity |]. eexists. reflexivity.
  - split; [reflexivity |]. split.
    + intros (m & Hm & _). discriminate.
    + intros _. split; [reflexivity |]. eexists. reflexivity.
Qed.

Lemma roleMember_Read_keeps_witness :
  let data := {| rm_ID := StringNull; rm_GuildID := StringValue "1";
                 rm_RoleID := StringValue "2"; rm_UserID := StringValue "3" |} in
  fst (roleMemberResource_Read (Some world_session) data
         {| world_overwrites := []; world_roles := ["9"; "2"] |})
  = {| RespDiagnostics := [];
       RespState := StateSet (with_composite_ID data "1" "2" "3") |}.
Proof.
  cbv zeta.
  match goal with
  | |- fst (roleMemberResource_Read (Some ?c) ?d ?w) = _ =>
      destruct (roleMember_Read_keeps c d w) as (_ & H & _);
      [discriminate | discriminate | discriminate | apply H]
  end.
  eexists. split; [reflexivity |]. cbn. tauto.
Defined.

(** X13: Update writes the state exactly when it reports no error, and
    what it writes is the plan under the ID [guild_id:role_id:user_id] of
    the plan.  With the three IDs unchanged it asks Discord nothing.  Its
    only error is the failure to add the user to the new role: a failure
    to remove the old membership is a warning and does not stop it. *)
Theorem roleMember_Update_outcomes
        {W : Type} (c : Session W) (plan state : roleMemberResourceModel) (s : W) :
  let guildID := ValueString (rm_GuildID plan) in
  let roleID := ValueString (rm_RoleID plan) in
  let userID := ValueString (rm_UserID plan) in
  let resp := fst (roleMemberResource_Update (Some c) plan state s) in
  (ValueString (rm_GuildID state) = guildID ->
   ValueString (rm_RoleID state) = roleID ->
   ValueString (rm_UserID state) = userID ->
   roleMemberResource_Update (Some c) plan state s
   = ({| RespDiagnostics := [];
         RespState := StateSet (with_composite_ID plan guildID roleID userID) |}, s)) /\
  (HasError (RespDiagnostics resp) = false ->
   RespState resp = StateSet (with_composite_ID plan guildID roleID userID)) /\
  (HasError (RespDiagnostics resp) = true ->
   RespState resp = StateUntouched /\
   In (AddError "Error Adding User to New Role") (RespDiagnostics resp) /\
   guildID <> "" /\ roleID <> "" /\ userID <> "") /\
  (forall d, In d (RespDiagnostics resp) ->
             d = AddWarning "Error Removing Old Role Membership" \/
             d = AddError "Error Adding User to New Role").
Proof.
  intros guildID roleID userID resp. unfold resp.
  unfold roleMemberResource_Update. fold guildID roleID userID.
  split.
  - intros -> -> ->. now rewrite !String.eqb_refl.
  - destruct (negb (ValueString (rm_GuildID state) =? guildID)%string
              || negb (ValueString (rm_RoleID state) =? roleID)%string
              || negb (ValueString (rm_UserID state) =? userID)%string).
    2: { cbn. repeat split; try discriminate; try reflexivity. tauto. }
    set (removed :=
           if negb (ValueString (rm_GuildID state) =? "")%string
              && negb (ValueString (rm_RoleID state) =? "")%string
              && negb (ValueString (rm_UserID state) =? "")%string
           then
             let '(err, s0) :=
               Session_GuildMemberRoleRemove c (ValueString (rm_GuildID state))
                 (ValueString (rm_UserID state)) (ValueString (rm_RoleID state)) s in
             match err with
             | Some _ => ([AddWarning "Error Removing Old Role Membership"], s0)
             | None => ([], s0)
             end
           else ([], s)).
    assert (Hw : fst removed = [] \/
                 fst removed = [AddWarning "Error Removing Old Role Membership"]).
    { unfold removed.
      destruct (_ && _ : bool); [| now left].
      destruct (Session_GuildMemberRoleRemove c _ _ _ s) as [[e|] s0];
        [now right | now left]. }
    destruct removed as [warnings s1]. cbn [fst] in Hw.
    destruct (String.eqb_spec guildID "") as [Eg | Eg]; cbn [negb andb].
    { destruct Hw as [-> | ->]; cbn; repeat split; try discriminate;
        try reflexivity; intros d Hd; cbn in Hd; intuition. }
    destruct (String.eqb_spec roleID "") as [Er | Er]; cbn [negb andb].
    { destruct Hw as [-> | ->]; cbn; repeat split; try discriminate;
        try reflexivity; intros d Hd; cbn in Hd; intuition. }
    destruct (String.eqb_spec userID "") as [Eu | Eu]; cbn [negb andb].
    { destruct Hw as [-> | ->]; cbn; repeat split; try discriminate;
        try reflexivity; intros d Hd; cbn in Hd; intuition. }
    destruct (Session_GuildMemberRoleAdd c guildID userID roleID s1) as [[e|] s2];
      destruct Hw as [-> | ->]; cbn; repeat split; try discriminate;
        try reflexivity; try assumption; try tauto;
        intros d Hd; cbn in Hd; intuition.
Qed.

Lemma roleMember_Update_outcomes_witness :
  let plan := {| rm_ID := StringUnknown; rm_GuildID := StringValue "1";
                 rm_RoleID := StringValue "2"; rm_UserID := StringValue "3" |} in
  let state := {| rm_ID := StringValue "1:2:3"; rm_GuildID := StringValue "1";
                  rm_RoleID := StringValue "2"; rm_UserID := StringValue "3" |} in
  let w := {| world_overwrites := []; world_roles := ["2"] |} in
  roleMemberResource_Update (Some world_session) plan state w
  = ({| RespDiagnostics := [];
        RespState := StateSet (with_composite_ID plan "1" "2" "3") |}, w).
Proof.
  cbv zeta.
  match goal with
  | |- roleMemberResource_Update (Some ?c) ?p ?st ?w = _ =>
      exact (proj1 (roleMember_Update_outcomes c p st w) eq_refl eq_refl eq_refl)
  end.
Defined.

(** X14: Read after Create of the role-member resource.  On a Discord that
    lists among a member's roles the role it has just added, the state
    that Create saved is the state that a Read straight after it saves:
    the refresh finds nothing to change. *)
Theorem roleMember_Read_after_Create
        {W : Type} (c : Session W) (data m : roleMemberResourceModel) (s s1 : W) :
  (forall guildID userID roleID w w',
      Session_GuildMemberRoleAdd c guildID userID roleID w = (None, w') ->
      exists member,
        fst (Session_GuildMember c guildID userID w') = inl member /\
        In roleID (member_Roles member)) ->
  roleMemberResource_Create (Some c) data s
  = ({| RespDiagnostics := []; RespState := StateSet m |}, s1) ->
  fst (roleMemberResource_Read (Some c) m s1)
  = {| RespDiagnostics := []; RespState := StateSet m |}.
Proof.
  intros Hlaw Hcreate.
  unfold roleMemberResource_Create in Hcreate.
  destruct (String.eqb_spec (ValueString (rm_GuildID data)) "") as [| Ng];
    [discriminate |].
  destruct (String.eqb_spec (ValueString (rm_RoleID data)) "") as [| Nr];
    [discriminate |].
  destruct (String.eqb_spec (ValueString (rm_UserID data)) "") as [| Nu];
    [discriminate |].
  destruct (Session_GuildMemberRoleAdd c (ValueString (rm_GuildID data))
              (ValueString (rm_UserID data)) (ValueString (rm_RoleID data)) s)
    as [[e |] s'] eqn:Eadd; [discriminate |].
  injection Hcreate as Hm Hs. subst s'.
  destruct (Hlaw _ _ _ _ _ Eadd) as (member & Hmember & Hin).
  subst m. unfold roleMemberResource_Read, with_composite_ID.
  cbn [rm_GuildID rm_RoleID rm_UserID rm_ID].
  destruct (String.eqb_spec (ValueString (rm_GuildID data)) ""); [contradiction |].
  destruct (String.eqb_spec (ValueString (rm_RoleID data)) ""); [contradiction |].
  destruct (String.eqb_spec (ValueString (rm_UserID data)) ""); [contradiction |].
  cbn [orb].
  destruct (Session_GuildMember c (ValueString (rm_GuildID data))
              (ValueString (rm_UserID data)) s1) as [r2 s2].
  cbn [fst] in Hmember. subst r2.
  assert (Hex : existsb (fun memberRoleID =>
                           (memberRoleID =? ValueString (rm_RoleID data))%string)
                  (member_Roles member) = true).
  { apply existsb_exists. exists (ValueString (rm_RoleID data)).
    split; [assumption | apply String.eqb_refl]. }
  rewrite Hex. reflexivity.
Qed.

Lemma roleMember_Read_after_Create_witness :
  let m := {| rm_ID := StringValue "1:2:3"; rm_GuildID := StringValue "1";
              rm_RoleID := StringValue "2"; rm_UserID := StringValue "3" |} in
  fst (roleMemberResource_Read (Some world_session) m
         {| world_overwrites := []; world_roles := ["2"; "9"] |})
  = {| RespDiagnostics := []; RespState := StateSet m |}.
Proof.
  cbv zeta.
  match goal with
  | |- fst (roleMemberResource_Read _ ?m ?w1) = _ =>
      apply (roleMember_Read_after_Create world_session
               {| rm_ID := StringUnknown; rm_GuildID := StringValue "1";
                  rm_RoleID := StringValue "2"; rm_UserID := StringValue "3" |}
               m {| world_overwrites := []; world_roles := ["9"] |} w1)
  end.
  - intros guildID userID roleID w w' H. injection H as <-.
    eexists. split; [reflexivity |]. cbn. now left.
  - reflexivity.
Defined.

(** ** The handlers of the channel resource *)

Lemma tfString_Equal_refl (v : tfString) : tfString_Equal v v = true.
Proof. destruct v; cbn; auto using String.eqb_refl. Qed.

Lemma tfInt64_Equal_refl (v : tfInt64) : tfInt64_Equal v v = true.
Proof. destruct v; cbn; auto using Z.eqb_refl. Qed.

Section ChannelResource.

Context {types : ChannelTypes}.

(** The case labels of the [switch] of [channelTypeToString] are
    distinct constants. *)
Hypothesis labels_distinct : NoDup case_labels.

Lemma channelTypeFromString_cases (typeStr : string) :
  (In typeStr ["text"; ""; "voice"; "category"; "media"; "directory"] /\
   snd (channelTypeFromString typeStr) = None /\
   In (fst (channelTypeFromString typeStr))
      [ChannelTypeGuildText; ChannelTypeGuildVoice; ChannelTypeGuildCategory;
       ChannelTypeGuildMedia; ChannelTypeGuildDirectory] /\
   channelTypeToString (fst (channelTypeFromString typeStr))
   = (if (typeStr =? "")%string then "text" else typeStr)) \/
  (~ In typeStr ["text"; ""; "voice"; "category"; "media"; "directory"] /\
   snd (channelTypeFromString typeStr) <> None).
Proof.
  destruct (channelTypeToString_labels labels_distinct)
    as (Ht & Hv & Hc & Hn & Hs & Hf & Hm & Hd).
  unfold channelTypeFromString.
  destruct (String.eqb_spec typeStr "text") as [-> | N1];
    [left; cbn; rewrite Ht; tauto |].
  destruct (String.eqb_spec typeStr "") as [-> | N2];
    [left; cbn; rewrite Ht; tauto |].
  cbn [orb].
  destruct (String.eqb_spec typeStr "voice") as [-> | N3];
    [left; cbn; rewrite Hv; tauto |].
  destruct (String.eqb_spec typeStr "category") as [-> | N4];
    [left; cbn; rewrite Hc; tauto |].
  destruct (String.eqb_spec typeStr "media") as [-> | N5];
    [left; cbn; rewrite Hm; tauto |].
  destruct (String.eqb_spec typeStr "directory") as [-> | N6];
    [left; cbn; rewrite Hd; tauto |].
  right. cbn. split; [| discriminate].
  intros [E | [E | [E | [E | [E | [E | []]]]]]]; congruence.
Qed.

Lemma creatable_not_refused (channelType : Z) :
  In channelType
     [ChannelTypeGuildText; ChannelTypeGuildVoice; ChannelTypeGuildCategory;
      ChannelTypeGuildMedia; ChannelTypeGuildDirectory] ->
  (channelType =? ChannelTypeGuildNews) = false /\
  (channelType =? ChannelTypeGuildStageVoice) = false /\
  (channelType =? ChannelTypeGuildForum) = false.
Proof.
  intros Hin.
  pose proof labels_distinct as H. unfold case_labels in H.
  repeat match type of H with
         | NoDup (_ :: _) =>
             let Hn := fresh "Hn" in
             apply NoDup_cons_iff in H as [Hn H]; cbn [In] in Hn
         end.
  clear H. cbn [In] in Hin.
  repeat split; apply Z.eqb_neq; intros E; subst channelType; intuition congruence.
Qed.

(** X15: what [channelResource.Create] sends to Discord.  When it reaches
    the call, the type it sends is one of the five that
    [channelTypeFromString] produces (text, voice, category, media,
    directory), never news, stage or forum; [channelTypeToString] gives
    that type the name that was asked for ([text] when none or the empty
    one was); a category is never sent with a parent; the guild ID and the
    name are those of the plan and not empty.  When it stops with
    "Invalid Channel Type" the plan's type is a name that
    [channelTypeFromString] refuses: the three branches of Create that
    refuse the news, stage and forum types are never taken. *)
Theorem channelResource_Create_request_types (data : channelResourceModel) :
  match channelResource_Create_request true data with
  | inr (guildID, channelData) =>
      In (create_Type channelData)
         [ChannelTypeGuildText; ChannelTypeGuildVoice; ChannelTypeGuildCategory;
          ChannelTypeGuildMedia; ChannelTypeGuildDirectory] /\
      channelTypeToString (create_Type channelData)
      = (if provided (chan_Type data) then ValueString (chan_Type data) else "text") /\
      (create_Type channelData = ChannelTypeGuildCategory ->
       create_ParentID channelData = "") /\
      guildID = ValueString (chan_GuildID data) /\ guildID <> "" /\
      create_Name channelData = ValueString (chan_Name data) /\
      create_Name channelData <> ""
  | inl summary =>
      summary = "Invalid Channel Type" ->
      exists typeStr,
        chan_Type data = StringValue typeStr /\
        ~ In typeStr ["text"; ""; "voice"; "category"; "media"; "directory"]
  end.
Proof.
  destruct (channelTypeToString_labels labels_distinct)
    as (Ht & Hv & Hc & Hn & Hs & Hf & Hm & Hd).
  unfold channelResource_Create_request. cbn [negb].
  destruct (String.eqb_spec (ValueString (chan_GuildID data)) "") as [Eg | Ng];
    [discriminate |].
  destruct (String.eqb_spec (ValueString (chan_Name data)) "") as [En | Nn];
    [discriminate |].
  assert (Hty :
    let r := if negb (IsNull (chan_Type data)) && negb (IsUnknown (chan_Type data))
             then channelTypeFromString (ValueString (chan_Type data))
             else (ChannelTypeGuildText, None) in
    (snd r = None /\
     In (fst r) [ChannelTypeGuildText; ChannelTypeGuildVoice; ChannelTypeGuildCategory;
                 ChannelTypeGuildMedia; ChannelTypeGuildDirectory] /\
     channelTypeToString (fst r)
     = (if provided (chan_Type data) then ValueString (chan_Type data) else "text")) \/
    (snd r <> None /\
     exists typeStr,
       chan_Type data = StringValue typeStr /\
       ~ In typeStr ["text"; ""; "voice"; "category"; "media"; "directory"])).
  { destruct (chan_Type data) as [| | typeStr]; cbn [IsNull IsUnknown negb andb provided].
    - left. cbn. rewrite Ht. tauto.
    - left. cbn. rewrite Ht. tauto.
    - cbn [ValueString].
      destruct (channelTypeFromString_cases typeStr) as [(_ & Hs1 & Hin & Hname) | (Hno & Hs1)].
      + left. repeat split; try assumption. rewrite Hname.
        now destruct (typeStr =? "")%string.
      + right. split; [assumption |]. now exists typeStr. }
  cbv zeta in Hty.
  destruct (if negb (IsNull (chan_Type data)) && negb (IsUnknown (chan_Type data))
            then channelTypeFromString (ValueString (chan_Type data))
            else (ChannelTypeGuildText, None)) as [channelType err].
  cbn [fst snd] in Hty.
  destruct Hty as [(-> & Hin & Hname) | (Herr & Hex)].
  2: { destruct err; [intros _; exact Hex | congruence]. }
  destruct (creatable_not_refused channelType Hin) as (-> & -> & ->).
  destruct (Z.eqb_spec channelType ChannelTypeGuildCategory) as [Ec | Nc];
    destruct (negb (IsNull (chan_CategoryID data))
              && negb (IsUnknown (chan_CategoryID data))) eqn:Ecat;
    cbn [andb]; try discriminate; cbn [create_Type create_Name create_ParentID];
    repeat split; try assumption; try reflexivity; try contradiction.
Qed.

End ChannelResource.

Lemma channelResource_Create_request_types_witness :
  NoDup (@case_labels discordgo) /\
  @channelResource_Create_request discordgo true
    {| chan_ID := StringUnknown; chan_Name := StringValue "rules";
       chan_Type := StringValue "category"; chan_GuildID := StringValue "1";
       chan_CategoryID := StringNull; chan_Position := Int64Null |}
  = inr ("1", {| create_Name := "rules"; create_Type := 4; create_ParentID := "" |}) /\
  @channelTypeToString discordgo 4 = "category".
Proof.
  split; [exact discordgo_distinct |]. split; [reflexivity |].
  exact (proj1 (proj2 (@channelResource_Create_request_types discordgo discordgo_distinct
    {| chan_ID := StringUnknown; chan_Name := StringValue "rules";
       chan_Type := StringValue "category"; chan_GuildID := StringValue "1";
       chan_CategoryID := StringNull; chan_Position := Int64Null |}))).
Defined.

(** X16: Read of the channel resource is idempotent.  When Read saved a
    state whose channel ID is not empty, and Discord answers the fetch by
    that ID as it answered the fetch before, a second Read saves the same
    state: a null position and a null category stay null, a known one
    follows Discord. *)
Theorem channelResource_Read_idempotent
        {types : ChannelTypes} {W : Type} (c : Session W)
        (data m : channelResourceModel) (s s1 : W) :
  channelResource_Read (Some c) data s
  = ({| RespDiagnostics := []; RespState := StateSet m |}, s1) ->
  chan_ID m <> StringValue "" ->
  fst (Session_Channel c (ValueString (chan_ID m)) s1)
  = fst (Session_Channel c (ValueString (chan_ID data)) s) ->
  fst (channelResource_Read (Some c) m s1)
  = {| RespDiagnostics := []; RespState := StateSet m |}.
Proof.
  intros Hread Hne Hsame.
  unfold channelResource_Read in Hread.
  destruct (ValueString (chan_ID data) =? "")%string; [discriminate |].
  destruct (Session_Channel c (ValueString (chan_ID data)) s) as [[channel | e] s'];
    [| discriminate].
  cbn [fst] in Hsame.
  injection Hread as Hm Hs. subst s'. subst m.
  cbn [chan_ID ValueString] in Hne, Hsame.
  unfold channelResource_Read.
  cbn [chan_ID chan_Position chan_CategoryID ValueString].
  destruct (String.eqb_spec (ch_ID channel) "") as [E | _]; [congruence |].
  destruct (Session_Channel c (ch_ID channel) s1) as [r2 s2].
  cbn [fst] in Hsame. subst r2. cbn [fst].
  destruct (chan_Position data), (chan_CategoryID data);
    cbn [IsNull IsUnknown IsNullInt64 IsUnknownInt64 negb andb];
    try reflexivity;
    destruct (ch_ParentID channel =? "")%string; reflexivity.
Qed.

Lemma channelResource_Read_idempotent_witness :
  let w := {| world_overwrites := []; world_roles := [] |} in
  let m := {| chan_ID := StringValue "100"; chan_Name := StringValue "general";
              chan_Type := StringValue "text"; chan_GuildID := StringValue "1";
              chan_CategoryID := StringNull; chan_Position := Int64Null |} in
  fst (@channelResource_Read discordgo _ (Some world_session) m w)
  = {| RespDiagnostics := []; RespState := StateSet m |}.
Proof.
  cbv zeta.
  match goal with
  | |- fst (channelResource_Read _ ?m ?w) = _ =>
      apply (@channelResource_Read_idempotent discordgo _ world_session
               {| chan_ID := StringValue "100"; chan_Name := StringValue "old name";
                  chan_Type := StringNull; chan_GuildID := StringNull;
                  chan_CategoryID := StringNull; chan_Position := Int64Null |}
               m w w)
  end.
  - reflexivity.
  - discriminate.
  - reflexivity.
Defined.

(** X17: a state that ImportState of the channel resource saved is one
    Read keeps.  When the imported channel has an ID and Discord answers
    the fetch by that ID as it answered the fetch by the import ID, Read on
    the imported state saves that very state. *)
Theorem channelResource_Read_after_ImportState
        {types : ChannelTypes} {W : Type} (c : Session W)
        (importID : string) (m : channelResourceModel) (s s1 : W) :
  channelResource_ImportState (Some c) importID s
  = ({| RespDiagnostics := []; RespState := StateSet m |}, s1) ->
  chan_ID m <> StringValue "" ->
  fst (Session_Channel c (ValueString (chan_ID m)) s1)
  = fst (Session_Channel c importID s) ->
  fst (channelResource_Read (Some c) m s1)
  = {| RespDiagnostics := []; RespState := StateSet m |}.
Proof.
  intros Himp Hne Hsame.
  unfold channelResource_ImportState in Himp.
  destruct (Session_Channel c importID s) as [[channel | e] s'];
    [| discriminate].
  cbn [fst] in Hsame.
  injection Himp as Hm Hs. subst s'. subst m.
  cbn [chan_ID ValueString] in Hne, Hsame.
  unfold channelResource_Read.
  cbn [chan_ID chan_Position chan_CategoryID ValueString].
  destruct (String.eqb_spec (ch_ID channel) "") as [E | _]; [congruence |].
  destruct (Session_Channel c (ch_ID channel) s1) as [r2 s2].
  cbn [fst] in Hsame. subst r2. cbn [fst].
  destruct (ch_ParentID channel =? "")%string; reflexivity.
Qed.

Lemma channelResource_Read_after_ImportState_witness :
  let w := {| world_overwrites := []; world_roles := [] |} in
  let m := {| chan_ID := StringValue "100"; chan_Name := StringValue "general";
              chan_Type := StringValue "text"; chan_GuildID := StringValue "1";
              chan_CategoryID := StringNull; chan_Position := Int64Value 0 |} in
  fst (@channelResource_Read discordgo _ (Some world_session) m w)
  = {| RespDiagnostics := []; RespState := StateSet m |}.
Proof.
  cbv zeta.
  match goal with
  | |- fst (channelResource_Read _ ?m ?w) = _ =>
      apply (@channelResource_Read_after_ImportState discordgo _ world_session
               "100" m w w)
  end.
  - reflexivity.
  - discriminate.
  - reflexivity.
Defined.

(** X18: Update of the channel resource with nothing to send.  With the
    plan equal to the state it asks Discord nothing and saves the state
    again, without a diagnostic.  With the plan differing from the state in
    the type alone it asks Discord nothing either and warns that the
    change is ignored, yet the state it saves carries the planned type. *)
Theorem channelResource_Update_nothing_to_send
        {types : ChannelTypes} {W : Type} (c : Session W)
        (state : channelResourceModel) (s : W) :
  ValueString (chan_ID state) <> "" ->
  channelResource_Update (Some c) state state s
  = ({| RespDiagnostics := []; RespState := StateSet state |}, s) /\
  forall newType,
    chan_Type state <> StringValue newType ->
    let plan := {| chan_ID := chan_ID state; chan_Name := chan_Name state;
                   chan_Type := StringValue newType;
                   chan_GuildID := chan_GuildID state;
                   chan_CategoryID := chan_CategoryID state;
                   chan_Position := chan_Position state |} in
    channelResource_Update (Some c) plan state s
    = ({| RespDiagnostics := [AddWarning "Channel Type Change"];
          RespState := StateSet plan |}, s).
Proof.
  intros Hid. split.
  - unfold channelResource_Update.
    destruct (String.eqb_spec (ValueString (chan_ID state)) "") as [E | _];
      [contradiction |].
    rewrite !tfString_Equal_refl, tfInt64_Equal_refl. cbn [negb andb].
    destruct state as [sid sname stype sguild scat spos]; cbn.
    now destruct stype.
  - intros newType Hty plan. unfold channelResource_Update.
    destruct (String.eqb_spec (ValueString (chan_ID state)) "") as [E | _];
      [contradiction |].
    unfold plan. cbn [chan_Name chan_CategoryID chan_Position chan_Type chan_ID
                      chan_GuildID].
    rewrite !tfString_Equal_refl, tfInt64_Equal_refl. cbn [negb andb].
    assert (Hneq : tfString_Equal (StringValue newType) (chan_Type state) = false).
    { destruct (chan_Type state) as [| | t]; cbn; try reflexivity.
      apply String.eqb_neq. congruence. }
    rewrite Hneq. reflexivity.
Qed.

Lemma channelResource_Update_nothing_to_send_witness :
  let w := {| world_overwrites := []; world_roles := [] |} in
  let state := {| chan_ID := StringValue "100"; chan_Name := StringValue "general";
                  chan_Type := StringValue "text"; chan_GuildID := StringValue "1";
                  chan_CategoryID := StringNull; chan_Position := Int64Null |} in
  @channelResource_Update discordgo _ (Some world_session)
    {| chan_ID := StringValue "100"; chan_Name := StringValue "general";
       chan_Type := StringValue "voice"; chan_GuildID := StringValue "1";
       chan_CategoryID := StringNull; chan_Position := Int64Null |} state w
  = ({| RespDiagnostics := [AddWarning "Channel Type Change"];
        RespState :=
          StateSet {| chan_ID := StringValue "100"; chan_Name := StringValue "general";
                      chan_Type := StringValue "voice"; chan_GuildID := StringValue "1";
                      chan_CategoryID := StringNull; chan_Position := Int64Null |} |}, w).
Proof.
  cbv zeta.
  match goal with
  | |- channelResource_Update (Some ?c) _ ?st ?w = _ =>
      refine (proj2 (@channelResource_Update_nothing_to_send discordgo _ c st w _)
                "voice" _); discriminate
  end.
Defined.

(** ** The handlers of the message resource *)

Lemma len_empty (s : string) : len s < 1 <-> s = "".
Proof.
  unfold len. destruct s; cbn [String.length]; split; intros H;
    try reflexivity; try lia; discriminate.
Qed.

(** X19: what [messageResource.Create] sends.  It reaches the call exactly
    when the channel ID is not empty and the content is known and 1 to
    2000 bytes long; it then sends that content, with TTS as planned and
    off when unset.  It reports "Invalid Message Content" exactly for a
    content of more than 2000 bytes: an empty content is reported as
    missing before its length is looked at. *)
Theorem messageResource_Create_sends (data : messageResourceModel) :
  (forall channelID message,
      messageResource_Create_request true data = inr (channelID, message) <->
      channelID = ValueString (msg_ChannelID data) /\ channelID <> "" /\
      msg_Content data = StringValue (send_Content message) /\
      1 <= len (send_Content message) <= 2000 /\
      send_TTS message = ValueBool (msg_TTS data)) /\
  (messageResource_Create_request true data = inl "Invalid Message Content" <->
   ValueString (msg_ChannelID data) <> "" /\
   2000 < len (ValueString (msg_Content data))) /\
  (messageResource_Create_request true data = inl "Missing Message Content" <->
   ValueString (msg_ChannelID data) <> "" /\
   ValueString (msg_Content data) = "").
Proof.
  unfold messageResource_Create_request. cbn [negb].
  assert (Htts : (if negb (IsNullBool (msg_TTS data))
                     && negb (IsUnknownBool (msg_TTS data))
                  then ValueBool (msg_TTS data) else false)
                 = ValueBool (msg_TTS data)) by now destruct (msg_TTS data).
  rewrite Htts. clear Htts.
  assert (Hcontent : (if negb (IsNull (msg_Content data))
                         && negb (IsUnknown (msg_Content data))
                      then ValueString (msg_Content data) else "")
                     = ValueString (msg_Content data))
    by now destruct (msg_Content data).
  rewrite Hcontent. clear Hcontent.
  destruct (String.eqb_spec (ValueString (msg_ChannelID data)) "") as [Ec | Nc].
  { repeat split; try discriminate; intros; intuition congruence. }
  destruct (String.eqb_spec (ValueString (msg_Content data)) "") as [Em | Nm].
  { split; [| split].
    - intros channelID message. split; [discriminate |].
      intros (_ & _ & Hc & Hlen & _). rewrite Hc in Em. cbn in Em.
      rewrite Em in Hlen. cbn in Hlen. lia.
    - split; [discriminate |]. intros (_ & Hlen). rewrite Em in Hlen.
      cbn in Hlen. lia.
    - tauto. }
  assert (Hpos : 1 <= len (ValueString (msg_Content data))).
  { destruct (Z_lt_le_dec (len (ValueString (msg_Content data))) 1) as [Hlt |];
      [| assumption].
    apply len_empty in Hlt. contradiction. }
  destruct (Z.ltb_spec (len (ValueString (msg_Content data))) 1) as [Hlt | _];
    [lia |].
  cbn [orb].
  destruct (Z.gtb_spec (len (ValueString (msg_Content data))) 2000) as [Hgt | Hle].
  - split; [| split].
    + intros channelID message. split; [discriminate |].
      intros (_ & _ & Hc & Hlen & _). rewrite Hc in Hgt. cbn in Hgt. lia.
    + split; [intros _; split; [assumption | lia] | reflexivity].
    + split; [discriminate | intros (_ & E); contradiction].
  - split; [| split].
    + intros channelID message. split.
      * intros [= <- <-]. cbn [send_Content send_TTS].
        repeat split; try assumption.
        destruct (msg_Content data); cbn in *; congruence.
      * intros (-> & _ & Hc & _ & Ht). destruct message as [content tts].
        cbn [send_Content send_TTS] in *. rewrite Hc. cbn. now subst tts.
    + split; [discriminate | intros (_ & Hlen); lia].
    + split; [discriminate | intros (_ & E); contradiction].
Qed.

(** X20: Update of a message does not ask for a content.  With the same
    channel in plan and state and a message ID in the state, a plan whose
    content is null, unknown or empty makes Update send the empty content
    as the edit, where Create stops with "Missing Message Content"; what
    Update sends is never longer than 2000 bytes, and the message it edits
    is the one named by [message_id], or by [id] when that is empty. *)
Theorem messageResource_Update_sends (plan state : messageResourceModel) :
  (forall channelID messageID newContent,
      messageResource_Update_request true plan state
      = inr (channelID, messageID, newContent) ->
      inr (channelID, messageID) = messageResource_Read_request true state /\
      channelID = ValueString (msg_ChannelID plan) /\
      newContent = ValueString (msg_Content plan) /\
      len newContent <= 2000) /\
  (provided (msg_Content plan) = false ->
   forall target,
     messageResource_Read_request true state = inr target ->
     ValueString (msg_ChannelID plan) = ValueString (msg_ChannelID state) ->
     messageResource_Update_request true plan state = inr (target, "") /\
     messageResource_Create_request true plan = inl "Missing Message Content").
Proof.
  unfold messageResource_Update_request, messageResource_Read_request,
    messageResource_Create_request.
  cbn [negb].
  assert (Hcontent : (if negb (IsNull (msg_Content plan))
                         && negb (IsUnknown (msg_Content plan))
                      then ValueString (msg_Content plan) else "")
                     = ValueString (msg_Content plan))
    by now destruct (msg_Content plan).
  rewrite Hcontent. clear Hcontent.
  set (messageID := if (ValueString (msg_MessageID state) =? "")%string
                    then ValueString (msg_ID state)
                    else ValueString (msg_MessageID state)).
  split.
  - intros channelID mid newContent.
    destruct ((ValueString (msg_ChannelID state) =? "")%string
              || (messageID =? "")%string); [discriminate |].
    destruct (String.eqb_spec (ValueString (msg_ChannelID plan))
                (ValueString (msg_ChannelID state))) as [Eq | Nq];
      cbn [negb]; [| discriminate].
    destruct (String.eqb_spec (ValueString (msg_Content plan)) "") as [Em | Nm];
      cbn [negb andb].
    + intros [= <- <- <-]. rewrite Em. cbn. repeat split; try congruence; try lia.
    + destruct (Z.ltb_spec (len (ValueString (msg_Content plan))) 1);
        cbn [orb]; [discriminate |].
      destruct (Z.gtb_spec (len (ValueString (msg_Content plan))) 2000);
        [discriminate |].
      intros [= <- <- <-]. repeat split; try congruence; try assumption.
  - intros Hnot target Htarget Hsame.
    assert (Hempty : ValueString (msg_Content plan) = "").
    { destruct (msg_Content plan) as [| | content]; try reflexivity.
      cbn in Hnot. cbn. apply negb_false_iff in Hnot.
      now apply String.eqb_eq in Hnot. }
    rewrite Hempty. cbn [String.eqb negb andb].
    destruct ((ValueString (msg_ChannelID state) =? "")%string
              || (messageID =? "")%string) eqn:Eids; [discriminate |].
    injection Htarget as <-.
    rewrite Hsame. rewrite String.eqb_refl. cbn [negb].
    split; [reflexivity |].
    apply orb_false_iff in Eids as [Ec _]. now rewrite Ec.
Qed.

Lemma messageResource_Update_sends_witness :
  let state := {| msg_ID := StringValue "7"; msg_ChannelID := StringValue "100";
                  msg_Content := StringValue "hello"; msg_TTS := BoolNull;
                  msg_MessageID := StringValue ""; msg_Timestamp := StringNull;
                  msg_EditedAt := StringNull; msg_Author := StringNull |} in
  let plan := {| msg_ID := StringValue "7"; msg_ChannelID := StringValue "100";
                 msg_Content := StringNull; msg_TTS := BoolNull;
                 msg_MessageID := StringValue ""; msg_Timestamp := StringNull;
                 msg_EditedAt := StringNull; msg_Author := StringNull |} in
  messageResource_Update_request true plan state = inr ("100", "7", "") /\
  messageResource_Create_request true plan = inl "Missing Message Content".
Proof.
  cbv zeta.
  match goal with
  | |- messageResource_Update_request true ?p ?st = _ /\ _ =>
      exact (proj2 (messageResource_Update_sends p st) eq_refl ("100", "7")
               eq_refl eq_refl)
  end.
Defined.

(** X21: what Read makes of an imported message.  For an import ID whose
    first colon has bytes on both sides, ImportState succeeds and Read then
    asks Discord for the message named after that colon in the channel
    named before it.  For an import ID whose first colon stands at the
    start or at the end, ImportState succeeds as well, and Read on the
    imported state stops with "Missing Channel or Message ID". *)
Theorem messageResource_Read_after_ImportState (channelID messageID : string) :
  count_colons channelID = O ->
  let imported := messageResource_ImportState (channelID ++ ":" ++ messageID) in
  Diagnostics imported = [] /\
  messageResource_Read_request true (imported_message imported)
  = if (channelID =? "")%string || (messageID =? "")%string
    then inl "Missing Channel or Message ID"
    else inr (channelID, messageID).
Proof.
  intros Hc imported. unfold imported.
  change (channelID ++ ":" ++ messageID)%string
    with (channelID ++ String ":" messageID)%string.
  rewrite (messageResource_ImportState_split channelID messageID Hc).
  cbn [Diagnostics import_state]. split; [reflexivity |].
  unfold messageResource_Read_request, imported_message, imported_attribute.
  cbn [State import_state msg_ChannelID msg_MessageID msg_ID negb].
  destruct (messageID =? "")%string eqn:Em.
  - apply String.eqb_eq in Em. subst messageID. cbn. now rewrite orb_true_r.
  - cbn. rewrite Em. cbn. now rewrite Em.
Qed.

Lemma messageResource_Read_after_ImportState_witness :
  Diagnostics (messageResource_ImportState "100:") = [] /\
  messageResource_Read_request true
    (imported_message (messageResource_ImportState "100:"))
  = inl "Missing Channel or Message ID".
Proof.
  exact (messageResource_Read_after_ImportState "100" "" eq_refl).
Defined.

(** ** The handlers of the invite resource *)

(** X22: what [inviteResource.Create] sends is within Discord's limits:
    a lifetime of 0 to 604800 seconds, 86400 when the plan gives none, and
    0 to 100 uses, 0 when the plan gives none; the channel is that of the
    plan and is not empty. *)
Theorem inviteResource_Create_ranges
        (data : inviteResourceModel) (channelID : string) (invite : Invite) :
  inviteResource_Create_request true data = inr (channelID, invite) ->
  0 <= Invite_MaxAge invite <= 604800 /\
  0 <= Invite_MaxUses invite <= 100 /\
  Invite_MaxAge invite
  = match inv_MaxAge data with Int64Value maxAge => maxAge | _ => 86400 end /\
  Invite_MaxUses invite = ValueInt64 (inv_MaxUses data) /\
  Invite_Temporary invite = ValueBool (inv_Temporary data) /\
  Invite_Unique invite = ValueBool (inv_Unique data) /\
  channelID = ValueString (inv_ChannelID data) /\ channelID <> "".
Proof.
  unfold inviteResource_Create_request. cbn [negb].
  destruct (String.eqb_spec (ValueString (inv_ChannelID data)) "") as [| Nc];
    [discriminate |].
  destruct (inv_MaxAge data) as [| | maxAge], (inv_MaxUses data) as [| | maxUses];
    cbn [IsNullInt64 IsUnknownInt64 ValueInt64 negb andb];
    repeat match goal with
           | |- context [?a <? ?b] => destruct (Z.ltb_spec a b)
           | |- context [?a >? ?b] => destruct (Z.gtb_spec a b)
           end;
    cbn [orb]; try discriminate;
    intros [= <- <-]; cbn [Invite_MaxAge Invite_MaxUses Invite_Temporary Invite_Unique];
    repeat split; try lia; try assumption;
    try (now destruct (inv_Temporary data)); now destruct (inv_Unique data).
Qed.

Lemma inviteResource_Create_ranges_witness :
  let data := {| inv_ID := StringUnknown; inv_Code := StringUnknown;
                 inv_ChannelID := StringValue "100"; inv_MaxAge := Int64Null;
                 inv_MaxUses := Int64Value 5; inv_Temporary := BoolNull;
                 inv_Unique := BoolValue true; inv_URL := StringUnknown;
                 inv_CreatedAt := StringUnknown; inv_ExpiresAt := StringUnknown;
                 inv_Uses := Int64Unknown |} in
  inviteResource_Create_request true data
  = inr ("100", {| Invite_MaxAge := 86400; Invite_MaxUses := 5;
                   Invite_Temporary := false; Invite_Unique := true |}) /\
  0 <= 86400 <= 604800 /\ 0 <= 5 <= 100.
Proof.
  cbv zeta. split; [reflexivity |].
  match goal with
  | |- 0 <= ?a <= _ /\ 0 <= ?u <= _ =>
      pose proof (inviteResource_Create_ranges
        {| inv_ID := StringUnknown; inv_Code := StringUnknown;
           inv_ChannelID := StringValue "100"; inv_MaxAge := Int64Null;
           inv_MaxUses := Int64Value 5; inv_Temporary := BoolNull;
           inv_Unique := BoolValue true; inv_URL := StringUnknown;
           inv_CreatedAt := StringUnknown; inv_ExpiresAt := StringUnknown;
           inv_Uses := Int64Unknown |}
        "100" {| Invite_MaxAge := a; Invite_MaxUses := u;
                 Invite_Temporary := false; Invite_Unique := true |}
        eq_refl) as H
  end.
  exact (conj (proj1 H) (proj1 (proj2 H))).
Defined.

(** X23: Update of an invite recreates it without the checks of Create.
    It stops only for a changed channel or a missing code, never for a
    lifetime or a number of uses out of range.  When it recreates the
    invite it sends what Create sends for the same plan whenever Create
    accepts the plan; a lifetime that the plan leaves out is sent as
    86400 seconds, whatever lifetime the state holds. *)
Theorem inviteResource_Update_recreates (plan state : inviteResourceModel) :
  (forall summary,
      inviteResource_Update_request true plan state = inl summary ->
      summary = "Cannot Change Channel" \/ summary = "Missing Invite Code") /\
  (forall code channelID invite,
      inviteResource_Update_request true plan state
      = inr (code, Some (channelID, invite)) ->
      (forall sent, inviteResource_Create_request true plan = inr sent ->
                    sent = (channelID, invite)) /\
      Invite_MaxAge invite
      = match inv_MaxAge plan with Int64Value maxAge => maxAge | _ => 86400 end /\
      Invite_MaxUses invite = ValueInt64 (inv_MaxUses plan)).
Proof.
  unfold inviteResource_Update_request, inviteResource_Create_request.
  cbn [negb].
  destruct (ValueString (inv_ChannelID plan) =? ValueString (inv_ChannelID state))%string;
    cbn [negb].
  2: { split; [intros summary [= <-]; now left | discriminate]. }
  destruct ((if (ValueString (inv_Code state) =? "")%string
             then ValueString (inv_ID state)
             else ValueString (inv_Code state)) =? "")%string.
  { split; [intros summary [= <-]; now right | discriminate]. }
  match goal with
  | |- context [if ?b then inr (_, Some _) else inr (_, None)] => destruct b
  end.
  2: { split; discriminate. }
  split; [discriminate |].
  intros code channelID invite [= <- <- <-].
  cbn [Invite_MaxAge Invite_MaxUses].
  split; [| split].
  - intros sent.
    destruct (ValueString (inv_ChannelID plan) =? "")%string; [discriminate |].
    destruct (negb (IsNullInt64 (inv_MaxAge plan))
              && negb (IsUnknownInt64 (inv_MaxAge plan))
              && _); [discriminate |].
    destruct (negb (IsNullInt64 (inv_MaxUses plan))
              && negb (IsUnknownInt64 (inv_MaxUses plan))
              && _); [discriminate |].
    now intros [= <-].
  - now destruct (inv_MaxAge plan).
  - now destruct (inv_MaxUses plan).
Qed.

Example inviteResource_Update_out_of_range :
  let state := {| inv_ID := StringValue "abc"; inv_Code := StringValue "abc";
                  inv_ChannelID := StringValue "100"; inv_MaxAge := Int64Value 3600;
                  inv_MaxUses := Int64Value 0; inv_Temporary := BoolValue false;
                  inv_Unique := BoolValue false; inv_URL := StringNull;
                  inv_CreatedAt := StringNull; inv_ExpiresAt := StringNull;
                  inv_Uses := Int64Value 0 |} in
  let plan := {| inv_ID := StringValue "abc"; inv_Code := StringValue "abc";
                 inv_ChannelID := StringValue "100"; inv_MaxAge := Int64Value 700000;
                 inv_MaxUses := Int64Null; inv_Temporary := BoolNull;
                 inv_Unique := BoolNull; inv_URL := StringNull;
                 inv_CreatedAt := StringNull; inv_ExpiresAt := StringNull;
                 inv_Uses := Int64Unknown |} in
  inviteResource_Update_request true plan state
  = inr ("abc", Some ("100", {| Invite_MaxAge := 700000; Invite_MaxUses := 0;
                                Invite_Temporary := false;
                                Invite_Unique := false |})) /\
  inviteResource_Create_request true plan = inl "Invalid Max Age".
Proof. split; reflexivity. Qed.
